(** * PrintVault3D thumbnail scripts

    A shallow embedding of [PythonScripts/stl_thumbnail.py] and
    [PythonScripts/stl_thumbnail_batch.py]: the 3MF loader, the single-job
    runners [generate_thumbnail] / [generate_single_thumbnail] and the batch
    scheduler [process_batch].

    Conventions.
    - Python exceptions are values of [exn]; code that may raise lives in the
      error monad [Exc].  A [try]/[except] is [try_except].
    - Library calls (zipfile, ElementTree parsing, numpy-stl, matplotlib,
      pathlib, [int()], [float()]) are fields of a [World] record: the scripts
      are verified for every behaviour of their collaborators.
    - Coordinates range over a type [F] with the [PyFloat] operations.  Two
      instances are given: exact rationals and IEEE binary32 (the dtype of
      numpy-stl's [vectors]). *)

From Stdlib Require Import ZArith QArith String Ascii List Lia Lqa Permutation.
From Stdlib Require Import Floats.SpecFloat DecimalString.
From stdpp Require Import base option list strings gmap pretty.

Set Warnings "-register-all".

(* ===================================================================== *)
(** * Python: exceptions and the error monad                             *)
(* ===================================================================== *)

(** The exception classes that occur.  All of them derive from [Exception],
    so a bare [except Exception] clause catches every [exn]. *)
Inductive exn_class : Set :=
| Exception
| BadZipFile
| ParseError
| ValueError
| TypeError
| IndexError
| OSError
| FileNotFoundError
| RuntimeError
| BrokenProcessPool.

Record exn := mk_exn { exn_cls : exn_class; exn_msg : string }.

(** [str(e)] *)
Definition str (e : exn) : string := exn_msg e.

(** [isinstance(e, zipfile.BadZipFile)] *)
Definition is_BadZipFile (e : exn) : bool :=
  match exn_cls e with BadZipFile => true | _ => false end.

(** [raise Exception(msg)] *)
Definition Exception_ (msg : string) : exn := mk_exn Exception msg.

Inductive Exc (A : Type) : Type :=
| Return (a : A)
| Raise (e : exn).
Arguments Return {A} a.
Arguments Raise {A} e.

#[global] Instance Exc_ret : MRet Exc := @Return.
#[global] Instance Exc_bind : MBind Exc := fun A B f m =>
  match m with
  | Return a => f a
  | Raise e => Raise e
  end.
#[global] Instance Exc_fmap : FMap Exc := fun A B f m =>
  match m with
  | Return a => Return (f a)
  | Raise e => Raise e
  end.

(** [try: c  except Exception as e: h e] *)
Definition try_except {A} (c : Exc A) (h : exn -> Exc A) : Exc A :=
  match c with
  | Return a => Return a
  | Raise e => h e
  end.

(** A [for] loop that appends one computed item per element. *)
Fixpoint for_append {A B} (f : A -> Exc B) (l : list A) : Exc (list B) :=
  match l with
  | [] => Return []
  | x :: l' =>
      y ← f x;
      ys ← for_append f l';
      Return (y :: ys)
  end.

Definition raised {A} (c : Exc A) : Prop := exists e, c = Raise e.

(* ===================================================================== *)
(** * Python: the string methods used by the scripts                     *)
(* ===================================================================== *)

Definition lower_ascii (c : ascii) : ascii :=
  let n := nat_of_ascii c in
  if (65 <=? n)%nat && (n <=? 90)%nat then ascii_of_nat (n + 32) else c.

(** [s.lower()], on the ASCII letters.  Bytes outside ASCII are kept; the
    scripts only compare the result with the ASCII literals [.stl], [.3mf]. *)
Fixpoint lower (s : string) : string :=
  match s with
  | EmptyString => EmptyString
  | String c s' => String (lower_ascii c) (lower s')
  end.

(** [s.startswith(p)] *)
Definition startswith (s p : string) : bool := String.prefix p s.

(** [s.endswith(p)] *)
Definition endswith (s p : string) : bool :=
  (String.length p <=? String.length s)%nat &&
  String.eqb (substring (String.length s - String.length p) (String.length p) s) p.

(** [s.split(c)[0]]: the text before the first [c] (all of [s] without one). *)
Fixpoint split_head (c : ascii) (s : string) : string :=
  match s with
  | EmptyString => EmptyString
  | String a s' => if Ascii.eqb a c then EmptyString else String a (split_head c s')
  end.

Fixpoint lstrip (c : ascii) (s : string) : string :=
  match s with
  | EmptyString => EmptyString
  | String a s' => if Ascii.eqb a c then lstrip c s' else s
  end.

Definition string_rev (s : string) : string :=
  string_of_list_ascii (rev (list_ascii_of_string s)).

(** [s.strip(c)] for a one-character set *)
Definition strip (c : ascii) (s : string) : string :=
  string_rev (lstrip c (string_rev (lstrip c s))).

(** Character [c] does not occur in [s]. *)
Fixpoint lacks (c : ascii) (s : string) : bool :=
  match s with
  | EmptyString => true
  | String a s' => negb (Ascii.eqb a c) && lacks c s'
  end.

(** [s[n:]] *)
Fixpoint skip_chars (n : nat) (s : string) : string :=
  match n, s with
  | S n', String _ s' => skip_chars n' s'
  | _, _ => s
  end.

(** [s[-n:]] for [n > 0]: the last [n] characters, all of [s] when it has
    no more. *)
Fixpoint last_chars (n : nat) (s : string) : string :=
  match s with
  | EmptyString => EmptyString
  | String _ s' => if (n <=? String.length s')%nat then last_chars n s' else s
  end.

(** Truthiness of an optional string: [None] and [''] are falsy. *)
Definition truthy (ns : option string) : option string :=
  match ns with
  | Some EmptyString => None
  | Some s => Some s
  | None => None
  end.

(* ===================================================================== *)
(** * xml.etree.ElementTree: elements and the two lookups used            *)
(* ===================================================================== *)

(** An element: its tag (a namespaced tag reads [{uri}local]), its
    attribute dictionary and its children in document order. *)
Inductive Element : Type :=
  Elem { tag : string; attrib : gmap string string; children : list Element }.

(** [elem.get(key)] *)
Definition get (e : Element) (key : string) : option string := attrib e !! key.

(** [elem.get(key, default)] *)
Definition get_default (e : Element) (key default : string) : string :=
  match attrib e !! key with
  | Some v => v
  | None => default
  end.

(** The test that [find] and [findall] apply to the tag of a child when the
    path is one tag, bare or behind [{uri}], as every path of the loader is
    (ElementPath, [prepare_child] and [_prepare_tag]): [{*}name] selects
    [name] in any namespace or in none, [{}name] is [name], and any other
    path must equal the tag. *)
Definition tag_matches (path el_tag : string) : bool :=
  if startswith path "{*}" then
    let suffix := skip_chars 2 path in
    String.eqb el_tag (skip_chars 3 path)
    || String.eqb (last_chars (String.length suffix) el_tag) suffix
  else if startswith path "{}" then String.eqb el_tag (skip_chars 2 path)
  else String.eqb el_tag path.

(** [parent.find(path)] for such a path: the first direct child it
    selects. *)
Definition ET_find (parent : Element) (path : string) : option Element :=
  List.find (fun c => tag_matches path (tag c)) (children parent).

(** [parent.findall(path)]: all direct children it selects, in document
    order. *)
Definition ET_findall (parent : Element) (path : string) : list Element :=
  List.filter (fun c => tag_matches path (tag c)) (children parent).

(** [f'{{{ns}}}{tag}'] *)
Definition qname (ns tag : string) : string := "{" +:+ ns +:+ "}" +:+ tag.

(** The path probed for one namespace candidate: [if ns:] picks the
    qualified name, a falsy candidate the bare tag. *)
Definition probe (ns : option string) (tag : string) : string :=
  match truthy ns with
  | Some s => qname s tag
  | None => tag
  end.

(** [find_element(parent, tag, namespaces)] (stl_thumbnail.py 65-76,
    stl_thumbnail_batch.py 61-71) *)
Fixpoint find_element (parent : Element) (tag : string)
    (namespaces : list (option string)) : option Element :=
  match namespaces with
  | [] => None
  | ns :: rest =>
      match ET_find parent (probe ns tag) with
      | Some elem => Some elem
      | None => find_element parent tag rest
      end
  end.

(** [find_all_elements(parent, tag, namespaces)] (stl_thumbnail.py 78-89,
    stl_thumbnail_batch.py 73-83) *)
Fixpoint find_all_elements (parent : Element) (tag : string)
    (namespaces : list (option string)) : list Element :=
  match namespaces with
  | [] => []
  | ns :: rest =>
      match ET_findall parent (probe ns tag) with
      | [] => find_all_elements parent tag rest
      | elems => elems
      end
  end.

Definition NS_MICROSOFT : string :=
  "http://schemas.microsoft.com/3dmanufacturing/core/2015/02".
Definition NS_OPENXML : string :=
  "http://schemas.openxmlformats.org/3dmanufacturing/core/2015/02".

(** [ns_uri]: the namespace of the root tag (stl_thumbnail.py 53-55). *)
Definition ns_uri (root : Element) : option string :=
  if startswith (tag root) "{"
  then Some (strip "{" (split_head "}" (tag root)))
  else None.

(** [possible_namespaces] (stl_thumbnail.py 58-63) *)
Definition possible_namespaces (root : Element) : list (option string) :=
  [ns_uri root; Some NS_MICROSOFT; Some NS_OPENXML; None].

(* ===================================================================== *)
(** * numpy / numpy-stl: coordinates, meshes, bounding box                *)
(* ===================================================================== *)

(** The float operations the scripts apply to coordinates. *)
Class PyFloat (F : Type) : Type := {
  f_zero : F;                 (* 0.0 *)
  f_two : F;                  (* 2.0, the divisor of [/ 2] *)
  f_add : F -> F -> F;
  f_sub : F -> F -> F;
  f_div : F -> F -> F;
  f_ltb : F -> F -> bool;     (* a < b *)
  f_isnan : F -> bool         (* np.isnan *)
}.

(** One row of a numpy array of shape (3,). *)
Record vec3 (F : Type) : Type := V3 { cx : F; cy : F; cz : F }.
Arguments V3 {F} cx cy cz.
Arguments cx {F} v.
Arguments cy {F} v.
Arguments cz {F} v.

(** One entry of [mesh.vectors]: three vertices. *)
Record triangle (F : Type) : Type := Tri { p0 : vec3 F; p1 : vec3 F; p2 : vec3 F }.
Arguments Tri {F} p0 p1 p2.
Arguments p0 {F} t.
Arguments p1 {F} t.
Arguments p2 {F} t.

(** [mesh.vectors], an array of shape (n, 3, 3): the triangles in order. *)
Abbreviation Mesh F := (list (triangle F)).

Section Numpy.
Context {F : Type} `{PyFloat F}.

(** One step of numpy's [minimum] / [maximum] reduction: a NaN operand
    propagates, otherwise the smaller (larger) operand is kept. *)
Definition f_min (a b : F) : F :=
  if f_isnan a then a else if f_isnan b then b else if f_ltb b a then b else a.
Definition f_max (a b : F) : F :=
  if f_isnan a then a else if f_isnan b then b else if f_ltb a b then b else a.

Definition v_map (f : F -> F) (a : vec3 F) : vec3 F :=
  V3 (f (cx a)) (f (cy a)) (f (cz a)).
Definition v_zip (f : F -> F -> F) (a b : vec3 F) : vec3 F :=
  V3 (f (cx a) (cx b)) (f (cy a) (cy b)) (f (cz a) (cz b)).
Definition tri_map (f : vec3 F -> vec3 F) (t : triangle F) : triangle F :=
  Tri (f (p0 t)) (f (p1 t)) (f (p2 t)).

(** The rows of [vectors] flattened over the first two axes. *)
Definition mesh_points (m : Mesh F) : list (vec3 F) :=
  flat_map (fun t => [p0 t; p1 t; p2 t]) m.

Definition zero_size (op : string) : exn :=
  mk_exn ValueError
    ("zero-size array to reduction operation " +:+ op +:+ " which has no identity").

(** [mesh.min_] = [vectors.min(axis=(0, 1))] *)
Definition min_ (m : Mesh F) : Exc (vec3 F) :=
  match mesh_points m with
  | [] => Raise (zero_size "minimum")
  | p :: ps => Return (fold_left (v_zip f_min) ps p)
  end.

(** [mesh.max_] = [vectors.max(axis=(0, 1))] *)
Definition max_ (m : Mesh F) : Exc (vec3 F) :=
  match mesh_points m with
  | [] => Raise (zero_size "maximum")
  | p :: ps => Return (fold_left (v_zip f_max) ps p)
  end.

(** [np.max(dimensions)] *)
Definition np_max (d : vec3 F) : F := f_max (f_max (cx d) (cy d)) (cz d).

(** [center = (min_coords + max_coords) / 2] *)
Definition center_of (min_coords max_coords : vec3 F) : vec3 F :=
  v_map (fun c => f_div c f_two) (v_zip f_add min_coords max_coords).

(** [max_range = np.max(dimensions) / 2] *)
Definition max_range_of (dimensions : vec3 F) : F :=
  f_div (np_max dimensions) f_two.

(** Lines 234-243 of stl_thumbnail.py, 203-212 of stl_thumbnail_batch.py:
    centre, then scale when [max_range > 0]. *)
Definition normalize_vectors (min_coords max_coords : vec3 F)
    (vectors : Mesh F) : Mesh F :=
  let dimensions := v_zip f_sub max_coords min_coords in
  let center := center_of min_coords max_coords in
  let vectors_centered :=
    map (tri_map (fun p => v_zip f_sub p center)) vectors in
  let max_range := max_range_of dimensions in
  if f_ltb f_zero max_range
  then map (tri_map (v_map (fun c => f_div c max_range))) vectors_centered
  else vectors_centered.

(** numpy's complaint about index [i] into an axis of [n] rows. *)
Definition index_error (i n : Z) : exn :=
  mk_exn IndexError
    ("index " +:+ pretty i +:+ " is out of bounds for axis 0 with size " +:+ pretty n).

(** [np_vertices[i, :]]: numpy indexing along axis 0.  A negative index
    counts from the end ([i + n]); an index that then falls outside
    [0 .. n-1] is an [IndexError]. *)
Definition np_index (np_vertices : list (vec3 F)) (i : Z) : Exc (vec3 F) :=
  let n := Z.of_nat (length np_vertices) in
  let k := if (i <? 0)%Z then (i + n)%Z else i in
  match (if (0 <=? k)%Z then np_vertices !! Z.to_nat k else None) with
  | Some v => Return v
  | None => Raise (index_error i n)
  end.
End Numpy.

(** int64, the integer dtype [np.array(faces)] picks when every index fits. *)
Definition fits_int64 (z : Z) : bool :=
  ((- 2 ^ 63 <=? z) && (z <? 2 ^ 63))%Z.

Definition face_fits (f : Z * Z * Z) : bool :=
  let '(a, b, c) := f in fits_int64 a && fits_int64 b && fits_int64 c.

(* ===================================================================== *)
(** * The collaborators                                                   *)
(* ===================================================================== *)

(** An opened [zipfile.ZipFile]: [namelist()] and [open(name).read()]. *)
Record ZipFile := {
  namelist : list string;
  zip_read : string -> Exc string
}.

(** Everything the scripts call but do not define. *)
Record World (F : Type) := {
  (* pathlib, os *)
  path_suffix : string -> string;            (* Path(p).suffix *)
  path_dirname : string -> string;           (* os.path.dirname(p) *)
  os_makedirs : string -> Exc unit;          (* os.makedirs(d, exist_ok=True) *)
  (* numpy-stl *)
  Mesh_from_file : string -> Exc (Mesh F);   (* mesh.Mesh.from_file(p) *)
  get_mass_properties : Mesh F -> Exc F;     (* get_mass_properties()[0] *)
  (* zipfile, ElementTree, builtins *)
  zipfile_ZipFile : string -> Exc ZipFile;   (* zipfile.ZipFile(p, 'r') *)
  ET_fromstring : string -> Exc Element;     (* ET.fromstring(content) *)
  py_float : string -> Exc F;                (* float(s), stored in vectors *)
  py_int : string -> Exc Z;                  (* int(s) *)
  (* numpy: the exception met while materialising faces whose array is
     not int64 (some index does not fit) *)
  np_wide_faces : list (Z * Z * Z) -> exn;
  (* matplotlib *)
  plt_figure : Z -> Exc unit;                (* figure + 3d axes of size/100 in *)
  plt_draw : Mesh F -> Exc unit;             (* collection, limits, view, layout *)
  plt_savefig : string -> Exc unit           (* savefig + close(fig) *)
}.
Arguments path_suffix {F} w _.
Arguments path_dirname {F} w _.
Arguments os_makedirs {F} w _.
Arguments Mesh_from_file {F} w _.
Arguments get_mass_properties {F} w _.
Arguments zipfile_ZipFile {F} w _.
Arguments ET_fromstring {F} w _.
Arguments py_float {F} w _.
Arguments py_int {F} w _.
Arguments np_wide_faces {F} w _.
Arguments plt_figure {F} w _.
Arguments plt_draw {F} w _.
Arguments plt_savefig {F} w _.

(* ===================================================================== *)
(** * load_3mf_mesh (both scripts carry the same function)                *)
(* ===================================================================== *)

Section Loader.
Context {F : Type} `{PyFloat F} (w : World F).

(** First loop of the object selection (stl_thumbnail.py 105-110,
    stl_thumbnail_batch.py 94-99): the first object whose [type] is absent
    or ['model'] and under which a [mesh] is found. *)
Fixpoint first_model_object (nss : list (option string))
    (objects : list Element) : option Element :=
  match objects with
  | [] => None
  | obj :: rest =>
      if String.eqb (get_default obj "type" "model") "model"
      then match find_element obj "mesh" nss with
           | Some _ => Some obj
           | None => first_model_object nss rest
           end
      else first_model_object nss rest
  end.

(** Fallback loop (stl_thumbnail.py 114-118, stl_thumbnail_batch.py
    102-106): the first object under which a [mesh] is found. *)
Fixpoint first_mesh_object (nss : list (option string))
    (objects : list Element) : option Element :=
  match objects with
  | [] => None
  | obj :: rest =>
      match find_element obj "mesh" nss with
      | Some _ => Some obj
      | None => first_mesh_object nss rest
      end
  end.

(** [object_node] after both loops. *)
Definition select_object (nss : list (option string))
    (objects : list Element) : option Element :=
  match first_model_object nss objects with
  | Some obj => Some obj
  | None => first_mesh_object nss objects
  end.

(** [float(v.get(k, 0))] *)
Definition float_attr (v : Element) (k : string) : Exc F :=
  match get v k with
  | Some s => py_float w s
  | None => Return f_zero
  end.

Definition int_of_None : exn :=
  mk_exn TypeError
    "int() argument must be a string, a bytes-like object or a real number, not 'NoneType'".

(** [int(t.get(k))] *)
Definition int_attr (t : Element) (k : string) : Exc Z :=
  match get t k with
  | Some s => py_int w s
  | None => Raise int_of_None
  end.

Definition parse_vertex (v : Element) : Exc (vec3 F) :=
  x ← float_attr v "x";
  y ← float_attr v "y";
  z ← float_attr v "z";
  Return (V3 x y z).

Definition parse_triangle (t : Element) : Exc (Z * Z * Z) :=
  v1 ← int_attr t "v1";
  v2 ← int_attr t "v2";
  v3 ← int_attr t "v3";
  Return (v1, v2, v3).

(** [vertices] (stl_thumbnail.py 128-136) *)
Definition parse_vertices (nss : list (option string)) (mesh_node : Element)
    : Exc (list (vec3 F)) :=
  match find_element mesh_node "vertices" nss with
  | Some vertices_node =>
      for_append parse_vertex (find_all_elements vertices_node "vertex" nss)
  | None => Return []
  end.

(** The [triangle] elements the loader iterates over. *)
Definition triangle_elements (nss : list (option string)) (mesh_node : Element)
    : list Element :=
  match find_element mesh_node "triangles" nss with
  | Some triangles_node => find_all_elements triangles_node "triangle" nss
  | None => []
  end.

(** [faces] (stl_thumbnail.py 144-152) *)
Definition parse_faces (nss : list (option string)) (mesh_node : Element)
    : Exc (list (Z * Z * Z)) :=
  for_append parse_triangle (triangle_elements nss mesh_node).

(** One turn of the outer loop of lines 161-163: the three rows
    [np_vertices[f[j], :]], [j = 0, 1, 2]. *)
Definition materialize (np_vertices : list (vec3 F)) (f : Z * Z * Z)
    : Exc (triangle F) :=
  let '(v1, v2, v3) := f in
  a ← np_index np_vertices v1;
  b ← np_index np_vertices v2;
  c ← np_index np_vertices v3;
  Return (Tri a b c).

(** [model_mesh] (stl_thumbnail.py 160-163).  When some index does not fit
    int64 the array of faces has another dtype; such an index is out of
    bounds of every vertex array, so numpy raises on the way, with an
    exception of its own choosing. *)
Definition build_mesh (np_vertices : list (vec3 F)) (np_faces : list (Z * Z * Z))
    : Exc (Mesh F) :=
  if forallb face_fits np_faces
  then for_append (materialize np_vertices) np_faces
  else Raise (np_wide_faces w np_faces).

(** From the parsed [root] to [mesh_node] (stl_thumbnail.py 91-125,
    stl_thumbnail_batch.py 85-113). *)
Definition locate_mesh (root : Element) : Exc Element :=
  let nss := possible_namespaces root in
  match find_element root "resources" nss with
  | None => Raise (Exception_ "No resources found in 3MF file")
  | Some resources =>
  match find_all_elements resources "object" nss with
  | [] => Raise (Exception_ "No object found in 3MF file")
  | objects =>
  match select_object nss objects with
  | None => Raise (Exception_ "No object with mesh found in 3MF file")
  | Some object_node =>
  match find_element object_node "mesh" nss with
  | None => Raise (Exception_ "No mesh found in 3MF object")
  | Some mesh_node => Return mesh_node
  end end end end.

(** From [mesh_node] to [model_mesh] (stl_thumbnail.py 127-165,
    stl_thumbnail_batch.py 115-150). *)
Definition parse_mesh (nss : list (option string)) (mesh_node : Element)
    : Exc (Mesh F) :=
  vertices ← parse_vertices nss mesh_node;
  match vertices with
  | [] => Raise (Exception_ "No vertices found in 3MF mesh")
  | _ =>
      faces ← parse_faces nss mesh_node;
      match faces with
      | [] => Raise (Exception_ "No triangles found in 3MF mesh")
      | _ => build_mesh vertices faces
      end
  end.

(** The body of [load_3mf_mesh] from the parsed [root] on
    (stl_thumbnail.py 52-165, stl_thumbnail_batch.py 50-150). *)
Definition load_model (root : Element) : Exc (Mesh F) :=
  mesh_node ← locate_mesh root;
  parse_mesh (possible_namespaces root) mesh_node.

(** The two [except] clauses of [load_3mf_mesh] (stl_thumbnail.py 167-170). *)
Definition wrap_3mf_error (e : exn) : exn :=
  if is_BadZipFile e
  then Exception_ "Invalid 3MF file (not a valid ZIP)"
  else Exception_ ("Failed to parse 3MF file: " +:+ str e).

(** [load_3mf_mesh(file_path)] *)
Definition load_3mf_mesh (file_path : string) : Exc (Mesh F) :=
  try_except
    (zip_file ← zipfile_ZipFile w file_path;
     let model_files :=
       List.filter (fun f => endswith f ".model") (namelist zip_file) in
     match model_files with
     | [] => Raise (Exception_ "No .model file found in 3MF archive")
     | model_file :: _ =>
         content ← zip_read zip_file model_file;
         root ← ET_fromstring w content;
         load_model root
     end)
    (fun e => Raise (wrap_3mf_error e)).

(** [file_path] is an archive whose first [.model] entry parses to [root]
    (stl_thumbnail.py 40-50). *)
Definition opens_to (file_path : string) (root : Element) : Prop :=
  exists zip_file model_file rest content,
    zipfile_ZipFile w file_path = Return zip_file /\
    List.filter (fun f => endswith f ".model") (namelist zip_file)
      = model_file :: rest /\
    zip_read zip_file model_file = Return content /\
    ET_fromstring w content = Return root.

End Loader.

(* ===================================================================== *)
(** * The job runners                                                     *)
(* ===================================================================== *)

(** [result["metadata"]]; [volume] is reported by stl_thumbnail.py only. *)
Record Metadata (F : Type) := {
  dimensions : vec3 F;
  volume : option F;
  triangles : nat
}.
Arguments dimensions {F} m.
Arguments volume {F} m.
Arguments triangles {F} m.

(** The value under [result["metadata"]]: stl_thumbnail.py starts with an
    empty dictionary, stl_thumbnail_batch.py with no such key; both store
    the metadata once the mesh is measured. *)
Inductive MetadataField (F : Type) : Type :=
| NoMetadataKey
| EmptyMetadata
| SomeMetadata (md : Metadata F).
Arguments NoMetadataKey {F}.
Arguments EmptyMetadata {F}.
Arguments SomeMetadata {F} md.

(** The [result] dictionary. *)
Record JobResult (F : Type) := {
  success : bool;
  file_path : string;
  output_path : string;
  error : option string;
  metadata : MetadataField F
}.
Arguments success {F} _.
Arguments file_path {F} _.
Arguments output_path {F} _.
Arguments error {F} _.
Arguments metadata {F} _.

Section Runner.
Context {F : Type} `{PyFloat F} (w : World F).

Definition set_success (b : bool) (r : JobResult F) : JobResult F :=
  {| success := b; file_path := file_path r; output_path := output_path r;
     error := error r; metadata := metadata r |}.
Definition set_error (msg : string) (r : JobResult F) : JobResult F :=
  {| success := success r; file_path := file_path r; output_path := output_path r;
     error := Some msg; metadata := metadata r |}.
Definition set_metadata (md : Metadata F) (r : JobResult F) : JobResult F :=
  {| success := success r; file_path := file_path r; output_path := output_path r;
     error := error r; metadata := SomeMetadata md |}.

(** The initial [result] of both runners. *)
Definition initial_result (metadata : MetadataField F)
    (file_path output_path : string) : JobResult F :=
  {| success := false; file_path := file_path; output_path := output_path;
     error := None; metadata := metadata |}.

(** Loader selection by extension (stl_thumbnail.py 196-205,
    stl_thumbnail_batch.py 170-178). *)
Definition select_loader (file_path : string) : Exc (Mesh F) :=
  let file_ext := lower (path_suffix w file_path) in
  if String.eqb file_ext ".stl" then Mesh_from_file w file_path
  else if String.eqb file_ext ".3mf" then load_3mf_mesh w file_path
  else Raise (Exception_
         ("Unsupported file type: " +:+ file_ext +:+ ". Only .stl and .3mf are supported.")).

(** From the figure to the saved file (stl_thumbnail.py 222-283,
    stl_thumbnail_batch.py 194-247). *)
Definition render (stl_mesh : Mesh F) (min_coords max_coords : vec3 F)
    (output_path : string) (size : Z) : Exc unit :=
  _ ← plt_figure w size;
  let vectors_normalized := normalize_vectors min_coords max_coords stl_mesh in
  _ ← plt_draw w vectors_normalized;
  _ ← os_makedirs w (path_dirname w output_path);
  plt_savefig w output_path.

(** The [try] body of a runner up to the assignment of
    [result["metadata"]]: the loaded mesh, its bounds and the metadata. *)
Definition load_and_measure (with_volume : bool) (file_path : string)
    : Exc (Mesh F * vec3 F * vec3 F * Metadata F) :=
  stl_mesh ← select_loader file_path;
  min_coords ← min_ stl_mesh;
  max_coords ← max_ stl_mesh;
  let dimensions := v_zip f_sub max_coords min_coords in
  vol ← (if with_volume
         then v ← get_mass_properties w stl_mesh; Return (Some v)
         else Return None);
  Return (stl_mesh, min_coords, max_coords,
          {| dimensions := dimensions; volume := vol;
             triangles := length stl_mesh |}).

(** The collaborators of one job in sequence, without the runner's
    [try]: loader and measurements, then figure, drawing and saving. *)
Definition pipeline (with_volume : bool) (file_path output_path : string)
    (size : Z) : Exc (Metadata F) :=
  '(stl_mesh, min_coords, max_coords, md) ← load_and_measure with_volume file_path;
  _ ← render stl_mesh min_coords max_coords output_path size;
  Return md.

(** The [try] body as a state transformer on [result]: the final
    dictionary and the exception that ended the body, if any. *)
Definition job_body (with_volume : bool) (file_path output_path : string)
    (size : Z) (result : JobResult F) : JobResult F * option exn :=
  match load_and_measure with_volume file_path with
  | Raise e => (result, Some e)
  | Return (stl_mesh, min_coords, max_coords, md) =>
      let result := set_metadata md result in
      match render stl_mesh min_coords max_coords output_path size with
      | Raise e => (result, Some e)
      | Return _ => (set_success true result, None)
      end
  end.

(** [generate_thumbnail(file_path, output_path, size)] of stl_thumbnail.py *)
Definition generate_thumbnail (file_path output_path : string) (size : Z)
    : JobResult F :=
  match job_body true file_path output_path size
          (initial_result EmptyMetadata file_path output_path) with
  | (result, None) => result
  | (result, Some e) => set_success false (set_error (str e) result)
  end.

(** [generate_single_thumbnail(file_path, output_path, size)] of
    stl_thumbnail_batch.py.  The progress line on stderr and the
    [plt.close('all')] of the handler leave [result] alone and are left
    out. *)
Definition generate_single_thumbnail (file_path output_path : string) (size : Z)
    : JobResult F :=
  match job_body false file_path output_path size
          (initial_result NoMetadataKey file_path output_path) with
  | (result, None) => result
  | (result, Some e) => set_error (str e) result
  end.

End Runner.

(* ===================================================================== *)
(** * process_batch                                                       *)
(* ===================================================================== *)

(** One entry of [jobs]; [size] may be absent ([job.get('size', 256)]). *)
Record Job := {
  input : string;
  output : string;
  size : option Z
}.

(** A submitted call: the job it belongs to ([future_to_job[future]]) and
    what [future.result()] gives. *)
Record Future (F : Type) := {
  fut_job : Job;
  fut_result : Exc (JobResult F)
}.
Arguments fut_job {F} _.
Arguments fut_result {F} _.

(** The process pool.  [platform_max_workers] is the largest pool the
    platform allows (61 on Windows, none elsewhere).  [submit_fault i job]
    is the exception [executor.submit] raises for the [i]-th job, if any (a
    pool that is already broken or shut down refuses new work).
    [worker_fault i job] is the exception [future.result()] raises for the
    [i]-th submitted call, if any: the worker running it died, or the pool
    broke under another call, which fails every call still pending.
    [as_completed] is the order in which the futures finish. *)
Record Pool (F : Type) := {
  platform_max_workers : option Z;
  submit_fault : nat -> Job -> option exn;
  worker_fault : nat -> Job -> option exn;
  as_completed : list (Future F) -> list (Future F)
}.
Arguments platform_max_workers {F} _.
Arguments submit_fault {F} _ _ _.
Arguments worker_fault {F} _ _ _.
Arguments as_completed {F} _ _.

(** [as_completed] yields every future once. *)
Definition pool_ok {F} (pool : Pool F) : Prop :=
  forall fs, Permutation (as_completed pool fs) fs.

(** Standard output: [print_fault k] is the exception the [k]-th call of
    [print] raises, if any (a closed pipe, a full disk, a pipe that would
    block), counting from 0. *)
Record Console := {
  print_fault : nat -> option exn
}.

(** The [summary] dictionary. *)
Record BatchSummary (F : Type) := {
  summary_success : bool;
  total : Z;
  succeeded : Z;
  failed : Z;
  results : list (JobResult F)
}.
Arguments summary_success {F} _.
Arguments total {F} _.
Arguments succeeded {F} _.
Arguments failed {F} _.
Arguments results {F} _.

(** A line printed on stdout in stream mode:
    [{"type": "result", ...}] or [{"type": "summary", ...}]. *)
Inductive Line (F : Type) : Type :=
| ResultLine (data : JobResult F)
| SummaryLine (data : BatchSummary F).
Arguments ResultLine {F} data.
Arguments SummaryLine {F} data.

Section Batch.
Context {F : Type} `{PyFloat F} (w : World F) (pool : Pool F) (console : Console).

(** [executor.submit(generate_single_thumbnail, job['input'],
    job['output'], job.get('size', 256))] for the [i]-th job. *)
Definition submit (i : nat) (job : Job) : Exc (Future F) :=
  match submit_fault pool i job with
  | Some e => Raise e
  | None =>
      Return
        {| fut_job := job;
           fut_result :=
             match worker_fault pool i job with
             | Some e => Raise e
             | None =>
                 Return (generate_single_thumbnail w (input job) (output job)
                           (default 256%Z (size job)))
             end |}
  end.

(** The dictionary comprehension of lines 276-284: the jobs are submitted
    in order, and the first [submit] that raises ends it. *)
Fixpoint submit_all (i : nat) (jobs : list Job) : Exc (list (Future F)) :=
  match jobs with
  | [] => Return []
  | job :: rest =>
      future ← submit i job;
      futures ← submit_all (S i) rest;
      Return (future :: futures)
  end.

(** [err_result] (stl_thumbnail_batch.py 302-307) *)
Definition err_result (job : Job) (e : exn) : JobResult F :=
  {| success := false; file_path := input job; output_path := output job;
     error := Some (str e); metadata := NoMetadataKey |}.

(** The loop state: [results], [success_count], the lines written to
    stdout and the number of calls of [print] so far. *)
Definition LoopState : Type := list (JobResult F) * Z * list (Line F) * nat.

(** [if stream: print(json.dumps(line), flush=True)]: the state after it
    and the exception it raised, if any. *)
Definition emit (stream : bool) (line : Line F) (st : LoopState)
    : LoopState * option exn :=
  let '(results, success_count, out, prints) := st in
  if stream
  then match print_fault console prints with
       | None => ((results, success_count, out ++ [line], S prints), None)
       | Some e => ((results, success_count, out, S prints), Some e)
       end
  else (st, None).

(** The [try] body of lines 289-298 for one future: the state when it
    ends and the exception that ended it, if any. *)
Definition collect_try (stream : bool) (st : LoopState) (future : Future F)
    : LoopState * option exn :=
  let '(results, success_count, out, prints) := st in
  match fut_result future with
  | Raise e => (st, Some e)
  | Return result =>
      emit stream (ResultLine result)
        (results ++ [result],
         if success result then (success_count + 1)%Z else success_count,
         out, prints)
  end.

(** One turn of [for future in as_completed(future_to_job)] (lines
    286-310): the [try] body and, when it raised, the handler, which
    appends [err_result] and prints it in stream mode.  An exception of
    the handler ends the loop. *)
Definition collect (stream : bool) (st : LoopState) (future : Future F)
    : LoopState * option exn :=
  match collect_try stream st future with
  | (st', None) => (st', None)
  | ((results, success_count, out, prints), Some e) =>
      let err := err_result (fut_job future) e in
      emit stream (ResultLine err)
        (results ++ [err], success_count, out, prints)
  end.

(** The loop over the completed futures, up to its end or to the first
    exception that leaves it. *)
Fixpoint collect_all (stream : bool) (futures : list (Future F))
    (st : LoopState) : LoopState * option exn :=
  match futures with
  | [] => (st, None)
  | future :: rest =>
      match collect stream st future with
      | (st', None) => collect_all stream rest st'
      | (st', Some e) => (st', Some e)
      end
  end.

(** [ProcessPoolExecutor(max_workers=...)] refuses a pool without workers
    and one above the platform's limit. *)
Definition no_workers : exn :=
  mk_exn ValueError "max_workers must be greater than 0".
Definition too_many_workers (limit : Z) : exn :=
  mk_exn ValueError ("max_workers must be <= " +:+ pretty limit).

Definition ProcessPoolExecutor (max_workers : Z) : Exc unit :=
  if (max_workers <=? 0)%Z then Raise no_workers else
  match platform_max_workers pool with
  | Some limit =>
      if (limit <? max_workers)%Z then Raise (too_many_workers limit)
      else Return tt
  | None => Return tt
  end.

(** [process_batch(jobs, max_workers, stream)]: the lines written to stdout,
    and the summary returned or the exception raised. *)
Definition process_batch (jobs : list Job) (max_workers : Z) (stream : bool)
    : list (Line F) * Exc (BatchSummary F) :=
  match ProcessPoolExecutor max_workers with
  | Raise e => ([], Raise e)
  | Return _ =>
  match submit_all 0 jobs with
  | Raise e => ([], Raise e)
  | Return future_to_job =>
  match collect_all stream (as_completed pool future_to_job)
          ([], 0%Z, [], 0%nat) with
  | ((_, _, out, _), Some e) => (out, Raise e)
  | ((results, success_count, out, prints), None) =>
      let summary :=
        {| summary_success := true;
           total := Z.of_nat (length jobs);
           succeeded := success_count;
           failed := (Z.of_nat (length jobs) - success_count)%Z;
           results := results |} in
      match emit stream (SummaryLine summary)
              (results, success_count, out, prints) with
      | ((_, _, out', _), None) => (out', Return summary)
      | ((_, _, out', _), Some e) => (out', Raise e)
      end
  end end end.

End Batch.

(* ===================================================================== *)
(** * Two arithmetics                                                     *)
(* ===================================================================== *)

(** Exact rational arithmetic: coordinates for the examples of claims that
    hold in every arithmetic.  The scripts themselves compute in binary32. *)
#[global] Instance Q_float : PyFloat Q := {|
  f_zero := 0%Q;
  f_two := 2%Q;
  f_add := Qplus;
  f_sub := Qminus;
  f_div := Qdiv;
  f_ltb := fun a b => negb (Qle_bool b a);
  f_isnan := fun _ => false
|}.

(** IEEE 754 binary32 with round-to-nearest-even: numpy's [float32], the
    dtype of [vectors], [min_] and [max_] in numpy-stl. *)
Definition binary32 : Type := spec_float.

(** The binary32 value nearest to the integer [m]. *)
Definition b32 (m : Z) : binary32 := binary_normalize 24 128 m 0 false.

#[global] Instance binary32_float : PyFloat binary32 := {|
  f_zero := S754_zero false;
  f_two := b32 2;
  f_add := SFadd 24 128;
  f_sub := SFsub 24 128;
  f_div := SFdiv 24 128;
  f_ltb := SFltb;
  f_isnan := fun x => match x with S754_nan => true | _ => false end
|}.






(** A single vertex near the top of the binary32 range, [1.5 * 2^127]:
    twice its x coordinate is not a finite number. *)
Definition far_point : vec3 binary32 :=
  V3 (S754_finite false 12582912 104) (b32 0) (b32 0).









(* ===================================================================== *)
(** * A concrete world, for running the scripts on examples               *)
(* ===================================================================== *)

(** The text after the last [c], if [c] occurs. *)
Fixpoint after_last (c : ascii) (s : string) : option string :=
  match s with
  | EmptyString => None
  | String a s' =>
      match after_last c s' with
      | Some t => Some t
      | None => if Ascii.eqb a c then Some s' else None
      end
  end.

(** The text before the last [c], if [c] occurs. *)
Fixpoint before_last (c : ascii) (s : string) : option string :=
  match s with
  | EmptyString => None
  | String a s' =>
      match before_last c s' with
      | Some t => Some (String a t)
      | None => if Ascii.eqb a c then Some EmptyString else None
      end
  end.

(** [PurePosixPath(p).suffix] for a path without trailing separator:
    the final component from its last dot on, unless that dot starts or
    ends the component. *)
Definition posix_suffix (p : string) : string :=
  let name := default p (after_last "/" p) in
  match after_last "." name, before_last "." name with
  | Some ext, Some stem =>
      if String.eqb ext EmptyString || String.eqb stem EmptyString then EmptyString else "." +:+ ext
  | _, _ => EmptyString
  end.

(** [posixpath.dirname(p)] for a path with at most one separator in a row. *)
Definition posix_dirname (p : string) : string :=
  match before_last "/" p with
  | Some EmptyString => "/"
  | Some d => d
  | None => EmptyString
  end.

(** [int(s)] on plain decimal literals. *)
Definition decimal_int (s : string) : Exc Z :=
  match NilZero.int_of_string s with
  | Some d => Return (Z.of_int d)
  | None =>
      Raise (mk_exn ValueError
               ("invalid literal for int() with base 10: '" +:+ s +:+ "'"))
  end.

(** [float(s)] on plain decimal integers. *)
Definition decimal_float (s : string) : Exc Q :=
  match NilZero.int_of_string s with
  | Some d => Return (inject_Z (Z.of_int d))
  | None =>
      Raise (mk_exn ValueError
               ("could not convert string to float: '" +:+ s +:+ "'"))
  end.

Definition unit_triangle : Mesh Q :=
  [Tri (V3 0 0 0) (V3 1 0 0) (V3 0 1 0)]%Q.

(** A world in which every [.3mf] is an archive whose model part parses
    to [root], except [renamed.3mf], which is no zip archive; every [.stl]
    but [missing.stl] holds [unit_triangle]; drawing succeeds, and
    [os.makedirs('')] fails as it does in CPython. *)
Definition demo_world (root : Element) : World Q := {|
  path_suffix := posix_suffix;
  path_dirname := posix_dirname;
  os_makedirs := fun d =>
    if String.eqb d EmptyString
    then Raise (mk_exn FileNotFoundError "[Errno 2] No such file or directory: ''")
    else Return tt;
  Mesh_from_file := fun p =>
    if String.eqb p "missing.stl"
    then Raise (mk_exn FileNotFoundError
                  "[Errno 2] No such file or directory: 'missing.stl'")
    else Return unit_triangle;
  get_mass_properties := fun _ => Return 0%Q;
  zipfile_ZipFile := fun p =>
    if String.eqb p "renamed.3mf"
    then Raise (mk_exn BadZipFile "File is not a zip file")
    else Return {| namelist := ["[Content_Types].xml"; "3D/3dmodel.model"];
                   zip_read := fun name => Return name |};
  ET_fromstring := fun _ => Return root;
  py_float := decimal_float;
  py_int := decimal_int;
  np_wide_faces := fun _ =>
    mk_exn IndexError "index out of bounds";
  plt_figure := fun _ => Return tt;
  plt_draw := fun _ => Return tt;
  plt_savefig := fun _ => Return tt
|}.

(** Builders for example documents. *)
Definition attrs (l : list (string * string)) : gmap string string :=
  list_to_map l.

Definition vertex_elem (ns : string -> string) (x y z : string) : Element :=
  Elem (ns "vertex") (attrs [("x", x); ("y", y); ("z", z)]) [].

Definition triangle_elem (ns : string -> string) (v1 v2 v3 : string) : Element :=
  Elem (ns "triangle") (attrs [("v1", v1); ("v2", v2); ("v3", v3)]) [].

Definition mesh_elem (ns : string -> string) (vs ts : list Element) : Element :=
  Elem (ns "mesh") ∅ [Elem (ns "vertices") ∅ vs; Elem (ns "triangles") ∅ ts].

Definition model_elem (ns : string -> string) (objects : list Element) : Element :=
  Elem (ns "model") ∅ [Elem (ns "resources") ∅ objects].

Definition three_vertices (ns : string -> string) : list Element :=
  [vertex_elem ns "0" "0" "0"; vertex_elem ns "4" "0" "0"; vertex_elem ns "0" "2" "0"].

(** A model with one object, three vertices and one triangle with the
    given indices. *)
Definition one_triangle_doc (v1 v2 v3 : string) : Element :=
  model_elem id
    [Elem "object" (attrs [("id", "1"); ("type", "model")])
       [mesh_elem id (three_vertices id) [triangle_elem id v1 v2 v3]]].

(** A [type="support"] object with a mesh, then a [type="model"] one. *)
Definition support_object : Element :=
  Elem "object" (attrs [("id", "1"); ("type", "support")])
    [mesh_elem id (three_vertices id) [triangle_elem id "0" "1" "2"]].
Definition model_object : Element :=
  Elem "object" (attrs [("id", "2"); ("type", "model")])
    [mesh_elem id (three_vertices id) [triangle_elem id "2" "1" "0"]].

(** A pool that accepts every job and breaks after the first submitted
    call has run: the two calls still pending fail with
    [BrokenProcessPool].  The futures complete in reverse submission
    order. *)
Definition demo_pool : Pool Q := {|
  platform_max_workers := Some 61%Z;
  submit_fault := fun _ _ => None;
  worker_fault := fun i _ =>
    if (1 <=? i)%nat
    then Some (mk_exn BrokenProcessPool
                 "A process in the process pool was terminated abruptly while the future was running or pending.")
    else None;
  as_completed := @rev (Future Q)
|}.

(** A pool without faults that completes the futures in submission
    order. *)
Definition steady_pool : Pool Q := {|
  platform_max_workers := Some 61%Z;
  submit_fault := fun _ _ => None;
  worker_fault := fun _ _ => None;
  as_completed := fun fs => fs
|}.

(** A standard output that takes every line. *)
Definition quiet_console : Console := {| print_fault := fun _ => None |}.

(** A standard output that refuses the [n]-th write and takes all
    others, as a file on a disk that is full for a moment does. *)
Definition failing_at (n : nat) : Console := {|
  print_fault := fun k =>
    if Nat.eqb k n
    then Some (mk_exn OSError "[Errno 28] No space left on device")
    else None
|}.

Definition demo_jobs : list Job :=
  [ {| input := "cube.stl"; output := "out/cube.png"; size := Some 128%Z |};
    {| input := "gear.3mf"; output := "out/gear.png"; size := None |};
    {| input := "missing.stl"; output := "out/missing.png"; size := None |} ].

(* ===================================================================== *)
(** * Properties the theorems speak about                                 *)
(* ===================================================================== *)

(** What a runner hands back for an outcome [c] of its collaborators. *)
Definition runner_outcome {F} (fp op : string) (c : Exc (Metadata F))
    (r : JobResult F) : Prop :=
  file_path r = fp /\ output_path r = op /\
  match c with
  | Return _ => success r = true /\ error r = None
  | Raise e => success r = false /\ error r = Some (str e)
  end.

(** The record of a job that failed before any metadata was stored: the
    [metadata] entry is still what the runner started with. *)
Definition failed_result {F} (started_with : MetadataField F)
    (fp op msg : string) : JobResult F :=
  {| success := false; file_path := fp; output_path := op;
     error := Some msg; metadata := started_with |}.

Definition unsupported_message (file_ext : string) : string :=
  "Unsupported file type: " +:+ file_ext +:+ ". Only .stl and .3mf are supported.".

(** The [metadata] entry holds metadata. *)
Definition populated {F} (m : MetadataField F) : Prop :=
  exists md, m = SomeMetadata md.

(** The field discipline as the data model words it: a failure carries a
    non-empty error, a success carries metadata, and exactly one of the
    two fields is populated. *)
Definition field_discipline {F} (r : JobResult F) : Prop :=
  (success r = false -> exists msg, error r = Some msg /\ msg <> EmptyString) /\
  (success r = true -> populated (metadata r)) /\
  ((populated (metadata r) /\ error r = None) \/
   (~ populated (metadata r) /\ error r <> None)).

(** The metadata describes [stl_mesh]: per-axis extent and triangle count. *)
Definition describes {F} `{PyFloat F} (md : Metadata F) (stl_mesh : Mesh F) : Prop :=
  triangles md = length stl_mesh /\
  exists min_coords max_coords,
    min_ stl_mesh = Return min_coords /\
    max_ stl_mesh = Return max_coords /\
    dimensions md = v_zip f_sub max_coords min_coords.

(** The error texts this code makes itself are never empty: either the
    extension selects numpy-stl's loader, or a failure of the selection
    carries a message. *)
Definition own_errors_nonempty {F} `{PyFloat F} (w : World F) (fp : string) : Prop :=
  lower (path_suffix w fp) = ".stl" \/
  match select_loader w fp with
  | Return _ => True
  | Raise e => str e <> EmptyString
  end.

(** A mesh loaded from a model has one triangle per [triangle] element
    that was parsed. *)
Definition counts_parsed_triangles {F} `{PyFloat F} (w : World F) (root : Element)
    : Prop :=
  match load_model w root with
  | Return stl_mesh =>
      exists mesh_node,
        locate_mesh root = Return mesh_node /\
        length stl_mesh
          = length (triangle_elements (possible_namespaces root) mesh_node)
  | Raise _ => True
  end.

(** The field discipline the runners keep, for a runner that starts with
    [started_with] under [metadata] and computes the volume or not.  A
    successful record has no error and the metadata of the loaded mesh.  A
    failed record has the text of the exception that stopped the job as
    its error; its [metadata] is untouched when loading or measuring
    failed, and is the metadata of the loaded mesh when the failure came
    later, from the figure, the drawing, the directory or the saving. *)
Definition kept_discipline {F} `{PyFloat F} (w : World F) (with_volume : bool)
    (started_with : MetadataField F) (fp op : string) (size : Z)
    (r : JobResult F) : Prop :=
  match success r with
  | true =>
      error r = None /\
      exists md stl_mesh,
        pipeline w with_volume fp op size = Return md /\
        metadata r = SomeMetadata md /\
        select_loader w fp = Return stl_mesh /\ describes md stl_mesh
  | false =>
      exists e,
        pipeline w with_volume fp op size = Raise e /\
        error r = Some (str e) /\
        match load_and_measure w with_volume fp with
        | Raise e' => e' = e /\ metadata r = started_with
        | Return (stl_mesh, min_coords, max_coords, md) =>
            render w stl_mesh min_coords max_coords op size = Raise e /\
            metadata r = SomeMetadata md /\
            select_loader w fp = Return stl_mesh /\ describes md stl_mesh
        end
  end.

(** ** Object selection, as the specification words it *)

(** The object directly contains a [mesh] child (under one of the
    namespace candidates). *)
Definition has_mesh (nss : list (option string)) (obj : Element) : bool :=
  match find_element obj "mesh" nss with
  | Some _ => true
  | None => false
  end.

(** The [type] attribute is absent or equals ["model"]. *)
Definition type_absent_or_model (obj : Element) : Prop :=
  get obj "type" = None \/ get obj "type" = Some "model".

Definition preferred (nss : list (option string)) (obj : Element) : Prop :=
  type_absent_or_model obj /\ has_mesh nss obj = true.

(** [obj] stands in [objects] after [before], which is how "the first
    object such that" is said. *)
Definition first_after (objects before : list Element) (obj : Element) : Prop :=
  exists rest, objects = before ++ obj :: rest.

(** The tie-break policy: a preferred object with no preferred one before
    it, or, when no object is preferred, a mesh-bearing object with no
    mesh-bearing one before it. *)
Definition selected_by_policy (nss : list (option string))
    (objects : list Element) (obj : Element) : Prop :=
  exists before,
    first_after objects before obj /\
    has_mesh nss obj = true /\
    ((type_absent_or_model obj /\ Forall (fun x => ~ preferred nss x) before) \/
     (Forall (fun x => ~ preferred nss x) objects /\
      Forall (fun x => has_mesh nss x = false) before)).

(** ** Namespaces *)

(** The document [e] with every tag put into namespace [ns]. *)
Fixpoint qualify (ns : string) (e : Element) : Element :=
  Elem (qname ns (tag e)) (attrib e) (map (qualify ns) (children e)).

(** No tag of the document carries a namespace: its tags are names, which
    hold no brace. *)
Fixpoint plain (e : Element) : bool :=
  lacks "{" (tag e) && lacks "}" (tag e) && forallb plain (children e).

(** [s] ends with [p]. *)
Fixpoint ends_with (s p : string) : bool :=
  String.eqb s p ||
  match s with
  | EmptyString => false
  | String _ s' => ends_with s' p
  end.

(** A namespace name as it comes out of a root tag [{uri}local]: not
    empty and without braces. *)
Definition clean_uri (ns : string) : bool :=
  negb (String.eqb ns EmptyString) && lacks "{" ns && lacks "}" ns.

(** The candidate lists of a document without namespaces and of its
    qualified copy. *)
Definition candidates_plain : list (option string) :=
  [None; Some NS_MICROSOFT; Some NS_OPENXML; None].
Definition candidates_of (ns : string) : list (option string) :=
  [Some ns; Some NS_MICROSOFT; Some NS_OPENXML; None].


(** ** Triangle indices *)

(** [i] addresses a row of an array of [n] rows, from the front
    ([0 .. n-1]) or from the back ([-n .. -1]). *)
Definition in_range (n : nat) (i : Z) : bool :=
  ((- Z.of_nat n <=? i) && (i <? Z.of_nat n))%Z.

(** The indices of all faces in the order the loader dereferences them. *)
Definition face_indices (faces : list (Z * Z * Z)) : list Z :=
  flat_map (fun '(v1, v2, v3) => [v1; v2; v3]) faces.

(** The first index that numpy refuses. *)
Definition first_refused (n : nat) (faces : list (Z * Z * Z)) : option Z :=
  List.find (fun i => negb (in_range n i)) (face_indices faces).

(** "Out of bounds of the vertex list" read as "not in [0 .. n-1]". *)
Definition out_of_bounds (n : nat) (i : Z) : Prop :=
  ~ (0 <= i < Z.of_nat n)%Z.

(** The claim on triangle indices in that reading, for one document. *)
Definition rejects_out_of_bounds {F} `{PyFloat F} (w : World F) (root : Element)
    : Prop :=
  forall mesh_node vertices faces,
    locate_mesh root = Return mesh_node ->
    parse_vertices w (possible_namespaces root) mesh_node = Return vertices ->
    parse_faces w (possible_namespaces root) mesh_node = Return faces ->
    Exists (out_of_bounds (length vertices)) (face_indices faces) ->
    raised (load_model w root).

Definition eight_vertices : list Element :=
  [vertex_elem id "0" "0" "0"; vertex_elem id "1" "0" "0";
   vertex_elem id "1" "1" "0"; vertex_elem id "0" "1" "0";
   vertex_elem id "0" "0" "1"; vertex_elem id "1" "0" "1";
   vertex_elem id "1" "1" "1"; vertex_elem id "0" "1" "1"].

(** Eight vertices and two triangles, the second with index [last]. *)
Definition cube_corner_doc (last : string) : Element :=
  model_elem id
    [Elem "object" (attrs [("id", "1")])
       [mesh_elem id eight_vertices
          [triangle_elem id "0" "1" "2"; triangle_elem id "0" "2" last]]].

(** ** Batches *)

(** The future that [submit] returns for the [i]-th job. *)
Definition future_of {F} `{PyFloat F} (w : World F) (pool : Pool F)
    (i : nat) (job : Job) : Future F :=
  {| fut_job := job;
     fut_result :=
       match worker_fault pool i job with
       | Some e => Raise e
       | None =>
           Return (generate_single_thumbnail w (input job) (output job)
                     (default 256%Z (size job)))
       end |}.

(** The result a completed future contributes to [results]. *)
Definition result_of {F} (future : Future F) : JobResult F :=
  match fut_result future with
  | Return result => result
  | Raise e =>
      {| success := false; file_path := input (fut_job future);
         output_path := output (fut_job future);
         error := Some (str e); metadata := NoMetadataKey |}
  end.



(** Every write among the first [n] succeeds. *)
Definition writes_succeed (console : Console) (n : nat) : Prop :=
  forall k, (k < n)%nat -> print_fault console k = None.


(** The summary of a batch all of whose jobs were submitted and whose
    result lines could be written. *)
Definition summary_of {F} `{PyFloat F} (w : World F) (pool : Pool F)
    (jobs : list Job) : BatchSummary F :=
  let rs := map result_of
              (as_completed pool (imap (fun k => future_of w pool k) jobs)) in
  {| summary_success := true;
     total := Z.of_nat (length jobs);
     succeeded := Z.of_nat (length (List.filter success rs));
     failed := (Z.of_nat (length jobs)
                - Z.of_nat (length (List.filter success rs)))%Z;
     results := rs |}.

(* ===================================================================== *)
(** * Further example data                                                *)
(* ===================================================================== *)

(** [demo_world root] with the archive listing of each path given by
    [names]; the content of an entry is its name, and every content
    parses to [root]. *)
Definition archive_world (root : Element) (names : string -> list string)
    : World Q := {|
  path_suffix := path_suffix (demo_world root);
  path_dirname := path_dirname (demo_world root);
  os_makedirs := os_makedirs (demo_world root);
  Mesh_from_file := Mesh_from_file (demo_world root);
  get_mass_properties := get_mass_properties (demo_world root);
  zipfile_ZipFile := fun p =>
    Return {| namelist := names p; zip_read := fun name => Return name |};
  ET_fromstring := ET_fromstring (demo_world root);
  py_float := py_float (demo_world root);
  py_int := py_int (demo_world root);
  np_wide_faces := np_wide_faces (demo_world root);
  plt_figure := plt_figure (demo_world root);
  plt_draw := plt_draw (demo_world root);
  plt_savefig := plt_savefig (demo_world root)
|}.

(** A model whose mesh has triangles but no [vertices] element. *)
Definition no_vertices_doc : Element :=
  model_elem id
    [Elem "object" (attrs [("id", "1")])
       [Elem "mesh" ∅
          [Elem "triangles" ∅ [triangle_elem id "0" "1" "x"]]]].

(** The row of [np_vertices] that index [i] addresses. *)
Definition addressed {F} (np_vertices : list (vec3 F)) (i : Z) : option (vec3 F) :=
  np_vertices !! Z.to_nat (if (i <? 0)%Z then (i + Z.of_nat (length np_vertices))%Z else i).

(** Triangle [t] has the corners that face [f] addresses, in order. *)
Definition corners_of {F} (np_vertices : list (vec3 F)) (f : Z * Z * Z)
    (t : triangle F) : Prop :=
  let '(v1, v2, v3) := f in
  addressed np_vertices v1 = Some (p0 t) /\
  addressed np_vertices v2 = Some (p1 t) /\
  addressed np_vertices v3 = Some (p2 t).

(** [demo_world root] in which every [.stl] file holds [m]. *)
Definition stl_world (root : Element) (m : Mesh Q) : World Q := {|
  path_suffix := path_suffix (demo_world root);
  path_dirname := path_dirname (demo_world root);
  os_makedirs := os_makedirs (demo_world root);
  Mesh_from_file := fun _ => Return m;
  get_mass_properties := get_mass_properties (demo_world root);
  zipfile_ZipFile := zipfile_ZipFile (demo_world root);
  ET_fromstring := ET_fromstring (demo_world root);
  py_float := py_float (demo_world root);
  py_int := py_int (demo_world root);
  np_wide_faces := np_wide_faces (demo_world root);
  plt_figure := plt_figure (demo_world root);
  plt_draw := plt_draw (demo_world root);
  plt_savefig := plt_savefig (demo_world root)
|}.

(** Two results that agree on everything but the [volume] entry of the
    metadata, which only the first carries. *)
Definition same_but_volume {F} (v : F) (r1 r2 : JobResult F) : Prop :=
  success r1 = success r2 /\
  file_path r1 = file_path r2 /\
  output_path r1 = output_path r2 /\
  error r1 = error r2 /\
  match metadata r1, metadata r2 with
  | SomeMetadata m1, SomeMetadata m2 =>
      dimensions m1 = dimensions m2 /\ triangles m1 = triangles m2 /\
      volume m1 = Some v /\ volume m2 = None
  | _, _ => False
  end.

(* ===================================================================== *)
(** * The command lines: main() of the two scripts                        *)
(* ===================================================================== *)

(** What a script writes to stdout. *)
Inductive Printed (F : Type) : Type :=
| PrintError (msg : string)          (* {"success": false, "error": msg} *)
| PrintCritical (msg trace : string) (* the same with a "trace" entry *)
| PrintResult (r : JobResult F)      (* json.dumps(result, indent=2) *)
| PrintSummary (s : BatchSummary F)  (* json.dumps(result) of a batch *)
| PrintLine (l : Line F).            (* a line of process_batch in stream mode *)
Arguments PrintError {F} msg.
Arguments PrintCritical {F} msg trace.
Arguments PrintResult {F} r.
Arguments PrintSummary {F} s.
Arguments PrintLine {F} l.

(** How a script ends: [sys.exit(code)], or an exception nobody catches. *)
Inductive Ending : Set :=
| Exit (code : Z)
| Uncaught (e : exn).

(** What [main] asks of its surroundings.  [jobs_of_file p] stands for
    opening [p], [json.load] and [data.get('jobs', [])], [jobs_of_stdin]
    for the same on stdin, for job lists whose entries carry [input] and
    [output]. *)
Record Shell := {
  os_path_exists : string -> bool;
  jobs_of_file : string -> Exc (list Job);
  jobs_of_stdin : Exc (list Job)
}.

Definition usage_batch : string :=
  "Usage: python stl_thumbnail_batch.py <input> <output> [size] OR --batch <jobs.json> OR --batch-stdin [--stream]".
Definition usage_batch_single : string :=
  "Usage: python stl_thumbnail_batch.py <input> <output> [size]".

Section Mains.
Context {F : Type} `{PyFloat F} (w : World F) (pool : Pool F)
  (console : Console) (sh : Shell).

(** [int(sys.argv[k]) if len(sys.argv) > k else dflt], with [rest] the
    arguments from position [k] on. *)
Definition int_argument (rest : list string) (dflt : Z) : Exc Z :=
  match rest with
  | s :: _ => py_int w s
  | [] => Return dflt
  end.



(** The two batch branches of [main()] in stl_thumbnail_batch.py from
    [max_workers] on (lines 346-356 and 360-367): what [process_batch]
    wrote, then the summary unless streaming wrote it already.  Nothing
    catches an exception here. *)
Definition run_batch (stream_mode : bool) (max_workers : Exc Z)
    (jobs : Exc (list Job)) : list (Printed F) * Ending :=
  match max_workers with
  | Raise e => ([], Uncaught e)
  | Return max_workers =>
  match jobs with
  | Raise e => ([], Uncaught e)
  | Return jobs =>
  match process_batch w pool console jobs max_workers stream_mode with
  | (lines, Raise e) => (map PrintLine lines, Uncaught e)
  | (lines, Return result) =>
      let code := if summary_success result then 0%Z else 1%Z in
      if stream_mode then (map PrintLine lines, Exit code)
      else
        (* no line was written so far: this is the first [print] *)
        match print_fault console 0 with
        | None => (map PrintLine lines ++ [PrintSummary result], Exit code)
        | Some e => (map PrintLine lines, Uncaught e)
        end
  end end end.

(** Single file mode of stl_thumbnail_batch.py (lines 371-391), with
    [rest] the arguments after the input path. *)
Definition run_single (file_path : string) (rest : list string)
    : list (Printed F) * Ending :=
  match rest with
  | [] => ([PrintError usage_batch_single], Exit 1%Z)
  | output_path :: rest' =>
      match int_argument rest' 256%Z with
      | Raise e => ([], Uncaught e)
      | Return size =>
          if os_path_exists sh file_path
          then
            let result := generate_single_thumbnail w file_path output_path size in
            ([PrintResult result], Exit (if success result then 0%Z else 1%Z))
          else ([PrintError ("File not found: " +:+ file_path)], Exit 1%Z)
      end
  end.

(** [main()] of stl_thumbnail_batch.py after [--stream] was taken out of
    [sys.argv] (lines 336-391). *)
Definition main_dispatch (stream_mode : bool) (argv : list string)
    : list (Printed F) * Ending :=
  match argv with
  | [] | [_] => ([PrintError usage_batch], Exit 1%Z)
  | _ :: arg1 :: rest =>
      match String.eqb arg1 "--batch", rest with
      | true, jobs_file :: rest' =>
          run_batch stream_mode (int_argument rest' 4%Z) (jobs_of_file sh jobs_file)
      | _, _ =>
          if String.eqb arg1 "--batch-stdin"
          then run_batch stream_mode (int_argument rest 4%Z) (jobs_of_stdin sh)
          else run_single arg1 rest
      end
  end.

(** [main()] of stl_thumbnail_batch.py. *)
Definition main_stl_thumbnail_batch (argv : list string)
    : list (Printed F) * Ending :=
  let stream_mode := existsb (String.eqb "--stream") argv in
  let argv_clean := List.filter (fun a => negb (String.eqb a "--stream")) argv in
  main_dispatch stream_mode argv_clean.

End Mains.

(** The command line asks for a batch: [--batch] with a file name, or
    [--batch-stdin]. *)
Definition is_batch_invocation (argv : list string) : bool :=
  match argv with
  | _ :: arg1 :: rest =>
      (String.eqb arg1 "--batch" && negb (Nat.eqb (length rest) 0))
      || String.eqb arg1 "--batch-stdin"
  | _ => false
  end.

(** A shell for the examples: every file but [missing.stl] exists, and
    the jobs file and stdin both hold [demo_jobs]. *)
Definition demo_shell : Shell := {|
  os_path_exists := fun p => negb (String.eqb p "missing.stl");
  jobs_of_file := fun _ => Return demo_jobs;
  jobs_of_stdin := Return demo_jobs
|}.
(* ===================================================================== *)
(** * Namespaces other than the two the loader names                      *)
(* ===================================================================== *)

(** A namespace no vendor of the loader's list uses. *)
Definition NS_FOREIGN : string := "urn:example:3mf".

(* ===================================================================== *)
(** * The job runners: results and failures                               *)
(* ===================================================================== *)

Section RunnerFacts.
Context {F : Type} `{PyFloat F} (w : World F).

Lemma job_body_load_failure wv fp op size r e :
  load_and_measure w wv fp = Raise e ->
  job_body w wv fp op size r = (r, Some e).
Proof. unfold job_body. intros ->. reflexivity. Qed.

Lemma job_body_render_failure wv fp op size r m mn mx md e :
  load_and_measure w wv fp = Return (m, mn, mx, md) ->
  render w m mn mx op size = Raise e ->
  job_body w wv fp op size r = (set_metadata md r, Some e).
Proof. unfold job_body. intros -> ->. reflexivity. Qed.

Lemma job_body_success wv fp op size r m mn mx md u :
  load_and_measure w wv fp = Return (m, mn, mx, md) ->
  render w m mn mx op size = Return u ->
  job_body w wv fp op size r = (set_success true (set_metadata md r), None).
Proof. unfold job_body. intros -> ->. reflexivity. Qed.

(** A loader failure is a failure of the measurements. *)
Lemma load_and_measure_loader_failure wv fp e :
  select_loader w fp = Raise e -> load_and_measure w wv fp = Raise e.
Proof. unfold load_and_measure. intros ->. reflexivity. Qed.

(** What the measurements return describes the mesh the loader gave. *)
Lemma load_and_measure_describes wv fp m mn mx md :
  load_and_measure w wv fp = Return (m, mn, mx, md) ->
  select_loader w fp = Return m /\ min_ m = Return mn /\ max_ m = Return mx /\
  describes md m.
Proof.
  unfold load_and_measure, describes.
  destruct (select_loader w fp) as [m'|e]; simpl; [|discriminate].
  destruct (min_ m') as [mn'|e] eqn:Hmin; simpl; [|discriminate].
  destruct (max_ m') as [mx'|e] eqn:Hmax; simpl; [|discriminate].
  destruct wv; simpl.
  - destruct (get_mass_properties w m') as [v|e]; simpl; [|discriminate].
    intros [= <- <- <- <-]. simpl. rewrite Hmin, Hmax. eauto 10.
  - intros [= <- <- <- <-]. simpl. rewrite Hmin, Hmax. eauto 10.
Qed.

Lemma unsupported_select_loader fp :
  lower (path_suffix w fp) <> ".stl" ->
  lower (path_suffix w fp) <> ".3mf" ->
  select_loader w fp
    = Raise (Exception_ (unsupported_message (lower (path_suffix w fp)))).
Proof.
  intros Hstl H3mf. unfold select_loader.
  apply String.eqb_neq in Hstl. apply String.eqb_neq in H3mf.
  rewrite Hstl, H3mf. reflexivity.
Qed.

Lemma bad_zip_load_3mf fp msg :
  zipfile_ZipFile w fp = Raise (mk_exn BadZipFile msg) ->
  load_3mf_mesh w fp = Raise (Exception_ "Invalid 3MF file (not a valid ZIP)").
Proof. unfold load_3mf_mesh. intros ->. reflexivity. Qed.

(** Both runners turn a loader failure into a plain record, whose
    [metadata] entry is what each of them started with. *)
Lemma runners_on_loader_failure fp op size e :
  select_loader w fp = Raise e ->
  generate_thumbnail w fp op size = failed_result EmptyMetadata fp op (str e) /\
  generate_single_thumbnail w fp op size
    = failed_result NoMetadataKey fp op (str e).
Proof.
  intros Hload. unfold generate_thumbnail, generate_single_thumbnail.
  rewrite !(job_body_load_failure _ _ _ _ _ e)
    by (apply load_and_measure_loader_failure; exact Hload).
  split; reflexivity.
Qed.

(** C1. For every job and every behaviour of the loaders, the bounding-box
    computation and the renderer, [generate_thumbnail] and
    [generate_single_thumbnail] return a result record carrying the job's
    paths; when a collaborator raises [e] the record has [success = false]
    and [error = str(e)], and when none raises it has [success = true]. *)
Theorem runner_always_returns_result fp op size :
  runner_outcome fp op (pipeline w true fp op size)
    (generate_thumbnail w fp op size) /\
  runner_outcome fp op (pipeline w false fp op size)
    (generate_single_thumbnail w fp op size).
Proof.
  unfold runner_outcome, pipeline, generate_thumbnail, generate_single_thumbnail,
    job_body.
  split.
  - destruct (load_and_measure w true fp) as [[[[m mn] mx] md]|e]; simpl; auto.
    destruct (render w m mn mx op size) as [u|e]; simpl; auto.
  - destruct (load_and_measure w false fp) as [[[[m mn] mx] md]|e]; simpl; auto.
    destruct (render w m mn mx op size) as [u|e]; simpl; auto.
Qed.

(** C7. A [.3mf] input that [zipfile] rejects as no zip archive gives, in
    both runners, a result with [success = false] and the container-level
    error [Invalid 3MF file (not a valid ZIP)]; nothing is raised. *)
Theorem invalid_archive_is_reported fp op size msg :
  lower (path_suffix w fp) = ".3mf" ->
  zipfile_ZipFile w fp = Raise (mk_exn BadZipFile msg) ->
  generate_thumbnail w fp op size
    = failed_result EmptyMetadata fp op "Invalid 3MF file (not a valid ZIP)" /\
  generate_single_thumbnail w fp op size
    = failed_result NoMetadataKey fp op "Invalid 3MF file (not a valid ZIP)".
Proof.
  intros Hext Hzip.
  apply (runners_on_loader_failure fp op size
           (Exception_ "Invalid 3MF file (not a valid ZIP)")).
  unfold select_loader. rewrite Hext. simpl.
  exact (bad_zip_load_3mf fp msg Hzip).
Qed.

(** C8. When the lowercased extension is neither [.stl] nor [.3mf] no
    loader runs: the selection raises the unsupported-type error naming the
    extension, and both runners return it in a failed result.  An [.stl]
    extension selects numpy-stl's loader and [.3mf] selects
    [load_3mf_mesh]. *)
Theorem unsupported_extension_fails fp op size :
  lower (path_suffix w fp) <> ".stl" ->
  lower (path_suffix w fp) <> ".3mf" ->
  let msg := unsupported_message (lower (path_suffix w fp)) in
  select_loader w fp = Raise (Exception_ msg) /\
  generate_thumbnail w fp op size = failed_result EmptyMetadata fp op msg /\
  generate_single_thumbnail w fp op size = failed_result NoMetadataKey fp op msg /\
  (forall p, lower (path_suffix w p) = ".stl" ->
             select_loader w p = Mesh_from_file w p) /\
  (forall p, lower (path_suffix w p) = ".3mf" ->
             select_loader w p = load_3mf_mesh w p).
Proof.
  intros Hstl H3mf msg.
  pose proof (unsupported_select_loader fp Hstl H3mf) as Hsel.
  split; [exact Hsel|].
  destruct (runners_on_loader_failure fp op size _ Hsel) as [H1 H2].
  split; [exact H1|]. split; [exact H2|].
  split; intros p Hp; unfold select_loader; rewrite Hp; reflexivity.
Qed.

Lemma for_append_length {A B} (f : A -> Exc B) l ys :
  for_append f l = Return ys -> length ys = length l.
Proof.
  revert ys. induction l as [|x l IH]; intros ys; cbn [for_append].
  - intros [= <-]. reflexivity.
  - destruct (f x) as [y|e]; cbn [mbind Exc_bind]; [|discriminate].
    destruct (for_append f l) as [ys'|e]; cbn [mbind Exc_bind]; [|discriminate].
    intros [= <-]. cbn [length]. rewrite (IH ys' eq_refl). reflexivity.
Qed.

Lemma load_model_counts root : counts_parsed_triangles w root.
Proof.
  unfold counts_parsed_triangles, load_model.
  destruct (locate_mesh root) as [mesh_node|e]; cbn [mbind Exc_bind]; [|exact I].
  unfold parse_mesh.
  destruct (parse_vertices w (possible_namespaces root) mesh_node) as [[|v vs]|e];
    cbn [mbind Exc_bind]; try exact I.
  unfold parse_faces.
  destruct (for_append (parse_triangle w)
              (triangle_elements (possible_namespaces root) mesh_node))
    as [[|f fs]|e] eqn:Hfaces; cbn [mbind Exc_bind]; try exact I.
  unfold build_mesh.
  destruct (forallb face_fits (f :: fs)); [|exact I].
  destruct (for_append (materialize (v :: vs)) (f :: fs)) as [m|e] eqn:Hm;
    [|exact I].
  exists mesh_node. split; [reflexivity|].
  rewrite (for_append_length _ _ _ Hm). exact (for_append_length _ _ _ Hfaces).
Qed.

Lemma select_loader_own_errors fp : own_errors_nonempty w fp.
Proof.
  unfold own_errors_nonempty, select_loader.
  destruct (String.eqb_spec (lower (path_suffix w fp)) ".stl") as [Hstl|_];
    [left; exact Hstl|right].
  destruct (String.eqb (lower (path_suffix w fp)) ".3mf").
  - unfold load_3mf_mesh, try_except.
    match goal with |- match match ?c with _ => _ end with _ => _ end =>
      destruct c as [m|e] end; [exact I|].
    unfold wrap_3mf_error. destruct (is_BadZipFile e); discriminate.
  - discriminate.
Qed.

Lemma runner_keeps_discipline wv started_with fp op size r :
  (let '(result, stopped) :=
     job_body w wv fp op size (initial_result started_with fp op) in
   match stopped with
   | None => r = result
   | Some e => success r = false /\ error r = Some (str e) /\
               metadata r = metadata result
   end) ->
  kept_discipline w wv started_with fp op size r.
Proof.
  unfold kept_discipline, job_body, pipeline.
  destruct (load_and_measure w wv fp) as [[[[m mn] mx] md]|e] eqn:Hlm;
    cbn [mbind Exc_bind].
  - apply load_and_measure_describes in Hlm as (Hsel & _ & _ & Hd).
    destruct (render w m mn mx op size) as [u|e]; cbn [mbind Exc_bind].
    + intros ->. cbn. split; [reflexivity|]. exists md, m.
      repeat (split; [solve [assumption|reflexivity]|]); assumption.
    + intros (Hs & He & Hm). rewrite Hs. exists e. cbn in Hm.
      repeat (split; [solve [assumption|reflexivity]|]); assumption.
  - intros (Hs & He & Hm). rewrite Hs. exists e. cbn in Hm.
    repeat (split; [solve [assumption|reflexivity]|]); assumption.
Qed.

(** C9, as the code keeps it.  A result with [success = true] has no error
    and the metadata of the mesh the loader returned: its extents and its
    triangle count, which for a 3MF model is the number of triangle
    elements parsed.  A result with [success = false] has the text of the
    exception that stopped the job as its error; when loading or measuring
    failed its [metadata] is what the runner started with (an empty
    dictionary in stl_thumbnail.py, no entry in stl_thumbnail_batch.py),
    and when the failure came later, from the figure, the drawing, the
    directory or the saving, it carries the metadata of the loaded mesh
    beside the error.  The error texts made by this code are not empty. *)
Theorem result_field_discipline fp op size :
  kept_discipline w true EmptyMetadata fp op size
    (generate_thumbnail w fp op size) /\
  kept_discipline w false NoMetadataKey fp op size
    (generate_single_thumbnail w fp op size) /\
  own_errors_nonempty w fp /\
  (forall root, counts_parsed_triangles w root).
Proof.
  split; [|split; [|split; [apply select_loader_own_errors|apply load_model_counts]]].
  - apply runner_keeps_discipline. unfold generate_thumbnail.
    destruct (job_body w true fp op size (initial_result EmptyMetadata fp op))
      as [result [e|]]; [|reflexivity].
    repeat split.
  - apply runner_keeps_discipline. unfold generate_single_thumbnail.
    destruct (job_body w false fp op size (initial_result NoMetadataKey fp op))
      as [result [e|]] eqn:Hbody; [|reflexivity].
    repeat split.
    unfold job_body in Hbody.
    destruct (load_and_measure w false fp) as [[[[m mn] mx] md]|e'].
    + destruct (render w m mn mx op size); injection Hbody as <- Hs;
        [discriminate Hs|reflexivity].
    + injection Hbody as <- _. reflexivity.
Qed.

End RunnerFacts.

(** C7 at a renamed text file. *)
Lemma invalid_archive_witness :
  generate_thumbnail (demo_world (one_triangle_doc "0" "1" "2"))
    "renamed.3mf" "out/renamed.png" 256
    = failed_result EmptyMetadata "renamed.3mf" "out/renamed.png"
        "Invalid 3MF file (not a valid ZIP)" /\
  generate_single_thumbnail (demo_world (one_triangle_doc "0" "1" "2"))
    "renamed.3mf" "out/renamed.png" 256
    = failed_result NoMetadataKey "renamed.3mf" "out/renamed.png"
        "Invalid 3MF file (not a valid ZIP)".
Proof.
  apply (invalid_archive_is_reported (demo_world (one_triangle_doc "0" "1" "2"))
           "renamed.3mf" "out/renamed.png" 256 "File is not a zip file");
    reflexivity.
Defined.

(** C8 at a Wavefront file. *)
Lemma unsupported_extension_witness :
  generate_thumbnail (demo_world (one_triangle_doc "0" "1" "2"))
    "models/cube.OBJ" "out/cube.png" 256
    = failed_result EmptyMetadata "models/cube.OBJ" "out/cube.png"
        "Unsupported file type: .obj. Only .stl and .3mf are supported.".
Proof.
  refine (proj1 (proj2 (unsupported_extension_fails
           (demo_world (one_triangle_doc "0" "1" "2"))
           "models/cube.OBJ" "out/cube.png" 256 _ _))); vm_compute; discriminate.
Defined.

(** C9 as worded fails on an output path without a directory part:
    the mesh is loaded and measured, then [os.makedirs('')] raises, and the
    result carries both metadata and an error. *)
Lemma field_discipline_counterexample :
  ~ field_discipline
      (generate_thumbnail (demo_world (one_triangle_doc "0" "1" "2"))
         "cube.stl" "cube.png" 128).
Proof.
  intros (_ & _ & [[_ Herr] | [Hmd _]]).
  - vm_compute in Herr. discriminate Herr.
  - apply Hmd. vm_compute. eexists. reflexivity.
Qed.

(** The record of that job: failed, with the error of [os.makedirs] and
    with the metadata of the triangle. *)
Example late_failure_keeps_metadata :
  let r := generate_thumbnail (demo_world (one_triangle_doc "0" "1" "2"))
             "cube.stl" "cube.png" 128 in
  success r = false /\ error r <> None /\
  exists md, metadata r = SomeMetadata md /\ triangles md = 1%nat.
Proof.
  vm_compute. split; [reflexivity|]. split; [discriminate|].
  eexists. split; reflexivity.
Qed.

(* ===================================================================== *)
(** * Namespace probing: the first candidate that finds something         *)
(* ===================================================================== *)





(* ===================================================================== *)
(** * Object selection                                                    *)
(* ===================================================================== *)

Lemma is_model_test obj :
  String.eqb (get_default obj "type" "model") "model" = true <->
  type_absent_or_model obj.
Proof.
  unfold get_default, type_absent_or_model, get.
  destruct (attrib obj !! "type") as [v|]; rewrite String.eqb_eq.
  - split; [intros ->; right; reflexivity|].
    intros [Habs|[= ->]]; [discriminate|reflexivity].
  - split; [left|]; reflexivity.
Qed.

Lemma not_preferred_cases nss obj :
  ~ preferred nss obj <->
  String.eqb (get_default obj "type" "model") "model" = false \/
  has_mesh nss obj = false.
Proof.
  unfold preferred. rewrite <- is_model_test.
  destruct (String.eqb (get_default obj "type" "model") "model");
    destruct (has_mesh nss obj); intuition congruence.
Qed.

Lemma first_model_object_spec nss objects :
  match first_model_object nss objects with
  | Some obj =>
      exists before, first_after objects before obj /\ preferred nss obj /\
                     Forall (fun x => ~ preferred nss x) before
  | None => Forall (fun x => ~ preferred nss x) objects
  end.
Proof.
  induction objects as [|o objects IH]; cbn [first_model_object].
  - constructor.
  - destruct (String.eqb (get_default o "type" "model") "model") eqn:Ht.
    + destruct (find_element o "mesh" nss) as [m|] eqn:Hm.
      * exists []. split; [exists objects; reflexivity|].
        split; [|constructor].
        split; [apply is_model_test; exact Ht|].
        unfold has_mesh. rewrite Hm. reflexivity.
      * assert (Hno : ~ preferred nss o).
        { apply not_preferred_cases. right. unfold has_mesh. rewrite Hm. reflexivity. }
        destruct (first_model_object nss objects) as [obj|].
        -- destruct IH as (before & [rest ->] & Hp & Hb).
           exists (o :: before). split; [exists rest; reflexivity|].
           split; [exact Hp|constructor; assumption].
        -- constructor; assumption.
    + assert (Hno : ~ preferred nss o).
      { apply not_preferred_cases. left. exact Ht. }
      destruct (first_model_object nss objects) as [obj|].
      * destruct IH as (before & [rest ->] & Hp & Hb).
        exists (o :: before). split; [exists rest; reflexivity|].
        split; [exact Hp|constructor; assumption].
      * constructor; assumption.
Qed.

Lemma first_mesh_object_spec nss objects :
  match first_mesh_object nss objects with
  | Some obj =>
      exists before, first_after objects before obj /\ has_mesh nss obj = true /\
                     Forall (fun x => has_mesh nss x = false) before
  | None => Forall (fun x => has_mesh nss x = false) objects
  end.
Proof.
  induction objects as [|o objects IH]; cbn [first_mesh_object].
  - constructor.
  - destruct (find_element o "mesh" nss) as [m|] eqn:Hm.
    + exists []. split; [exists objects; reflexivity|].
      split; [|constructor]. unfold has_mesh. rewrite Hm. reflexivity.
    + assert (Hno : has_mesh nss o = false).
      { unfold has_mesh. rewrite Hm. reflexivity. }
      destruct (first_mesh_object nss objects) as [obj|].
      * destruct IH as (before & [rest ->] & Hp & Hb).
        exists (o :: before). split; [exists rest; reflexivity|].
        split; [exact Hp|constructor; assumption].
      * constructor; assumption.
Qed.

Lemma select_object_policy nss objects :
  match select_object nss objects with
  | Some obj => selected_by_policy nss objects obj
  | None => Forall (fun x => has_mesh nss x = false) objects
  end.
Proof.
  unfold select_object, selected_by_policy.
  pose proof (first_model_object_spec nss objects) as Hmodel.
  destruct (first_model_object nss objects) as [obj|].
  - destruct Hmodel as (before & Hpos & [Hty Hmesh] & Hb).
    exists before. auto.
  - pose proof (first_mesh_object_spec nss objects) as Hmesh.
    destruct (first_mesh_object nss objects) as [obj|]; [|exact Hmesh].
    destruct Hmesh as (before & Hpos & Hm & Hb).
    exists before. auto.
Qed.

Lemma has_mesh_true nss obj :
  has_mesh nss obj = true -> exists m, find_element obj "mesh" nss = Some m.
Proof.
  unfold has_mesh. destruct (find_element obj "mesh" nss) as [m|]; [eauto|discriminate].
Qed.

Lemma support_is_not_model obj :
  get obj "type" = Some "support" ->
  String.eqb (get_default obj "type" "model") "model" = false.
Proof. unfold get, get_default. intros ->. reflexivity. Qed.

Lemma model_is_model obj :
  get obj "type" = Some "model" ->
  String.eqb (get_default obj "type" "model") "model" = true.
Proof. unfold get, get_default. intros ->. reflexivity. Qed.

(** The two scenarios of the tie-break. *)
Lemma support_then_model nss s m :
  has_mesh nss s = true -> get s "type" = Some "support" ->
  has_mesh nss m = true -> get m "type" = Some "model" ->
  select_object nss [s; m] = Some m /\ select_object nss [s] = Some s.
Proof.
  intros Hs Hts Hm Htm.
  destruct (has_mesh_true _ _ Hs) as [ms Hms].
  destruct (has_mesh_true _ _ Hm) as [mm Hmm].
  unfold select_object. cbn [first_model_object first_mesh_object].
  rewrite (support_is_not_model s Hts), (model_is_model m Htm), Hms, Hmm.
  split; reflexivity.
Qed.

Section LoaderFacts.
Context {F : Type} `{PyFloat F} (w : World F).

(** With the archive opened and parsed, the loader is [load_model] inside
    the two [except] clauses. *)
Lemma load_3mf_mesh_opened fp root :
  opens_to w fp root ->
  load_3mf_mesh w fp =
    match load_model w root with
    | Return m => Return m
    | Raise e => Raise (wrap_3mf_error e)
    end.
Proof.
  intros (z & mf & rest & content & Hz & Hmf & Hread & Hparse).
  unfold load_3mf_mesh. rewrite Hz. cbn [mbind Exc_bind].
  rewrite Hmf, Hread. cbn [mbind Exc_bind]. rewrite Hparse. cbn [mbind Exc_bind].
  unfold try_except. reflexivity.
Qed.

(** C3. With [objects] the object elements found under [resources]: the
    loader takes the first object whose type is absent or ["model"] and
    which has a mesh child; when there is none, the first object with a
    mesh child; and it parses the mesh of that object.  When no object has
    a mesh it fails with [No object with mesh found in 3MF file].  A
    mesh-bearing [support] object followed by a mesh-bearing [model]
    object yields the second; a lone mesh-bearing [support] object is
    taken. *)
Theorem object_selection_policy root resources objects :
  let nss := possible_namespaces root in
  find_element root "resources" nss = Some resources ->
  find_all_elements resources "object" nss = objects ->
  objects <> [] ->
  match select_object nss objects with
  | Some obj =>
      selected_by_policy nss objects obj /\
      exists mesh_node,
        find_element obj "mesh" nss = Some mesh_node /\
        load_model w root = parse_mesh w nss mesh_node
  | None =>
      Forall (fun x => has_mesh nss x = false) objects /\
      load_model w root
        = Raise (Exception_ "No object with mesh found in 3MF file") /\
      forall fp, opens_to w fp root ->
        load_3mf_mesh w fp
          = Raise (Exception_
              "Failed to parse 3MF file: No object with mesh found in 3MF file")
  end /\
  (forall s m,
     has_mesh nss s = true -> get s "type" = Some "support" ->
     has_mesh nss m = true -> get m "type" = Some "model" ->
     select_object nss [s; m] = Some m /\ select_object nss [s] = Some s).
Proof.
  intros nss Hres Hobjs Hne.
  split; [|intros s m; apply support_then_model].
  pose proof (select_object_policy nss objects) as Hpol.
  assert (Hloc : locate_mesh root =
            match select_object nss objects with
            | None => Raise (Exception_ "No object with mesh found in 3MF file")
            | Some object_node =>
                match find_element object_node "mesh" nss with
                | None => Raise (Exception_ "No mesh found in 3MF object")
                | Some mesh_node => Return mesh_node
                end
            end).
  { unfold locate_mesh. fold nss. rewrite Hres, Hobjs.
    destruct objects; [congruence|reflexivity]. }
  destruct (select_object nss objects) as [obj|].
  - split; [exact Hpol|].
    destruct Hpol as (before & _ & Hm & _).
    destruct (has_mesh_true _ _ Hm) as [mesh_node Hmesh].
    exists mesh_node. split; [exact Hmesh|].
    unfold load_model. rewrite Hloc, Hmesh. reflexivity.
  - split; [exact Hpol|].
    assert (Hload : load_model w root
              = Raise (Exception_ "No object with mesh found in 3MF file")).
    { unfold load_model. rewrite Hloc. reflexivity. }
    split; [exact Hload|].
    intros fp Hopen. rewrite (load_3mf_mesh_opened fp root Hopen), Hload.
    reflexivity.
Qed.

End LoaderFacts.

(** C3 at a document with a [support] object before a [model] object:
    the second one is taken. *)
Lemma object_selection_witness :
  select_object
      (possible_namespaces (model_elem id [support_object; model_object]))
      [support_object; model_object]
    = Some model_object /\
  selected_by_policy
      (possible_namespaces (model_elem id [support_object; model_object]))
      [support_object; model_object] model_object.
Proof.
  pose (root := model_elem id [support_object; model_object]).
  pose proof (object_selection_policy (demo_world root) root
                (Elem "resources" ∅ [support_object; model_object])
                [support_object; model_object]
                eq_refl eq_refl ltac:(discriminate)) as [Hsel _].
  split; [reflexivity|].
  exact (proj1 Hsel).
Defined.
(* ===================================================================== *)
(** * Namespace tolerance                                                 *)
(* ===================================================================== *)

(** ** Strings *)

Lemma eqb_append_same s a b :
  String.eqb (s +:+ a) (s +:+ b) = String.eqb a b.
Proof.
  induction s as [|c s IH]; simpl; [reflexivity|].
  rewrite Ascii.eqb_refl. exact IH.
Qed.

Lemma eqb_length s p : String.eqb s p = true -> String.length s = String.length p.
Proof. intros Heq. apply String.eqb_eq in Heq. rewrite Heq. reflexivity. Qed.

Lemma split_head_lacks c s : lacks c (split_head c s) = true.
Proof.
  induction s as [|a s IH]; cbn [split_head]; [reflexivity|].
  destruct (Ascii.eqb a c) eqn:Ha; [reflexivity|].
  cbn [lacks]. rewrite Ha, IH. reflexivity.
Qed.

Lemma split_head_append c s t :
  lacks c s = true -> split_head c (s +:+ String c t) = s.
Proof.
  induction s as [|a s IH].
  - intros _. change (EmptyString +:+ String c t) with (String c t).
    cbn [split_head]. rewrite Ascii.eqb_refl. reflexivity.
  - cbn [lacks]. intros Hs. apply andb_prop in Hs as [Ha Hs].
    apply negb_true_iff in Ha.
    change (String a s +:+ String c t) with (String a (s +:+ String c t)).
    cbn [split_head]. rewrite Ha, (IH Hs). reflexivity.
Qed.

Lemma lstrip_lacks c s : lacks c s = true -> lstrip c s = s.
Proof.
  destruct s as [|a s]; cbn [lacks lstrip]; [reflexivity|].
  intros Hs. apply andb_prop in Hs as [Ha _].
  apply negb_true_iff in Ha. rewrite Ha. reflexivity.
Qed.

Lemma lacks_lstrip d c s : lacks d s = true -> lacks d (lstrip c s) = true.
Proof.
  induction s as [|a s IH]; cbn [lstrip]; [reflexivity|].
  intros Hs. destruct (Ascii.eqb a c); [|exact Hs].
  cbn [lacks] in Hs. apply andb_prop in Hs as [_ Hs]. exact (IH Hs).
Qed.

Lemma lacks_forallb c s :
  lacks c s = forallb (fun a => negb (Ascii.eqb a c)) (list_ascii_of_string s).
Proof.
  induction s as [|a s IH]; cbn [lacks list_ascii_of_string forallb];
    [reflexivity|].
  rewrite IH. reflexivity.
Qed.

Lemma lacks_string_rev c s : lacks c s = true -> lacks c (string_rev s) = true.
Proof.
  rewrite !lacks_forallb. unfold string_rev.
  rewrite list_ascii_of_string_of_list_ascii, !forallb_forall.
  intros Hs a Ha. apply Hs, in_rev, Ha.
Qed.

Lemma string_rev_involutive s : string_rev (string_rev s) = s.
Proof.
  unfold string_rev.
  rewrite list_ascii_of_string_of_list_ascii, rev_involutive.
  apply string_of_list_ascii_of_string.
Qed.

Lemma strip_lacks c s : lacks c s = true -> strip c s = s.
Proof.
  intros Hs. unfold strip.
  rewrite (lstrip_lacks c s Hs).
  rewrite (lstrip_lacks c (string_rev s) (lacks_string_rev c s Hs)).
  apply string_rev_involutive.
Qed.

Lemma lacks_strip d c s : lacks d s = true -> lacks d (strip c s) = true.
Proof.
  intros Hs. unfold strip.
  apply lacks_string_rev, lacks_lstrip, lacks_string_rev, lacks_lstrip, Hs.
Qed.

Lemma lacks_first c a s : lacks c (String a s) = true -> Ascii.eqb a c = false.
Proof.
  cbn [lacks]. intros Hs. apply andb_prop in Hs as [Ha _].
  apply negb_true_iff, Ha.
Qed.

Lemma lacks_startswith s :
  lacks "{" s = true -> startswith s "{" = false.
Proof.
  destruct s as [|a s]; [reflexivity|]. intros Hs.
  apply lacks_first in Hs. unfold startswith. cbn [String.prefix].
  destruct (ascii_dec "{" a) as [<-|_]; [discriminate Hs|reflexivity].
Qed.

Lemma clean_uri_parts ns :
  clean_uri ns = true ->
  ns <> EmptyString /\ lacks "{" ns = true /\ lacks "}" ns = true.
Proof.
  unfold clean_uri. intros Hc.
  apply andb_prop in Hc as [Hc Hclose]. apply andb_prop in Hc as [Hne Hopen].
  apply negb_true_iff, String.eqb_neq in Hne. auto.
Qed.

Lemma clean_microsoft : clean_uri NS_MICROSOFT = true.
Proof. reflexivity. Qed.

Lemma clean_openxml : clean_uri NS_OPENXML = true.
Proof. reflexivity. Qed.

Lemma prefix_nil s : String.prefix EmptyString s = true.
Proof. destruct s; reflexivity. Qed.

Lemma startswith_brace s : startswith (String "{" s) "{" = true.
Proof. destruct s; reflexivity. Qed.

(** ** Qualified names *)

Lemma qname_cons ns t : qname ns t = String "{" (ns +:+ String "}" t).
Proof. reflexivity. Qed.

Lemma qname_eqb ns a b : String.eqb (qname ns a) (qname ns b) = String.eqb a b.
Proof.
  unfold qname.
  change (String.eqb ("{" +:+ ns +:+ "}" +:+ a) ("{" +:+ ns +:+ "}" +:+ b))
    with (String.eqb (("{" +:+ ns) +:+ "}" +:+ a) (("{" +:+ ns) +:+ "}" +:+ b)).
  rewrite eqb_append_same. apply (eqb_append_same "}").
Qed.

Lemma qname_eqb_bare ns a b :
  startswith b "{" = false -> String.eqb (qname ns a) b = false.
Proof.
  intros Hb. apply String.eqb_neq. intros Heq.
  unfold qname in Heq. cbn [String.append] in Heq. subst b.
  unfold startswith in Hb. simpl in Hb.
  destruct (ns +:+ "}" +:+ a); discriminate.
Qed.

Lemma bare_eqb_qname ns a b :
  startswith a "{" = false -> String.eqb a (qname ns b) = false.
Proof. intros Ha. rewrite String.eqb_sym. apply qname_eqb_bare. exact Ha. Qed.

(** Qualified names in different namespaces differ. *)
Lemma qname_injective n1 n2 a b :
  lacks "}" n1 = true -> lacks "}" n2 = true ->
  qname n1 a = qname n2 b -> n1 = n2.
Proof.
  intros H1 H2 Heq. rewrite !qname_cons in Heq.
  injection Heq as Heq.
  rewrite <- (split_head_append "}" n1 a H1), <- (split_head_append "}" n2 b H2).
  rewrite Heq. reflexivity.
Qed.

Lemma qname_eqb_other n1 n2 a b :
  lacks "}" n1 = true -> lacks "}" n2 = true -> n1 <> n2 ->
  String.eqb (qname n1 a) (qname n2 b) = false.
Proof.
  intros H1 H2 Hne. apply String.eqb_neq. intros Heq.
  exact (Hne (qname_injective n1 n2 a b H1 H2 Heq)).
Qed.

Lemma probe_nonempty ns t : ns <> EmptyString -> probe (Some ns) t = qname ns t.
Proof. intros Hne. unfold probe, truthy. destruct ns; [contradiction|reflexivity]. Qed.

Lemma tag_qualify ns e : tag (qualify ns e) = qname ns (tag e).
Proof. destruct e; reflexivity. Qed.

Lemma attrib_qualify ns e : attrib (qualify ns e) = attrib e.
Proof. destruct e; reflexivity. Qed.

Lemma children_qualify ns e :
  children (qualify ns e) = map (qualify ns) (children e).
Proof. destruct e; reflexivity. Qed.

(** The namespace read off a qualified root tag is the one it was
    qualified with. *)
Lemma ns_uri_qualify ns root :
  clean_uri ns = true -> ns_uri (qualify ns root) = Some ns.
Proof.
  intros Hc. apply clean_uri_parts in Hc as (_ & Hopen & Hclose).
  unfold ns_uri. rewrite tag_qualify, qname_cons.
  rewrite startswith_brace. f_equal.
  cbn [split_head].
  change (Ascii.eqb "{" "}") with false. cbv iota.
  rewrite (split_head_append "}" ns (tag root) Hclose).
  unfold strip. cbn [lstrip]. rewrite Ascii.eqb_refl.
  change (string_rev (lstrip "{" (string_rev (lstrip "{" ns)))) with (strip "{" ns).
  apply strip_lacks, Hopen.
Qed.

(** What [ns_uri] returns holds no closing brace. *)
Lemma ns_uri_lacks root n : ns_uri root = Some n -> lacks "}" n = true.
Proof.
  unfold ns_uri. destruct (startswith (tag root) "{"); [|discriminate].
  intros [= <-]. apply lacks_strip, split_head_lacks.
Qed.

(** ** The tag test *)

(** A bare path selects the children that carry it as their tag. *)
Lemma tag_matches_bare t x :
  startswith t "{" = false -> tag_matches t x = String.eqb x t.
Proof.
  intros Ht. unfold tag_matches.
  assert (H3 : startswith t "{*}" = false).
  { destruct t as [|a t]; [reflexivity|]. unfold startswith in *.
    cbn [String.prefix] in *. destruct (ascii_dec "{" a); [|reflexivity].
    rewrite prefix_nil in Ht. discriminate Ht. }
  assert (H2 : startswith t "{}" = false).
  { destruct t as [|a t]; [reflexivity|]. unfold startswith in *.
    cbn [String.prefix] in *. destruct (ascii_dec "{" a); [|reflexivity].
    rewrite prefix_nil in Ht. discriminate Ht. }
  rewrite H3, H2. reflexivity.
Qed.

(** So does a path qualified with a namespace other than [*]. *)
Lemma tag_matches_exact n t x :
  n <> EmptyString -> n <> "*" -> lacks "}" n = true ->
  tag_matches (qname n t) x = String.eqb x (qname n t).
Proof.
  intros Hne Hstar Hl. unfold tag_matches.
  assert (H3 : startswith (qname n t) "{*}" = false).
  { rewrite qname_cons. unfold startswith. cbn [String.prefix].
    destruct (ascii_dec "{" "{") as [_|Hx]; [|contradiction].
    destruct n as [|a n]; [contradiction|].
    change (String a n +:+ String "}" t) with (String a (n +:+ String "}" t)).
    cbn [String.prefix]. destruct (ascii_dec "*" a) as [<-|_]; [|reflexivity].
    destruct n as [|b n]; [contradiction|].
    change (String b n +:+ String "}" t) with (String b (n +:+ String "}" t)).
    cbn [String.prefix]. destruct (ascii_dec "}" b) as [<-|_]; [|reflexivity].
    cbn [lacks] in Hl. rewrite Ascii.eqb_refl in Hl.
    rewrite andb_false_r in Hl. discriminate Hl. }
  assert (H2 : startswith (qname n t) "{}" = false).
  { rewrite qname_cons. unfold startswith. cbn [String.prefix].
    destruct (ascii_dec "{" "{") as [_|Hx]; [|contradiction].
    destruct n as [|a n]; [contradiction|].
    change (String a n +:+ String "}" t) with (String a (n +:+ String "}" t)).
    cbn [String.prefix]. destruct (ascii_dec "}" a) as [<-|_]; [|reflexivity].
    apply lacks_first in Hl. rewrite Ascii.eqb_refl in Hl. discriminate Hl. }
  rewrite H3, H2. reflexivity.
Qed.

(** A path in the namespace [*] selects by local name. *)
Lemma tag_matches_wildcard t x :
  tag_matches (qname "*" t) x =
  String.eqb x t || String.eqb (last_chars (S (String.length t)) x) (String "}" t).
Proof.
  unfold tag_matches.
  assert (H3 : startswith (qname "*" t) "{*}" = true).
  { change (qname "*" t) with (String "{" (String "*" (String "}" t))).
    unfold startswith. cbn [String.prefix].
    destruct (ascii_dec "{" "{") as [_|Hx]; [|contradiction].
    destruct (ascii_dec "*" "*") as [_|Hx]; [|contradiction].
    destruct (ascii_dec "}" "}") as [_|Hx]; [|contradiction].
    apply prefix_nil. }
  rewrite H3. reflexivity.
Qed.

Lemma ends_with_length s p :
  ends_with s p = true -> (String.length p <= String.length s)%nat.
Proof.
  induction s as [|a s IH]; cbn [ends_with].
  - rewrite orb_false_r. intros Heq. apply eqb_length in Heq. lia.
  - intros Hor. apply orb_prop in Hor as [Heq|Hrec].
    + apply eqb_length in Heq. lia.
    + specialize (IH Hrec). cbn [String.length]. lia.
Qed.

(** Comparing the last characters of [s] with [p] tells whether [s] ends
    with [p]. *)
Lemma last_chars_ends_with s p :
  String.eqb (last_chars (String.length p) s) p = ends_with s p.
Proof.
  induction s as [|a s IH]; cbn [last_chars ends_with].
  - rewrite orb_false_r. reflexivity.
  - destruct (Nat.leb_spec (String.length p) (String.length s)) as [Hle|Hlt].
    + rewrite IH.
      destruct (String.eqb (String a s) p) eqn:Heq; [|reflexivity].
      apply eqb_length in Heq. cbn [String.length] in Heq. lia.
    + destruct (ends_with s p) eqn:Hrec; [|rewrite orb_false_r; reflexivity].
      apply ends_with_length in Hrec. lia.
Qed.

Lemma ends_with_lacks a c t :
  lacks a c = true -> ends_with c (String a t) = false.
Proof.
  induction c as [|b c IH]; cbn [ends_with]; [reflexivity|].
  intros Hc. pose proof (lacks_first a b c Hc) as Hb.
  cbn [lacks] in Hc. apply andb_prop in Hc as [_ Hc].
  rewrite (IH Hc), orb_false_r. cbn [String.eqb]. rewrite Hb. reflexivity.
Qed.

Lemma ends_with_after a pre c t :
  lacks a pre = true -> lacks a c = true ->
  ends_with (pre +:+ String a c) (String a t) = String.eqb c t.
Proof.
  intros Hpre Hc. induction pre as [|b pre IH].
  - change (EmptyString +:+ String a c) with (String a c).
    cbn [ends_with]. rewrite (ends_with_lacks a c t Hc), orb_false_r.
    cbn [String.eqb]. rewrite Ascii.eqb_refl. reflexivity.
  - change (String b pre +:+ String a c) with (String b (pre +:+ String a c)).
    cbn [ends_with]. pose proof (lacks_first a b pre Hpre) as Hb.
    cbn [lacks] in Hpre. apply andb_prop in Hpre as [_ Hpre].
    rewrite (IH Hpre). cbn [String.eqb]. rewrite Hb. reflexivity.
Qed.

(** In the copy of a document qualified with [ns], a path qualified with
    [ns] selects the copies of the children the bare path selects. *)
Lemma tag_matches_qualified ns t c :
  clean_uri ns = true -> startswith t "{" = false -> lacks "}" c = true ->
  tag_matches (qname ns t) (qname ns c) = String.eqb c t.
Proof.
  intros Hns Ht Hc. apply clean_uri_parts in Hns as (Hne & _ & Hclose).
  destruct (string_dec ns "*") as [->|Hstar].
  - rewrite tag_matches_wildcard, (qname_eqb_bare "*" c t Ht).
    cbn [orb].
    change (S (String.length t)) with (String.length (String "}" t)).
    rewrite last_chars_ends_with.
    change (qname "*" c) with ("{*" +:+ String "}" c).
    apply ends_with_after; [reflexivity|exact Hc].
  - rewrite (tag_matches_exact ns t _ Hne Hstar Hclose). apply qname_eqb.
Qed.

(** ** Documents without namespaces *)

Lemma plain_parts e :
  plain e = true ->
  lacks "{" (tag e) = true /\ lacks "}" (tag e) = true /\
  forallb plain (children e) = true.
Proof.
  destruct e as [t a cs]. cbn [plain tag children].
  intros Hp. apply andb_prop in Hp as [Hp Hcs]. apply andb_prop in Hp as [Ho Hc].
  auto.
Qed.

Lemma plain_tag e : plain e = true -> startswith (tag e) "{" = false.
Proof. intros Hp. apply lacks_startswith, (plain_parts e Hp). Qed.

Lemma plain_children e c : plain e = true -> In c (children e) -> plain c = true.
Proof.
  intros Hp Hin. destruct (plain_parts e Hp) as (_ & _ & Hcs).
  rewrite forallb_forall in Hcs. apply Hcs. exact Hin.
Qed.

Lemma find_map {A B} (f : B -> bool) (g : A -> B) l :
  List.find f (map g l) = option_map g (List.find (fun x => f (g x)) l).
Proof.
  induction l as [|x l IH]; cbn [map List.find]; [reflexivity|].
  destruct (f (g x)); [reflexivity|exact IH].
Qed.

Lemma find_ext_in {A} (f g : A -> bool) l :
  (forall x, In x l -> f x = g x) -> List.find f l = List.find g l.
Proof.
  induction l as [|x l IH]; intros Hfg; cbn [List.find]; [reflexivity|].
  rewrite (Hfg x (or_introl eq_refl)).
  destruct (g x); [reflexivity|]. apply IH. intros y Hy. apply Hfg. right. exact Hy.
Qed.

Lemma find_never {A} (f : A -> bool) l :
  (forall x, In x l -> f x = false) -> List.find f l = None.
Proof.
  induction l as [|x l IH]; intros Hf; cbn [List.find]; [reflexivity|].
  rewrite (Hf x (or_introl eq_refl)). apply IH. intros y Hy. apply Hf. right. exact Hy.
Qed.

Lemma filter_map_comm {A B} (f : B -> bool) (g : A -> B) l :
  List.filter f (map g l) = map g (List.filter (fun x => f (g x)) l).
Proof.
  induction l as [|x l IH]; cbn [map List.filter]; [reflexivity|].
  destruct (f (g x)); cbn [map]; rewrite IH; reflexivity.
Qed.

Lemma filter_ext_in' {A} (f g : A -> bool) l :
  (forall x, In x l -> f x = g x) -> List.filter f l = List.filter g l.
Proof.
  induction l as [|x l IH]; intros Hfg; cbn [List.filter]; [reflexivity|].
  rewrite (Hfg x (or_introl eq_refl)).
  rewrite IH; [reflexivity|]. intros y Hy. apply Hfg. right. exact Hy.
Qed.

Lemma filter_never {A} (f : A -> bool) l :
  (forall x, In x l -> f x = false) -> List.filter f l = [].
Proof.
  induction l as [|x l IH]; intros Hf; cbn [List.filter]; [reflexivity|].
  rewrite (Hf x (or_introl eq_refl)). apply IH. intros y Hy. apply Hf. right. exact Hy.
Qed.

(** Lookups in a document without namespaces. *)
Section PlainLookup.
Variables (p : Element) (t : string).
Hypothesis Hp : plain p = true.

(** A path qualified with one of the two named namespaces selects no child
    of a plain element. *)
Lemma plain_not_selected ns c :
  ns = NS_MICROSOFT \/ ns = NS_OPENXML -> In c (children p) ->
  tag_matches (qname ns t) (tag c) = false.
Proof.
  intros Hns Hc.
  assert (Hex : tag_matches (qname ns t) (tag c)
                = String.eqb (tag c) (qname ns t)).
  { destruct Hns as [Hn|Hn]; rewrite Hn; apply tag_matches_exact;
      [discriminate|discriminate|reflexivity|discriminate|discriminate|reflexivity]. }
  rewrite Hex. apply bare_eqb_qname.
  apply plain_tag. exact (plain_children p c Hp Hc).
Qed.

Lemma ET_find_plain_qname ns :
  ns = NS_MICROSOFT \/ ns = NS_OPENXML -> ET_find p (qname ns t) = None.
Proof. intros Hns. apply find_never. intros c Hc. apply plain_not_selected; assumption. Qed.

Lemma ET_findall_plain_qname ns :
  ns = NS_MICROSOFT \/ ns = NS_OPENXML -> ET_findall p (qname ns t) = [].
Proof. intros Hns. apply filter_never. intros c Hc. apply plain_not_selected; assumption. Qed.

Lemma ET_find_plain_result path e : ET_find p path = Some e -> plain e = true.
Proof.
  intros He. apply find_some in He as [Hin _]. exact (plain_children p e Hp Hin).
Qed.

Lemma ET_findall_plain_result path :
  Forall (fun e => plain e = true) (ET_findall p path).
Proof.
  apply List.Forall_forall. intros e He. apply filter_In in He as [Hin _].
  exact (plain_children p e Hp Hin).
Qed.

Lemma find_element_plain : find_element p t candidates_plain = ET_find p t.
Proof.
  unfold candidates_plain. cbn [find_element].
  change (probe None t) with t.
  change (probe (Some NS_MICROSOFT) t) with (qname NS_MICROSOFT t).
  change (probe (Some NS_OPENXML) t) with (qname NS_OPENXML t).
  rewrite !ET_find_plain_qname by auto.
  destruct (ET_find p t); reflexivity.
Qed.

Lemma find_all_elements_plain :
  find_all_elements p t candidates_plain = ET_findall p t.
Proof.
  unfold candidates_plain. cbn [find_all_elements].
  change (probe None t) with t.
  change (probe (Some NS_MICROSOFT) t) with (qname NS_MICROSOFT t).
  change (probe (Some NS_OPENXML) t) with (qname NS_OPENXML t).
  rewrite !ET_findall_plain_qname by auto.
  destruct (ET_findall p t); reflexivity.
Qed.

Lemma find_element_plain_result e :
  find_element p t candidates_plain = Some e -> plain e = true.
Proof. rewrite find_element_plain. apply ET_find_plain_result. Qed.

Lemma find_all_elements_plain_result :
  Forall (fun e => plain e = true) (find_all_elements p t candidates_plain).
Proof. rewrite find_all_elements_plain. apply ET_findall_plain_result. Qed.

End PlainLookup.

Lemma possible_namespaces_plain root :
  plain root = true -> possible_namespaces root = candidates_plain.
Proof.
  intros Hp. unfold possible_namespaces, ns_uri.
  rewrite (plain_tag root Hp). reflexivity.
Qed.

Lemma possible_namespaces_qualified ns root :
  clean_uri ns = true ->
  possible_namespaces (qualify ns root) = candidates_of ns.
Proof.
  intros Hns. unfold possible_namespaces.
  rewrite (ns_uri_qualify ns root Hns). reflexivity.
Qed.

(** Lookups in the copy of a plain document qualified with a clean
    namespace. *)
Section QualifiedLookup.
Variables (ns : string) (p : Element) (t : string).
Hypothesis Hns : clean_uri ns = true.
Hypothesis Hp : plain p = true.
Hypothesis Ht : startswith t "{" = false.

Lemma selected_qualified c :
  In c (children p) ->
  tag_matches (qname ns t) (tag (qualify ns c)) = tag_matches t (tag c).
Proof.
  intros Hc. rewrite tag_qualify, (tag_matches_bare t (tag c) Ht).
  apply tag_matches_qualified; [exact Hns|exact Ht|].
  apply (plain_parts c (plain_children p c Hp Hc)).
Qed.

Lemma ET_find_qualified :
  ET_find (qualify ns p) (qname ns t) = option_map (qualify ns) (ET_find p t).
Proof.
  unfold ET_find. rewrite children_qualify, find_map. f_equal.
  apply find_ext_in. intros c Hc. apply selected_qualified, Hc.
Qed.

Lemma ET_findall_qualified :
  ET_findall (qualify ns p) (qname ns t) = map (qualify ns) (ET_findall p t).
Proof.
  unfold ET_findall. rewrite children_qualify, filter_map_comm. f_equal.
  apply filter_ext_in'. intros c Hc. apply selected_qualified, Hc.
Qed.

(** One of the two named namespaces, when it is not [ns], selects nothing
    in the copy. *)
Lemma known_not_selected ns' c :
  ns' = NS_MICROSOFT \/ ns' = NS_OPENXML -> ns' <> ns ->
  tag_matches (qname ns' t) (tag (qualify ns c)) = false.
Proof.
  intros Hns' Hne.
  assert (Hl : lacks "}" ns' = true)
    by (destruct Hns' as [Hn|Hn]; rewrite Hn; reflexivity).
  assert (Hex : tag_matches (qname ns' t) (tag (qualify ns c))
                = String.eqb (tag (qualify ns c)) (qname ns' t)).
  { destruct Hns' as [Hn|Hn]; rewrite Hn; apply tag_matches_exact;
      [discriminate|discriminate|reflexivity|discriminate|discriminate|reflexivity]. }
  rewrite Hex, tag_qualify.
  apply qname_eqb_other; [|exact Hl|congruence].
  apply (clean_uri_parts ns Hns).
Qed.

Lemma ET_find_candidate ns' :
  ns' = NS_MICROSOFT \/ ns' = NS_OPENXML -> ET_find p t = None ->
  ET_find (qualify ns p) (qname ns' t) = None.
Proof.
  intros Hns' Hnone. destruct (string_dec ns' ns) as [Heq|Hne].
  - rewrite Heq, ET_find_qualified, Hnone. reflexivity.
  - unfold ET_find. rewrite children_qualify.
    apply find_never. intros c Hc. apply in_map_iff in Hc as (c0 & <- & _).
    apply known_not_selected; assumption.
Qed.

Lemma ET_findall_candidate ns' :
  ns' = NS_MICROSOFT \/ ns' = NS_OPENXML -> ET_findall p t = [] ->
  ET_findall (qualify ns p) (qname ns' t) = [].
Proof.
  intros Hns' Hnone. destruct (string_dec ns' ns) as [Heq|Hne].
  - rewrite Heq, ET_findall_qualified, Hnone. reflexivity.
  - unfold ET_findall. rewrite children_qualify.
    apply filter_never. intros c Hc. apply in_map_iff in Hc as (c0 & <- & _).
    apply known_not_selected; assumption.
Qed.

Lemma bare_not_selected c : tag_matches t (tag (qualify ns c)) = false.
Proof.
  rewrite (tag_matches_bare t _ Ht), tag_qualify.
  apply qname_eqb_bare. exact Ht.
Qed.

Lemma ET_find_bare : ET_find (qualify ns p) t = None.
Proof.
  unfold ET_find. rewrite children_qualify.
  apply find_never. intros c Hc. apply in_map_iff in Hc as (c0 & <- & _).
  apply bare_not_selected.
Qed.

Lemma ET_findall_bare : ET_findall (qualify ns p) t = [].
Proof.
  unfold ET_findall. rewrite children_qualify.
  apply filter_never. intros c Hc. apply in_map_iff in Hc as (c0 & <- & _).
  apply bare_not_selected.
Qed.

Lemma find_element_qualified :
  find_element (qualify ns p) t (candidates_of ns)
    = option_map (qualify ns) (find_element p t candidates_plain).
Proof.
  rewrite (find_element_plain p t Hp). unfold candidates_of. cbn [find_element].
  rewrite (probe_nonempty ns t (proj1 (clean_uri_parts ns Hns))).
  change (probe None t) with t.
  change (probe (Some NS_MICROSOFT) t) with (qname NS_MICROSOFT t).
  change (probe (Some NS_OPENXML) t) with (qname NS_OPENXML t).
  rewrite ET_find_qualified, ET_find_bare.
  destruct (ET_find p t) as [e|] eqn:He; cbn [option_map]; [reflexivity|].
  rewrite !ET_find_candidate by auto. reflexivity.
Qed.

Lemma find_all_elements_qualified :
  find_all_elements (qualify ns p) t (candidates_of ns)
    = map (qualify ns) (find_all_elements p t candidates_plain).
Proof.
  rewrite (find_all_elements_plain p t Hp). unfold candidates_of.
  cbn [find_all_elements].
  rewrite (probe_nonempty ns t (proj1 (clean_uri_parts ns Hns))).
  change (probe None t) with t.
  change (probe (Some NS_MICROSOFT) t) with (qname NS_MICROSOFT t).
  change (probe (Some NS_OPENXML) t) with (qname NS_OPENXML t).
  rewrite ET_findall_qualified, ET_findall_bare.
  destruct (ET_findall p t) as [|e es] eqn:He; cbn [map]; [|reflexivity].
  rewrite !ET_findall_candidate by auto. reflexivity.
Qed.

End QualifiedLookup.

Lemma for_append_map_ext {A B} (f : A -> Exc B) (g : A -> A) l :
  (forall x, f (g x) = f x) -> for_append f (map g l) = for_append f l.
Proof.
  intros Hfg. induction l as [|x l IH]; cbn [map for_append]; [reflexivity|].
  rewrite Hfg, IH. reflexivity.
Qed.

(** The loader on the copy of a plain document qualified with a clean
    namespace. *)
Section QualifiedLoader.
Context {F : Type} `{PyFloat F} (w : World F).
Variable ns : string.
Hypothesis Hns : clean_uri ns = true.

Lemma get_qualify e k : get (qualify ns e) k = get e k.
Proof. unfold get. rewrite attrib_qualify. reflexivity. Qed.

Lemma get_default_qualify e k d :
  get_default (qualify ns e) k d = get_default e k d.
Proof. unfold get_default. rewrite attrib_qualify. reflexivity. Qed.

Lemma parse_vertex_qualify v : parse_vertex w (qualify ns v) = parse_vertex w v.
Proof. unfold parse_vertex, float_attr. rewrite !get_qualify. reflexivity. Qed.

Lemma parse_triangle_qualify t :
  parse_triangle w (qualify ns t) = parse_triangle w t.
Proof. unfold parse_triangle, int_attr. rewrite !get_qualify. reflexivity. Qed.

Lemma first_model_object_qualified objects :
  Forall (fun o => plain o = true) objects ->
  first_model_object (candidates_of ns) (map (qualify ns) objects)
    = option_map (qualify ns) (first_model_object candidates_plain objects).
Proof.
  induction 1 as [|o objects Ho _ IH]; cbn [map first_model_object];
    [reflexivity|].
  rewrite get_default_qualify.
  rewrite (find_element_qualified ns o "mesh" Hns Ho eq_refl).
  destruct (String.eqb (get_default o "type" "model") "model"); [|exact IH].
  destruct (find_element o "mesh" candidates_plain); cbn [option_map];
    [reflexivity|exact IH].
Qed.

Lemma first_mesh_object_qualified objects :
  Forall (fun o => plain o = true) objects ->
  first_mesh_object (candidates_of ns) (map (qualify ns) objects)
    = option_map (qualify ns) (first_mesh_object candidates_plain objects).
Proof.
  induction 1 as [|o objects Ho _ IH]; cbn [map first_mesh_object];
    [reflexivity|].
  rewrite (find_element_qualified ns o "mesh" Hns Ho eq_refl).
  destruct (find_element o "mesh" candidates_plain); cbn [option_map];
    [reflexivity|exact IH].
Qed.

Lemma select_object_qualified objects :
  Forall (fun o => plain o = true) objects ->
  select_object (candidates_of ns) (map (qualify ns) objects)
    = option_map (qualify ns) (select_object candidates_plain objects).
Proof.
  intros Hp. unfold select_object.
  rewrite (first_model_object_qualified objects Hp).
  destruct (first_model_object candidates_plain objects); cbn [option_map];
    [reflexivity|].
  apply first_mesh_object_qualified. exact Hp.
Qed.

Lemma first_model_object_in nss objects o :
  first_model_object nss objects = Some o -> In o objects.
Proof.
  induction objects as [|x objects IH]; cbn [first_model_object]; [discriminate|].
  destruct (String.eqb (get_default x "type" "model") "model").
  - destruct (find_element x "mesh" nss).
    + intros [= ->]. left. reflexivity.
    + intros Ho. right. auto.
  - intros Ho. right. auto.
Qed.

Lemma first_mesh_object_in nss objects o :
  first_mesh_object nss objects = Some o -> In o objects.
Proof.
  induction objects as [|x objects IH]; cbn [first_mesh_object]; [discriminate|].
  destruct (find_element x "mesh" nss).
  - intros [= ->]. left. reflexivity.
  - intros Ho. right. auto.
Qed.

Lemma select_object_in nss objects o :
  select_object nss objects = Some o -> In o objects.
Proof.
  unfold select_object.
  destruct (first_model_object nss objects) as [o'|] eqn:Hm.
  - intros [= <-]. exact (first_model_object_in _ _ _ Hm).
  - apply first_mesh_object_in.
Qed.

Lemma locate_mesh_plain_eq root :
  plain root = true ->
  locate_mesh root =
    match find_element root "resources" candidates_plain with
    | None => Raise (Exception_ "No resources found in 3MF file")
    | Some resources =>
    match find_all_elements resources "object" candidates_plain with
    | [] => Raise (Exception_ "No object found in 3MF file")
    | objects =>
    match select_object candidates_plain objects with
    | None => Raise (Exception_ "No object with mesh found in 3MF file")
    | Some object_node =>
    match find_element object_node "mesh" candidates_plain with
    | None => Raise (Exception_ "No mesh found in 3MF object")
    | Some mesh_node => Return mesh_node
    end end end end.
Proof.
  intros Hp. unfold locate_mesh. rewrite (possible_namespaces_plain root Hp).
  reflexivity.
Qed.

Lemma locate_mesh_qualified root :
  plain root = true ->
  locate_mesh (qualify ns root) = qualify ns <$> locate_mesh root.
Proof.
  intros Hp. rewrite (locate_mesh_plain_eq root Hp).
  unfold locate_mesh. rewrite (possible_namespaces_qualified ns root Hns).
  rewrite (find_element_qualified ns root "resources" Hns Hp eq_refl).
  destruct (find_element root "resources" candidates_plain) as [res|] eqn:Hres;
    cbn [option_map]; [|reflexivity].
  pose proof (find_element_plain_result root "resources" Hp res Hres) as Hpr.
  rewrite (find_all_elements_qualified ns res "object" Hns Hpr eq_refl).
  pose proof (find_all_elements_plain_result res "object" Hpr) as Hobjs.
  destruct (find_all_elements res "object" candidates_plain) as [|o objs] eqn:Ho;
    [reflexivity|].
  cbn [map].
  change (qualify ns o :: map (qualify ns) objs) with (map (qualify ns) (o :: objs)).
  rewrite (select_object_qualified (o :: objs) Hobjs).
  destruct (select_object candidates_plain (o :: objs)) as [obj|] eqn:Hsel;
    cbn [option_map]; [|reflexivity].
  assert (Hpo : plain obj = true).
  { rewrite List.Forall_forall in Hobjs. apply Hobjs.
    exact (select_object_in _ _ _ Hsel). }
  rewrite (find_element_qualified ns obj "mesh" Hns Hpo eq_refl).
  destruct (find_element obj "mesh" candidates_plain); reflexivity.
Qed.

Lemma locate_mesh_plain_result root mesh_node :
  plain root = true -> locate_mesh root = Return mesh_node ->
  plain mesh_node = true.
Proof.
  intros Hp. rewrite (locate_mesh_plain_eq root Hp).
  destruct (find_element root "resources" candidates_plain) as [res|] eqn:Hres;
    [|discriminate].
  pose proof (find_element_plain_result root "resources" Hp res Hres) as Hpr.
  pose proof (find_all_elements_plain_result res "object" Hpr) as Hobjs.
  destruct (find_all_elements res "object" candidates_plain) as [|o objs];
    [discriminate|].
  destruct (select_object candidates_plain (o :: objs)) as [obj|] eqn:Hsel;
    [|discriminate].
  assert (Hpo : plain obj = true).
  { rewrite List.Forall_forall in Hobjs. apply Hobjs.
    exact (select_object_in _ _ _ Hsel). }
  destruct (find_element obj "mesh" candidates_plain) as [m|] eqn:Hm;
    [|discriminate].
  intros [= <-].
  exact (find_element_plain_result obj "mesh" Hpo m Hm).
Qed.

Lemma parse_vertices_qualified mesh_node :
  plain mesh_node = true ->
  parse_vertices w (candidates_of ns) (qualify ns mesh_node)
    = parse_vertices w candidates_plain mesh_node.
Proof.
  intros Hp. unfold parse_vertices.
  rewrite (find_element_qualified ns mesh_node "vertices" Hns Hp eq_refl).
  destruct (find_element mesh_node "vertices" candidates_plain) as [vs|] eqn:Hvs;
    cbn [option_map]; [|reflexivity].
  pose proof (find_element_plain_result mesh_node "vertices" Hp vs Hvs) as Hpv.
  rewrite (find_all_elements_qualified ns vs "vertex" Hns Hpv eq_refl).
  apply for_append_map_ext. apply parse_vertex_qualify.
Qed.

Lemma parse_faces_qualified mesh_node :
  plain mesh_node = true ->
  parse_faces w (candidates_of ns) (qualify ns mesh_node)
    = parse_faces w candidates_plain mesh_node.
Proof.
  intros Hp. unfold parse_faces, triangle_elements.
  rewrite (find_element_qualified ns mesh_node "triangles" Hns Hp eq_refl).
  destruct (find_element mesh_node "triangles" candidates_plain) as [ts|] eqn:Hts;
    cbn [option_map]; [|reflexivity].
  pose proof (find_element_plain_result mesh_node "triangles" Hp ts Hts) as Hpt.
  rewrite (find_all_elements_qualified ns ts "triangle" Hns Hpt eq_refl).
  apply for_append_map_ext. apply parse_triangle_qualify.
Qed.

Lemma parse_mesh_qualified mesh_node :
  plain mesh_node = true ->
  parse_mesh w (candidates_of ns) (qualify ns mesh_node)
    = parse_mesh w candidates_plain mesh_node.
Proof.
  intros Hp. unfold parse_mesh.
  rewrite (parse_vertices_qualified mesh_node Hp),
          (parse_faces_qualified mesh_node Hp).
  reflexivity.
Qed.

Lemma load_model_qualified root :
  plain root = true -> load_model w (qualify ns root) = load_model w root.
Proof.
  intros Hp. unfold load_model.
  rewrite (locate_mesh_qualified root Hp), (possible_namespaces_qualified ns root Hns),
          (possible_namespaces_plain root Hp).
  destruct (locate_mesh root) as [m|e] eqn:Hloc; [|reflexivity].
  cbn [fmap Exc_fmap mbind Exc_bind].
  apply parse_mesh_qualified.
  exact (locate_mesh_plain_result root m Hp Hloc).
Qed.

End QualifiedLoader.


Section LoaderLookups.
Context {F : Type} `{PyFloat F} (w : World F).


End LoaderLookups.



(** The three spellings of one document load to this mesh. *)
Example three_spellings_one_mesh :
  map (load_model (demo_world (one_triangle_doc "0" "1" "2")))
    [one_triangle_doc "0" "1" "2";
     qualify NS_MICROSOFT (one_triangle_doc "0" "1" "2");
     qualify NS_OPENXML (one_triangle_doc "0" "1" "2")]
  = repeat (Return [Tri (V3 0%Q 0%Q 0%Q) (V3 4%Q 0%Q 0%Q) (V3 0%Q 2%Q 0%Q)]) 3.
Proof. vm_compute. reflexivity. Qed.

(* ===================================================================== *)
(** * Triangle indices                                                    *)
(* ===================================================================== *)

Section IndexFacts.
Context {F : Type} `{PyFloat F}.

Lemma np_index_accepts (vs : list (vec3 F)) i :
  in_range (length vs) i = true -> exists v, np_index vs i = Return v.
Proof.
  unfold in_range, np_index. intros Hr.
  apply andb_prop in Hr as [Hlo Hhi].
  apply Z.leb_le in Hlo. apply Z.ltb_lt in Hhi.
  set (k := if (i <? 0)%Z then (i + Z.of_nat (length vs))%Z else i).
  assert (Hk : (0 <= k < Z.of_nat (length vs))%Z).
  { unfold k. destruct (Z.ltb_spec i 0); lia. }
  destruct (Z.leb_spec 0 k) as [_|Hneg]; [|lia].
  destruct (lookup_lt_is_Some_2 vs (Z.to_nat k)) as [v Hv]; [lia|].
  exists v. rewrite Hv. reflexivity.
Qed.

Lemma np_index_refuses (vs : list (vec3 F)) i :
  in_range (length vs) i = false ->
  np_index vs i = Raise (index_error i (Z.of_nat (length vs))).
Proof.
  unfold in_range, np_index. intros Hr.
  apply andb_false_iff in Hr.
  set (k := if (i <? 0)%Z then (i + Z.of_nat (length vs))%Z else i).
  destruct (Z.leb_spec 0 k) as [Hpos|Hneg]; [|reflexivity].
  assert (Hge : (Z.of_nat (length vs) <= k)%Z).
  { unfold k in *. destruct Hr as [Hr|Hr];
      [apply Z.leb_gt in Hr|apply Z.ltb_ge in Hr];
      destruct (Z.ltb_spec i 0); lia. }
  rewrite (lookup_ge_None_2 vs (Z.to_nat k)) by lia. reflexivity.
Qed.

(** The mesh is built exactly when numpy accepts every index; otherwise
    the first refused index is the one reported. *)
Lemma materialize_all (vs : list (vec3 F)) faces :
  match first_refused (length vs) faces with
  | Some k =>
      for_append (materialize vs) faces
        = Raise (index_error k (Z.of_nat (length vs)))
  | None =>
      exists m, for_append (materialize vs) faces = Return m /\
                length m = length faces
  end.
Proof.
  unfold first_refused.
  induction faces as [|[[a b] c] faces IH];
    cbn [face_indices flat_map app List.find for_append materialize].
  - exists []. split; reflexivity.
  - destruct (in_range (length vs) a) eqn:Ha; cbn [negb];
      [|rewrite (np_index_refuses vs a Ha); reflexivity].
    destruct (np_index_accepts vs a Ha) as [va ->]. cbn [mbind Exc_bind].
    destruct (in_range (length vs) b) eqn:Hb; cbn [negb];
      [|rewrite (np_index_refuses vs b Hb); reflexivity].
    destruct (np_index_accepts vs b Hb) as [vb ->]. cbn [mbind Exc_bind].
    destruct (in_range (length vs) c) eqn:Hc; cbn [negb];
      [|rewrite (np_index_refuses vs c Hc); reflexivity].
    destruct (np_index_accepts vs c Hc) as [vc ->]. cbn [mbind Exc_bind].
    fold (face_indices faces).
    destruct (List.find (fun i => negb (in_range (length vs) i)) (face_indices faces))
      as [k|].
    + rewrite IH. reflexivity.
    + destruct IH as (m & -> & Hlen). cbn [mbind Exc_bind].
      eexists. split; [reflexivity|]. cbn [length]. rewrite Hlen. reflexivity.
Qed.

Lemma first_refused_exists n faces :
  Exists (fun i => in_range n i = false) (face_indices faces) ->
  exists k, first_refused n faces = Some k /\ in_range n k = false.
Proof.
  unfold first_refused. induction 1 as [i l Hi|i l _ IH]; cbn [List.find].
  - rewrite Hi. cbn [negb]. eauto.
  - destruct (in_range n i) eqn:Hi; cbn [negb]; eauto.
Qed.

Lemma index_error_not_zip i n : is_BadZipFile (index_error i n) = false.
Proof. reflexivity. Qed.

End IndexFacts.

Section IndexClaim.
Context {F : Type} `{PyFloat F} (w : World F).

(** C4, as the code has it.  For a model whose vertex list has [n > 0]
    entries and whose triangle attributes parse: an empty triangle list
    fails with [No triangles found in 3MF mesh]; an index outside
    [-n .. n-1] makes the loader fail, and no mesh is returned; when the
    indices fit int64 the error names the first such index.  Indices in
    [-n .. -1] are taken from the end of the vertex list, as numpy does. *)
Theorem triangle_indices_checked fp root mesh_node vertices faces :
  let nss := possible_namespaces root in
  let n := length vertices in
  opens_to w fp root ->
  locate_mesh root = Return mesh_node ->
  parse_vertices w nss mesh_node = Return vertices ->
  vertices <> [] ->
  parse_faces w nss mesh_node = Return faces ->
  match faces with
  | [] =>
      load_3mf_mesh w fp
        = Raise (Exception_
            "Failed to parse 3MF file: No triangles found in 3MF mesh")
  | _ =>
      match first_refused n faces with
      | Some k =>
          raised (load_3mf_mesh w fp) /\
          (forallb face_fits faces = true ->
           load_3mf_mesh w fp
             = Raise (Exception_
                 ("Failed to parse 3MF file: " +:+ str (index_error k (Z.of_nat n)))))
      | None =>
          forallb face_fits faces = true ->
          exists m, load_3mf_mesh w fp = Return m /\ length m = length faces
      end
  end /\
  (Exists (fun i => in_range n i = false) (face_indices faces) ->
   raised (load_3mf_mesh w fp)).
Proof.
  intros nss n Hopen Hloc Hvs Hne Hfs.
  rewrite (load_3mf_mesh_opened w fp root Hopen).
  assert (Hload : load_model w root =
            match faces with
            | [] => Raise (Exception_ "No triangles found in 3MF mesh")
            | _ => build_mesh w vertices faces
            end).
  { unfold load_model. rewrite Hloc. cbn [mbind Exc_bind].
    unfold parse_mesh. fold nss. rewrite Hvs. cbn [mbind Exc_bind].
    destruct vertices; [congruence|]. rewrite Hfs. reflexivity. }
  rewrite Hload.
  pose proof (materialize_all vertices faces) as Hmat. fold n in Hmat.
  assert (Hmain :
    match faces with
    | [] => True
    | _ =>
      match first_refused n faces with
      | Some k =>
          raised (match build_mesh w vertices faces with
                  | Return m => Return m
                  | Raise e => Raise (wrap_3mf_error e)
                  end) /\
          (forallb face_fits faces = true ->
           match build_mesh w vertices faces with
           | Return m => Return m
           | Raise e => Raise (wrap_3mf_error e)
           end = Raise (Exception_
                   ("Failed to parse 3MF file: " +:+ str (index_error k (Z.of_nat n)))))
      | None =>
          forallb face_fits faces = true ->
          exists m, match build_mesh w vertices faces with
                    | Return m => Return m
                    | Raise e => Raise (wrap_3mf_error e)
                    end = Return m /\ length m = length faces
      end
    end).
  { destruct faces as [|f faces']; [exact I|].
    unfold build_mesh.
    destruct (first_refused n (f :: faces')) as [k|].
    - destruct (forallb face_fits (f :: faces')).
      + rewrite Hmat. split; [eexists; reflexivity|]. intros _. reflexivity.
      + split; [eexists; reflexivity|]. discriminate.
    - intros ->. destruct Hmat as (m & -> & Hlen). eauto. }
  split.
  - destruct faces as [|f faces']; [reflexivity|exact Hmain].
  - intros Hex. destruct (first_refused_exists n faces Hex) as (k & Hk & _).
    destruct faces as [|f faces']; [eexists; reflexivity|].
    rewrite Hk in Hmain. exact (proj1 Hmain).
Qed.

End IndexClaim.

(** C4 at the scenario of the specification: index 999 with 8 vertices. *)
Lemma triangle_indices_witness :
  load_3mf_mesh (demo_world (cube_corner_doc "999")) "cube.3mf"
    = Raise (Exception_
        "Failed to parse 3MF file: index 999 is out of bounds for axis 0 with size 8").
Proof.
  pose (doc := cube_corner_doc "999").
  assert (Hopen : opens_to (demo_world doc) "cube.3mf" doc).
  { exists {| namelist := ["[Content_Types].xml"; "3D/3dmodel.model"];
              zip_read := fun name => Return name |},
           "3D/3dmodel.model", [], "3D/3dmodel.model".
    repeat split; reflexivity. }
  destruct (locate_mesh doc) as [mesh_node|e] eqn:Hloc;
    [|vm_compute in Hloc; discriminate].
  destruct (parse_vertices (demo_world doc) (possible_namespaces doc) mesh_node)
    as [vertices|e] eqn:Hvs;
    [|vm_compute in Hloc; injection Hloc as <-; vm_compute in Hvs; discriminate].
  destruct (parse_faces (demo_world doc) (possible_namespaces doc) mesh_node)
    as [faces|e] eqn:Hfs;
    [|vm_compute in Hloc; injection Hloc as <-; vm_compute in Hfs; discriminate].
  assert (Hne : vertices <> []).
  { vm_compute in Hloc. injection Hloc as <-. vm_compute in Hvs.
    injection Hvs as <-. discriminate. }
  pose proof (triangle_indices_checked (demo_world doc) "cube.3mf" doc
                mesh_node vertices faces Hopen Hloc Hvs Hne Hfs) as [Hmain _].
  vm_compute in Hloc. injection Hloc as <-.
  vm_compute in Hvs. injection Hvs as <-.
  vm_compute in Hfs. injection Hfs as <-.
  exact (proj2 Hmain eq_refl).
Defined.

(** C4 as worded ("not in the range 0..n-1") fails: index [-1] is outside
    [0 .. 2], yet the loader returns a mesh, built with the last vertex. *)
Lemma negative_index_counterexample :
  ~ rejects_out_of_bounds (demo_world (one_triangle_doc "0" "1" "-1"))
      (one_triangle_doc "0" "1" "-1").
Proof.
  intros Hclaim.
  pose (doc := one_triangle_doc "0" "1" "-1").
  destruct (locate_mesh doc) as [mesh_node|e] eqn:Hloc;
    [|vm_compute in Hloc; discriminate].
  destruct (parse_vertices (demo_world doc) (possible_namespaces doc) mesh_node)
    as [vertices|e] eqn:Hvs;
    [|vm_compute in Hloc; injection Hloc as <-; vm_compute in Hvs; discriminate].
  destruct (parse_faces (demo_world doc) (possible_namespaces doc) mesh_node)
    as [faces|e] eqn:Hfs;
    [|vm_compute in Hloc; injection Hloc as <-; vm_compute in Hfs; discriminate].
  specialize (Hclaim mesh_node vertices faces Hloc Hvs Hfs).
  vm_compute in Hloc. injection Hloc as <-.
  vm_compute in Hvs. injection Hvs as <-.
  vm_compute in Hfs. injection Hfs as <-.
  destruct Hclaim as [e He].
  - right. right. left. unfold out_of_bounds. simpl. lia.
  - vm_compute in He. discriminate.
Qed.

(** The mesh loaded with index [-1]: its third corner is the last vertex. *)
Example negative_index_wraps :
  load_3mf_mesh (demo_world (one_triangle_doc "0" "1" "-1")) "part.3mf"
    = Return [Tri (V3 0 0 0) (V3 4 0 0) (V3 0 2 0)]%Q.
Proof. vm_compute. reflexivity. Qed.

(* ===================================================================== *)
(** * Normalization                                                       *)
(* ===================================================================== *)

Section NormalizeShape.
Context {F : Type} `{PyFloat F}.




End NormalizeShape.

(* ===================================================================== *)
(** * Rounding in binary32                                                *)
(* ===================================================================== *)

Section Binary32Digits.
Local Open Scope Z_scope.

Lemma fexp32 (x : Z) : fexp 24 128 x = Z.max (x - 24) (-149).
Proof. reflexivity. Qed.

Lemma digits2_pos_bounds (p : positive) :
  2 ^ (Zpos (digits2_pos p) - 1) <= Zpos p < 2 ^ Zpos (digits2_pos p).
Proof.
  induction p as [p IH|p IH|]; cbn [digits2_pos].
  - rewrite Pos2Z.inj_succ.
    replace (Z.succ (Zpos (digits2_pos p)) - 1) with (Z.succ (Zpos (digits2_pos p) - 1)) by lia.
    rewrite !Z.pow_succ_r by lia. lia.
  - rewrite Pos2Z.inj_succ.
    replace (Z.succ (Zpos (digits2_pos p)) - 1) with (Z.succ (Zpos (digits2_pos p) - 1)) by lia.
    rewrite !Z.pow_succ_r by lia. lia.
  - cbn. lia.
Qed.

Lemma Zdigits2_bounds (m : Z) :
  0 < m -> 2 ^ (Zdigits2 m - 1) <= m < 2 ^ Zdigits2 m.
Proof.
  destruct m as [|p|p]; try lia. intros _. apply digits2_pos_bounds.
Qed.

Lemma Zdigits2_nonneg (m : Z) : 0 <= Zdigits2 m.
Proof. destruct m; cbn; lia. Qed.

Lemma Zdigits2_pos (m : Z) : 0 < m -> 0 < Zdigits2 m.
Proof. destruct m; cbn; lia. Qed.

Lemma pow2_lt_exponents (a b : Z) : 0 <= a -> 0 <= b -> 2 ^ a < 2 ^ b -> a < b.
Proof. intros Ha Hb H. apply (Z.pow_lt_mono_r_iff 2); lia. Qed.

(** The number of digits is determined by the binade. *)
Lemma Zdigits2_unique (m d : Z) :
  0 < m -> 2 ^ (d - 1) <= m < 2 ^ d -> Zdigits2 m = d.
Proof.
  intros Hm [Hlo Hhi].
  pose proof (Zdigits2_bounds m Hm) as [Hlo' Hhi'].
  pose proof (Zdigits2_pos m Hm) as Hd.
  assert (0 < d).
  { destruct (Z.lt_trichotomy d 0) as [Hneg|[->|Hpos]]; [| |assumption].
    - rewrite (Z.pow_neg_r 2 d) in Hhi by lia. lia.
    - cbn in Hhi. lia. }
  assert (Zdigits2 m - 1 < d) by (apply pow2_lt_exponents; lia).
  assert (d - 1 < Zdigits2 m) by (apply pow2_lt_exponents; lia).
  lia.
Qed.

Lemma Zdigits2_le (m d : Z) : 0 <= d -> 0 <= m < 2 ^ d -> Zdigits2 m <= d.
Proof.
  intros Hd [Hm Hhi].
  destruct (Z.eq_dec m 0) as [->|Hne]; [cbn; lia|].
  pose proof (Zdigits2_bounds m ltac:(lia)) as [Hlo' _].
  assert (Zdigits2 m - 1 < d); [|lia].
  apply pow2_lt_exponents; [|lia|lia].
  pose proof (Zdigits2_pos m ltac:(lia)). lia.
Qed.

Lemma Zdigits2_ge (m d : Z) : 2 ^ d <= m -> d < Zdigits2 m.
Proof.
  intros Hlo.
  destruct (Z.lt_ge_cases d 0) as [Hneg|Hd].
  { pose proof (Zdigits2_nonneg m). lia. }
  assert (0 < m) by (pose proof (Z.pow_pos_nonneg 2 d); lia).
  pose proof (Zdigits2_bounds m ltac:(lia)) as [_ Hhi].
  apply pow2_lt_exponents; [lia|apply Zdigits2_nonneg|lia].
Qed.

Lemma Zdigits2_mul_pow2 (m k : Z) :
  0 < m -> 0 <= k -> Zdigits2 (m * 2 ^ k) = Zdigits2 m + k.
Proof.
  intros Hm Hk.
  pose proof (Zdigits2_bounds m Hm) as [Hlo Hhi].
  pose proof (Zdigits2_pos m Hm) as Hd.
  pose proof (Z.pow_pos_nonneg 2 k ltac:(lia) Hk) as Hp.
  apply Zdigits2_unique; [nia|].
  replace (Zdigits2 m + k - 1) with ((Zdigits2 m - 1) + k) by lia.
  rewrite !Z.pow_add_r by lia. nia.
Qed.

Lemma Zdigits2_div_pow2 (m k : Z) :
  0 < m -> 0 <= k -> k < Zdigits2 m ->
  Zdigits2 (m / 2 ^ k) = Zdigits2 m - k.
Proof.
  intros Hm Hk Hlt.
  pose proof (Zdigits2_bounds m Hm) as [Hlo Hhi].
  pose proof (Z.pow_pos_nonneg 2 k ltac:(lia) Hk) as Hp.
  assert (Hlo' : 2 ^ (Zdigits2 m - k - 1) <= m / 2 ^ k).
  { apply Z.div_le_lower_bound; [lia|].
    rewrite <- Z.pow_add_r by lia.
    replace (k + (Zdigits2 m - k - 1)) with (Zdigits2 m - 1) by lia. exact Hlo. }
  assert (Hhi' : m / 2 ^ k < 2 ^ (Zdigits2 m - k)).
  { apply Z.div_lt_upper_bound; [lia|].
    rewrite <- Z.pow_add_r by lia.
    replace (k + (Zdigits2 m - k)) with (Zdigits2 m) by lia. exact Hhi. }
  apply Zdigits2_unique; [|split; assumption].
  pose proof (Z.pow_pos_nonneg 2 (Zdigits2 m - k - 1) ltac:(lia) ltac:(lia)). lia.
Qed.

Lemma div_pow2_small (m k : Z) :
  0 <= m -> 0 <= k -> Zdigits2 m <= k -> m / 2 ^ k = 0.
Proof.
  intros Hm Hk Hd. apply Z.div_small. split; [assumption|].
  destruct (Z.eq_dec m 0) as [->|Hne]; [apply Z.pow_pos_nonneg; lia|].
  pose proof (Zdigits2_bounds m ltac:(lia)) as [_ Hhi].
  assert (2 ^ Zdigits2 m <= 2 ^ k) by (apply Z.pow_le_mono_r; lia). lia.
Qed.

End Binary32Digits.

Section Binary32Shift.
Local Open Scope Z_scope.

Lemma iter_pos_nat {A} (f : A -> A) (n : positive) (x : A) :
  SpecFloat.iter_pos f n x = Nat.iter (Pos.to_nat n) f x.
Proof.
  revert x. induction n as [n IH|n IH|]; intros x; cbn [SpecFloat.iter_pos].
  - rewrite !IH, Pos2Nat.inj_xI.
    replace (S (2 * Pos.to_nat n))%nat with (Pos.to_nat n + (Pos.to_nat n + 1))%nat by lia.
    rewrite !Nat.iter_add. reflexivity.
  - rewrite !IH, Pos2Nat.inj_xO.
    replace (2 * Pos.to_nat n)%nat with (Pos.to_nat n + Pos.to_nat n)%nat by lia.
    rewrite Nat.iter_add. reflexivity.
  - reflexivity.
Qed.

Lemma shr_1_m (mrs : shr_record) :
  0 <= shr_m mrs -> shr_m (shr_1 mrs) = shr_m mrs / 2.
Proof.
  destruct mrs as [m r s]. cbn [shr_m]. intros Hm.
  destruct m as [|[p|p|]|p]; cbn [shr_1 shr_m].
  - reflexivity.
  - rewrite (Pos2Z.inj_xI p). apply (Z.div_unique _ _ _ 1); lia.
  - rewrite (Pos2Z.inj_xO p). apply (Z.div_unique _ _ _ 0); lia.
  - reflexivity.
  - lia.
Qed.

Lemma shr_nat_m (k : nat) (mrs : shr_record) :
  0 <= shr_m mrs ->
  shr_m (Nat.iter k shr_1 mrs) = shr_m mrs / 2 ^ Z.of_nat k.
Proof.
  intros Hm. induction k as [|k IH].
  - cbn. rewrite Z.div_1_r. reflexivity.
  - rewrite Nat.iter_succ, shr_1_m.
    + rewrite IH, Nat2Z.inj_succ, Z.pow_succ_r by lia.
      rewrite Z.div_div by (try apply Z.pow_pos_nonneg; lia).
      f_equal. lia.
    + rewrite IH. apply Z.div_pos; [assumption|apply Z.pow_pos_nonneg; lia].
Qed.

Lemma shr_pos_m (n : positive) (mrs : shr_record) :
  0 <= shr_m mrs ->
  shr_m (SpecFloat.iter_pos shr_1 n mrs) = shr_m mrs / 2 ^ Zpos n.
Proof.
  intros Hm. rewrite iter_pos_nat, shr_nat_m by assumption.
  rewrite positive_nat_Z. reflexivity.
Qed.

(** Shifting a multiple of [2 ^ k] loses nothing. *)
Lemma shr_nat_exact (k : nat) (m : Z) :
  0 <= m ->
  Nat.iter k shr_1 (Build_shr_record (m * 2 ^ Z.of_nat k) false false)
  = Build_shr_record m false false.
Proof.
  revert m. induction k as [|k IH]; intros m Hm.
  - cbn. rewrite Z.mul_1_r. reflexivity.
  - rewrite Nat.iter_succ, Nat2Z.inj_succ, Z.pow_succ_r by lia.
    replace (m * (2 * 2 ^ Z.of_nat k)) with ((2 * m) * 2 ^ Z.of_nat k) by lia.
    rewrite IH by lia.
    destruct m as [|p|p]; [reflexivity|reflexivity|lia].
Qed.

Lemma shr_pos_exact (n : positive) (m : Z) :
  0 <= m ->
  SpecFloat.iter_pos shr_1 n (Build_shr_record (m * 2 ^ Zpos n) false false)
  = Build_shr_record m false false.
Proof.
  intros Hm. rewrite iter_pos_nat.
  rewrite <- (positive_nat_Z n). apply shr_nat_exact. exact Hm.
Qed.

Lemma shr_m_of_loc (m : Z) (l : location) : shr_m (shr_record_of_loc m l) = m.
Proof. destruct l as [|[| |]]; reflexivity. Qed.


Lemma round_nearest_even_cases (m : Z) (l : location) :
  round_nearest_even m l = m \/ round_nearest_even m l = m + 1.
Proof.
  destruct l as [|[| |]]; cbn [round_nearest_even]; auto.
  destruct (Z.even m); auto.
Qed.

(** [shr_fexp] in terms of division. *)
Lemma shr_fexp_spec (m e : Z) (l : location) :
  0 <= m ->
  let n := fexp 24 128 (Zdigits2 m + e) - e in
  (0 < n /\ snd (shr_fexp 24 128 m e l) = e + n /\
   shr_m (fst (shr_fexp 24 128 m e l)) = m / 2 ^ n)
  \/ (n <= 0 /\ shr_fexp 24 128 m e l = (shr_record_of_loc m l, e)).
Proof.
  intros Hm n. unfold shr_fexp. fold n.
  destruct n as [|p|p] eqn:Hn.
  - right. split; [lia|reflexivity].
  - left. cbn [shr fst snd]. split; [lia|]. split; [reflexivity|].
    rewrite shr_pos_m by (rewrite shr_m_of_loc; exact Hm).
    rewrite shr_m_of_loc. reflexivity.
  - right. split; [lia|reflexivity].
Qed.

Lemma shr_fexp_exact (m e k : Z) :
  0 <= m -> 0 < k ->
  fexp 24 128 (Zdigits2 (m * 2 ^ k) + e) - e = k ->
  shr_fexp 24 128 (m * 2 ^ k) e loc_Exact = (Build_shr_record m false false, e + k).
Proof.
  intros Hm Hk Hn. unfold shr_fexp. rewrite Hn.
  destruct k as [|p|p]; try lia.
  cbn [shr shr_record_of_loc]. rewrite shr_pos_exact by assumption. reflexivity.
Qed.

End Binary32Shift.

Section Binary32Round.
Local Open Scope Z_scope.




(** Rounding yields a canonical binary32 value. *)
Lemma binary_round_aux_valid (s : bool) (m e : Z) (l : location) :
  0 <= m -> e <= fexp 24 128 (Zdigits2 m + e) ->
  valid_binary 24 128 (binary_round_aux 24 128 s m e l) = true.
Proof.
  intros Hm Hpre. unfold binary_round_aux.
  assert (H1 : let mrs := fst (shr_fexp 24 128 m e l) in
               let e1 := snd (shr_fexp 24 128 m e l) in
               -149 <= e1 /\ 0 <= shr_m mrs < 2 ^ 24 /\
               (-149 < e1 -> 2 ^ 23 <= shr_m mrs)).
  { cbv zeta.
    assert (Hcases : m = 0 \/ 0 < m) by lia.
    destruct (shr_fexp_spec m e l Hm) as [(Hn & He & Hq)|[Hn Heq]];
      cbv zeta in *.
    - set (n := fexp 24 128 (Zdigits2 m + e) - e) in *.
      rewrite He, Hq.
      pose proof (Z.pow_pos_nonneg 2 n ltac:(lia) ltac:(lia)) as Hpn.
      destruct Hcases as [->|Hpos].
      + rewrite Z.div_0_l by lia. unfold n. cbn [Zdigits2]. rewrite fexp32 in *.
        cbn in Hpre. split; [lia|]. split; [lia|]. cbn. lia.
      + assert (Hn' : e + n = fexp 24 128 (Zdigits2 m + e)) by (unfold n; lia).
        rewrite fexp32 in Hn'.
        destruct (Z.lt_ge_cases n (Zdigits2 m)) as [Hlt|Hge].
        * pose proof (Zdigits2_div_pow2 m n Hpos ltac:(lia) Hlt) as Hd.
          assert (Hqpos : 0 < m / 2 ^ n).
          { pose proof (Zdigits2_bounds m Hpos) as [Hlo _].
            assert (2 ^ (Zdigits2 m - 1 - n) * 2 ^ n <= m).
            { rewrite <- Z.pow_add_r by lia.
              replace (Zdigits2 m - 1 - n + n) with (Zdigits2 m - 1) by lia.
              exact Hlo. }
            pose proof (Z.pow_pos_nonneg 2 (Zdigits2 m - 1 - n) ltac:(lia) ltac:(lia)).
            assert (2 ^ (Zdigits2 m - 1 - n) <= m / 2 ^ n)
              by (apply Z.div_le_lower_bound; lia).
            lia. }
          pose proof (Zdigits2_bounds _ Hqpos) as [Hlo Hhi]. rewrite Hd in Hlo, Hhi.
          split; [lia|]. split.
          -- split; [lia|].
             assert (2 ^ (Zdigits2 m - n) <= 2 ^ 24)
               by (apply Z.pow_le_mono_r; lia).
             lia.
          -- intros Hnorm.
             replace (Zdigits2 m - n - 1) with 23 in Hlo by lia. exact Hlo.
        * rewrite (div_pow2_small m n) by lia.
          split; [lia|]. split; [cbn; lia|]. intros Hnorm. lia.
    - rewrite Heq. cbn [fst snd]. rewrite shr_m_of_loc.
      set (n := fexp 24 128 (Zdigits2 m + e) - e) in *.
      assert (He : e = fexp 24 128 (Zdigits2 m + e)) by (unfold n in Hn; lia).
      rewrite fexp32 in He.
      destruct Hcases as [->|Hpos].
      + cbn [Zdigits2] in He. split; [lia|]. split; [cbn; lia|]. lia.
      + pose proof (Zdigits2_bounds m Hpos) as [Hlo Hhi].
        pose proof (Zdigits2_pos m Hpos) as Hdpos.
        split; [lia|]. split.
        * split; [lia|].
          assert (2 ^ Zdigits2 m <= 2 ^ 24) by (apply Z.pow_le_mono_r; lia).
          lia.
        * intros Hnorm. replace (Zdigits2 m - 1) with 23 in Hlo by lia. exact Hlo. }
  cbv zeta in H1.
  destruct (shr_fexp 24 128 m e l) as [mrs1 e1]. cbn [fst snd] in H1.
  destruct H1 as (He1 & [Hq1lo Hq1hi] & Hnorm1).
  set (q2 := round_nearest_even (shr_m mrs1) (loc_of_shr_record mrs1)).
  assert (Hq2 : shr_m mrs1 <= q2 <= shr_m mrs1 + 1).
  { destruct (round_nearest_even_cases (shr_m mrs1) (loc_of_shr_record mrs1))
      as [H|H]; fold q2 in H; lia. }
  assert (Hq2nonneg : 0 <= q2) by lia.
  destruct (Z.eq_dec q2 (2 ^ 24)) as [Htop|Hbelow].
  - (* the mantissa carried into a twenty-fifth digit *)
    assert (Hsh : shr_fexp 24 128 q2 e1 loc_Exact
                  = (Build_shr_record (2 ^ 23) false false, e1 + 1)).
    { rewrite Htop. change (2 ^ 24) with (2 ^ 23 * 2 ^ 1).
      apply shr_fexp_exact; [cbn; lia|lia|].
      change (Zdigits2 (2 ^ 23 * 2 ^ 1)) with 25. rewrite fexp32. lia. }
    rewrite Hsh. cbn [shr_m]. change (2 ^ 23) with 8388608.
    destruct (e1 + 1 <=? 128 - 24) eqn:Hle; [|reflexivity].
    cbn [valid_binary]. unfold bounded, canonical_mantissa.
    rewrite Hle, andb_true_r. apply Z.eqb_eq.
    change (Zpos (digits2_pos 8388608)) with 24. rewrite fexp32. lia.
  - assert (Hq2lt : q2 < 2 ^ 24) by lia.
    assert (Hd2 : Zdigits2 q2 <= 24) by (apply Zdigits2_le; lia).
    destruct (shr_fexp_spec q2 e1 loc_Exact Hq2nonneg) as [(Hn & _)|[Hn Heq]];
      cbv zeta in *.
    { rewrite fexp32 in Hn. lia. }
    rewrite Heq. cbn [shr_record_of_loc shr_m].
    destruct q2 as [|m2|m2] eqn:Hq2eq; [reflexivity| |lia].
    destruct (e1 <=? 128 - 24) eqn:Hle; [|reflexivity].
    cbn [valid_binary]. unfold bounded, canonical_mantissa.
    rewrite Hle, andb_true_r. apply Z.eqb_eq.
    change (Zpos (digits2_pos m2)) with (Zdigits2 (Zpos m2)).
    rewrite fexp32.
    destruct (Z.eq_dec e1 (-149)) as [->|Hne]; [lia|].
    assert (Hlo : 2 ^ 23 <= Zpos m2) by (specialize (Hnorm1 ltac:(lia)); lia).
    pose proof (Zdigits2_ge (Zpos m2) 23 Hlo). lia.
Qed.


End Binary32Round.

Section Binary32Operations.
Local Open Scope Z_scope.




Lemma pos_iter_xO (m d : positive) : Zpos (Pos.iter xO m d) = Zpos m * 2 ^ Zpos d.
Proof.
  induction d as [|d IH] using Pos.peano_ind.
  - cbn. lia.
  - rewrite Pos.iter_succ, Pos2Z.inj_xO, IH, Pos2Z.inj_succ, Z.pow_succ_r by lia. lia.
Qed.

Lemma binary_round_valid (s : bool) (m : positive) (e : Z) :
  valid_binary 24 128 (binary_round 24 128 s m e) = true.
Proof.
  unfold binary_round, shl_align.
  change (Zpos (digits2_pos m)) with (Zdigits2 (Zpos m)).
  set (target := fexp 24 128 (Zdigits2 (Zpos m) + e)).
  destruct (target - e) as [|d|d] eqn:Hd.
  - apply binary_round_aux_valid; [lia|]. fold target. lia.
  - apply binary_round_aux_valid; [lia|]. fold target. lia.
  - apply binary_round_aux_valid; [lia|].
    rewrite pos_iter_xO, Zdigits2_mul_pow2 by lia.
    replace (Zdigits2 (Zpos m) + Zpos d + target) with (Zdigits2 (Zpos m) + e) by lia.
    fold target. lia.
Qed.

Lemma binary_normalize_valid (m e : Z) (szero : bool) :
  valid_binary 24 128 (binary_normalize 24 128 m e szero) = true.
Proof.
  destruct m as [|p|p]; cbn [binary_normalize];
    [reflexivity|apply binary_round_valid|apply binary_round_valid].
Qed.


Lemma SFadd_valid (x y : spec_float) :
  valid_binary 24 128 x = true -> valid_binary 24 128 y = true ->
  valid_binary 24 128 (SFadd 24 128 x y) = true.
Proof.
  intros Hx Hy.
  destruct x as [sx|sx| |sx mx ex], y as [sy|sy| |sy my ey];
    try reflexivity; try exact Hx; try exact Hy.
  - destruct sx, sy; reflexivity.
  - destruct sx, sy; reflexivity.
  - apply binary_normalize_valid.
Qed.

End Binary32Operations.

Section Binary32Division.
Local Open Scope Z_scope.







End Binary32Division.

Section Binary32Exact.
Local Open Scope Z_scope.







End Binary32Exact.

(* ===================================================================== *)
(** * Normalization in binary32                                           *)
(* ===================================================================== *)

Section NormalizeFloat32.









End NormalizeFloat32.



(** The hypothesis on the single point is needed: for [far_point] the sum
    [x + x] overflows, the centre is infinite and the centred point is at
    minus infinity, not at the origin. *)
Example far_point_leaves_origin :
  min_ [Tri far_point far_point far_point] = Return far_point /\
  max_ [Tri far_point far_point far_point] = Return far_point /\
  normalize_vectors far_point far_point [Tri far_point far_point far_point]
  = [Tri (V3 (S754_infinity true) (S754_zero false) (S754_zero false))
         (V3 (S754_infinity true) (S754_zero false) (S754_zero false))
         (V3 (S754_infinity true) (S754_zero false) (S754_zero false))].
Proof. repeat split; vm_compute; reflexivity. Qed.
(* ===================================================================== *)
(** * process_batch                                                       *)
(* ===================================================================== *)

Section BatchFacts.
Context {F : Type} `{PyFloat F} (w : World F) (pool : Pool F) (console : Console).



(** The futures of a batch all of whose jobs were accepted. *)
Lemma submit_all_returns i jobs futures :
  submit_all w pool i jobs = Return futures ->
  futures = imap (fun k => future_of w pool (i + k)) jobs.
Proof.
  revert i futures. induction jobs as [|job jobs IH]; intros i futures;
    cbn [submit_all imap].
  - intros [= <-]. reflexivity.
  - unfold submit at 1. destruct (submit_fault pool i job) as [e|];
      cbn [mbind Exc_bind]; [discriminate|].
    destruct (submit_all w pool (S i) jobs) as [fs|e] eqn:Hrest;
      cbn [mbind Exc_bind]; [|discriminate].
    intros [= <-]. rewrite Nat.add_0_r. f_equal.
    rewrite (IH (S i) fs Hrest). apply imap_ext. intros k x _.
    cbn. f_equal. lia.
Qed.

(** A batch is not submitted in full only when some [submit] raises. *)
Lemma submit_all_raises i jobs e :
  submit_all w pool i jobs = Raise e ->
  exists k job, jobs !! k = Some job /\ submit_fault pool (i + k) job = Some e.
Proof.
  revert i. induction jobs as [|job jobs IH]; intros i; cbn [submit_all];
    [discriminate|].
  unfold submit at 1. destruct (submit_fault pool i job) as [e'|] eqn:Hfault;
    cbn [mbind Exc_bind].
  - intros [= <-]. exists 0%nat, job. rewrite Nat.add_0_r. split; [reflexivity|exact Hfault].
  - destruct (submit_all w pool (S i) jobs) as [fs|e'] eqn:Hrest;
      cbn [mbind Exc_bind]; [discriminate|].
    intros [= <-]. destruct (IH (S i) Hrest) as (k & job' & Hk & Hf).
    exists (S k), job'. split; [exact Hk|].
    replace (i + S k)%nat with (S i + k)%nat by lia. exact Hf.
Qed.


Lemma length_imap' {A B} (f : nat -> A -> B) l : length (imap f l) = length l.
Proof.
  revert f. induction l as [|x l IH]; intros f; cbn [imap length]; [reflexivity|].
  rewrite IH. reflexivity.
Qed.

(** While the writes succeed, or without [stream], the loop appends one
    result per future, counts the successful ones and writes one line per
    result in stream mode. *)
Lemma collect_all_quiet stream (fs : list (Future F)) rs count out prints :
  (stream = true ->
   forall k, (prints <= k < prints + length fs)%nat ->
             print_fault console k = None) ->
  collect_all console stream fs (rs, count, out, prints) =
    ((rs ++ map result_of fs,
      (count + Z.of_nat (length (List.filter success (map result_of fs))))%Z,
      if stream then out ++ map ResultLine (map result_of fs) else out,
      if stream then (prints + length fs)%nat else prints),
     None).
Proof.
  revert rs count out prints.
  induction fs as [|fut fs IH]; intros rs count out prints Hquiet.
  - cbn [collect_all map List.filter length].
    rewrite !app_nil_r, Z.add_0_r, Nat.add_0_r. destruct stream; reflexivity.
  - cbn [collect_all map].
    assert (Hstep : collect console stream (rs, count, out, prints) fut =
              ((rs ++ [result_of fut],
                if success (result_of fut) then (count + 1)%Z else count,
                if stream then out ++ [ResultLine (result_of fut)] else out,
                if stream then S prints else prints), None)).
    { unfold collect, collect_try, result_of, err_result.
      destruct stream.
      - pose proof (Hquiet eq_refl prints ltac:(cbn [length]; lia)) as Hw.
        destruct (fut_result fut); unfold emit; rewrite Hw; reflexivity.
      - destruct (fut_result fut); reflexivity. }
    rewrite Hstep, IH.
    + cbn [List.filter]. f_equal. f_equal; [f_equal; [f_equal|]|].
      * rewrite <- app_assoc. reflexivity.
      * destruct (success (result_of fut)); cbn [length]; lia.
      * destruct stream; [|reflexivity]. rewrite <- app_assoc. reflexivity.
      * destruct stream; [|reflexivity]. cbn [length]. lia.
    + intros Hs k Hk. apply (Hquiet Hs). rewrite Hs in Hk. cbn [length]. lia.
Qed.




(** What [process_batch] does once the executor exists and took every job,
    while the result lines can be written. *)
Lemma process_batch_quiet jobs max_workers stream :
  pool_ok pool ->
  ProcessPoolExecutor pool max_workers = Return tt ->
  submit_all w pool 0 jobs
    = Return (imap (fun k => future_of w pool k) jobs) ->
  (stream = true -> writes_succeed console (length jobs)) ->
  process_batch w pool console jobs max_workers stream =
    if stream
    then match print_fault console (length jobs) with
         | None =>
             (map ResultLine (results (summary_of w pool jobs))
                ++ [SummaryLine (summary_of w pool jobs)],
              Return (summary_of w pool jobs))
         | Some e => (map ResultLine (results (summary_of w pool jobs)), Raise e)
         end
    else ([], Return (summary_of w pool jobs)).
Proof.
  intros Hpool Hex Hsub Hquiet. unfold process_batch. rewrite Hex, Hsub.
  set (fs := imap (fun k => future_of w pool k) jobs).
  assert (Hlen : length (as_completed pool fs) = length jobs).
  { rewrite (Permutation_length (Hpool fs)). apply length_imap'. }
  rewrite collect_all_quiet.
  2:{ intros Hs k Hk. apply (Hquiet Hs). lia. }
  rewrite Z.add_0_l. cbn [app]. rewrite Hlen.
  fold fs. unfold emit.
  destruct stream; [|reflexivity].
  cbn [Nat.add]. unfold summary_of. fold fs.
  destruct (print_fault console (length jobs)); reflexivity.
Qed.

Lemma submit_all_normal jobs futures :
  submit_all w pool 0 jobs = Return futures ->
  submit_all w pool 0 jobs = Return (imap (fun k => future_of w pool k) jobs).
Proof.
  intros Hsub. rewrite Hsub. f_equal.
  rewrite (submit_all_returns 0 jobs futures Hsub). reflexivity.
Qed.

(** With every write succeeding, a call either fails for the executor or
    a [submit], with and without [stream] alike and before anything is
    written, or returns the summary of its jobs. *)
Lemma process_batch_outcomes jobs max_workers :
  pool_ok pool ->
  writes_succeed console (S (length jobs)) ->
  (exists e,
     (ProcessPoolExecutor pool max_workers = Raise e \/
      submit_all w pool 0 jobs = Raise e) /\
     forall stream,
       process_batch w pool console jobs max_workers stream = ([], Raise e)) \/
  (forall stream,
     process_batch w pool console jobs max_workers stream =
       (if stream
        then map ResultLine (results (summary_of w pool jobs))
               ++ [SummaryLine (summary_of w pool jobs)]
        else [],
        Return (summary_of w pool jobs))).
Proof.
  intros Hpool Hquiet.
  destruct (ProcessPoolExecutor pool max_workers) as [[]|e] eqn:Hex.
  - destruct (submit_all w pool 0 jobs) as [futures|e] eqn:Hsub.
    + right. intros stream.
      rewrite (process_batch_quiet jobs max_workers stream Hpool Hex
                 (submit_all_normal jobs futures Hsub))
        by (intros _ k Hk; apply Hquiet; lia).
      rewrite (Hquiet (length jobs)) by lia. destruct stream; reflexivity.
    + left. exists e. split; [right; reflexivity|]. intros stream.
      unfold process_batch. rewrite Hex, Hsub. reflexivity.
  - left. exists e. split; [left; reflexivity|]. intros stream.
    unfold process_batch. rewrite Hex. reflexivity.
Qed.


(** C10, as the code keeps it.  Provided the result lines can be written,
    streaming does not change what [process_batch] computes: without
    [stream] nothing is written; with it, a call that fails for the
    executor or a [submit] fails alike and writes nothing, and a call that
    returns summary [s] without [stream] writes one line per result of [s]
    and then either writes the summary line and returns [s], or, when that
    last write fails, raises its error instead of returning. *)
Theorem stream_flag_keeps_summary jobs max_workers :
  pool_ok pool ->
  writes_succeed console (length jobs) ->
  let '(out0, r0) := process_batch w pool console jobs max_workers false in
  let '(out1, r1) := process_batch w pool console jobs max_workers true in
  out0 = [] /\
  match r0 with
  | Raise e => r1 = Raise e /\ out1 = []
  | Return summary =>
      match print_fault console (length jobs) with
      | None =>
          r1 = Return summary /\
          out1 = map ResultLine (results summary) ++ [SummaryLine summary]
      | Some e =>
          r1 = Raise e /\ out1 = map ResultLine (results summary)
      end
  end.
Proof.
  intros Hpool Hquiet.
  destruct (ProcessPoolExecutor pool max_workers) as [[]|e] eqn:Hex.
  - destruct (submit_all w pool 0 jobs) as [futures|e] eqn:Hsub.
    + rewrite !(process_batch_quiet jobs max_workers _ Hpool Hex
                  (submit_all_normal jobs futures Hsub))
        by (intros _; exact Hquiet).
      destruct (print_fault console (length jobs)); repeat split.
    + unfold process_batch. rewrite Hex, Hsub. repeat split.
  - unfold process_batch. rewrite Hex. repeat split.
Qed.

End BatchFacts.


(** The summary of that batch: one success, two failures. *)
Example reversed_batch_counts :
  (fun s => (total s, succeeded s, failed s, map success (results s)))
    <$> snd (process_batch (demo_world (one_triangle_doc "0" "1" "2"))
               demo_pool quiet_console demo_jobs 4 false)
  = Return (3%Z, 1%Z, 2%Z, [false; false; true]).
Proof. vm_compute. reflexivity. Qed.

(** C10 at three jobs on a standard output that takes the three result
    lines and refuses the fourth write, the summary line. *)
Lemma stream_flag_witness :
  let '(out0, r0) :=
    process_batch (demo_world (one_triangle_doc "0" "1" "2")) demo_pool
      (failing_at 3) demo_jobs 4 false in
  let '(out1, r1) :=
    process_batch (demo_world (one_triangle_doc "0" "1" "2")) demo_pool
      (failing_at 3) demo_jobs 4 true in
  out0 = [] /\
  match r0 with
  | Raise e => r1 = Raise e /\ out1 = []
  | Return summary =>
      r1 = Raise (mk_exn OSError "[Errno 28] No space left on device") /\
      out1 = map ResultLine (results summary)
  end.
Proof.
  apply (stream_flag_keeps_summary
           (demo_world (one_triangle_doc "0" "1" "2")) demo_pool
           (failing_at 3) demo_jobs 4).
  - intros fs. symmetry. apply Permutation_rev.
  - intros k Hk. cbn [length demo_jobs] in Hk.
    destruct k as [|[|[|k]]]; [reflexivity..|lia].
Defined.

(** C10 as worded fails when the summary line cannot be written: without
    [stream] the call returns a summary, with it the call raises. *)
Lemma stream_flag_counterexample :
  ~ (snd (process_batch (demo_world (one_triangle_doc "0" "1" "2")) steady_pool
            (failing_at 1)
            [{| input := "cube.stl"; output := "out/cube.png"; size := None |}]
            1 true)
     = snd (process_batch (demo_world (one_triangle_doc "0" "1" "2")) steady_pool
              (failing_at 1)
              [{| input := "cube.stl"; output := "out/cube.png"; size := None |}]
              1 false)).
Proof. vm_compute. discriminate. Qed.

(** C2 fails on the code.  One job whose result line cannot be written at
    the first attempt: the [try] has appended the result, the handler
    appends a record of the failed write for the same job, and the summary
    returned counts one job and holds two results. *)
Example failed_write_duplicates_result :
  (fun s => (total s, succeeded s, failed s, map success (results s),
             map error (results s)))
    <$> snd (process_batch (demo_world (one_triangle_doc "0" "1" "2"))
               steady_pool (failing_at 0)
               [{| input := "cube.stl"; output := "out/cube.png"; size := None |}]
               1 true)
  = Return (1%Z, 1%Z, 0%Z, [true; false],
            [None; Some "[Errno 28] No space left on device"]).
Proof. vm_compute. reflexivity. Qed.

(* ===================================================================== *)
(** * More on load_3mf_mesh                                               *)
(* ===================================================================== *)

Section LoaderSurface.
Context {F : Type} `{PyFloat F} (w : World F).

Lemma parse_mesh_nonempty nss mesh_node m :
  parse_mesh w nss mesh_node = Return m -> m <> [].
Proof.
  unfold parse_mesh.
  destruct (parse_vertices w nss mesh_node) as [[|v vs]|e];
    cbn [mbind Exc_bind]; try discriminate.
  destruct (parse_faces w nss mesh_node) as [[|f fs]|e];
    cbn [mbind Exc_bind]; try discriminate.
  unfold build_mesh. destruct (forallb face_fits (f :: fs)); [|discriminate].
  intros Hm. apply for_append_length in Hm.
  destruct m; [discriminate|discriminate].
Qed.

Lemma load_model_nonempty root m : load_model w root = Return m -> m <> [].
Proof.
  unfold load_model.
  destruct (locate_mesh root) as [mesh_node|e]; cbn [mbind Exc_bind];
    [|discriminate].
  apply parse_mesh_nonempty.
Qed.

Lemma wrap_3mf_error_shape e :
  exn_cls (wrap_3mf_error e) = Exception /\
  (str (wrap_3mf_error e) = "Invalid 3MF file (not a valid ZIP)" \/
   exists cause,
     is_BadZipFile cause = false /\
     str (wrap_3mf_error e) = "Failed to parse 3MF file: " +:+ str cause).
Proof.
  unfold wrap_3mf_error. destruct (is_BadZipFile e) eqn:Hz.
  - split; [reflexivity|left; reflexivity].
  - split; [reflexivity|right]. exists e. split; [exact Hz|reflexivity].
Qed.

(** X1. [load_3mf_mesh] returns a mesh with at least one triangle or raises
    a plain [Exception] whose text is either the invalid-archive message
    or [Failed to parse 3MF file: ] followed by the text of the cause;
    no other exception class and no empty mesh leaves the loader. *)
Theorem loader_outcomes fp :
  match load_3mf_mesh w fp with
  | Return m => m <> []
  | Raise e =>
      exn_cls e = Exception /\
      (str e = "Invalid 3MF file (not a valid ZIP)" \/
       exists cause,
         is_BadZipFile cause = false /\
         str e = "Failed to parse 3MF file: " +:+ str cause)
  end.
Proof.
  unfold load_3mf_mesh, try_except.
  destruct (zipfile_ZipFile w fp) as [z|e]; cbn [mbind Exc_bind];
    [|apply wrap_3mf_error_shape].
  destruct (List.filter (fun f => endswith f ".model") (namelist z)) as [|mf rest];
    [apply wrap_3mf_error_shape|].
  destruct (zip_read z mf) as [content|e]; cbn [mbind Exc_bind];
    [|apply wrap_3mf_error_shape].
  destruct (ET_fromstring w content) as [root|e]; cbn [mbind Exc_bind];
    [|apply wrap_3mf_error_shape].
  destruct (load_model w root) as [m|e] eqn:Hm;
    [exact (load_model_nonempty root m Hm)|apply wrap_3mf_error_shape].
Qed.

End LoaderSurface.

Lemma for_append_Forall2 {A B} (f : A -> Exc B) l ys :
  for_append f l = Return ys -> Forall2 (fun x y => f x = Return y) l ys.
Proof.
  revert ys. induction l as [|x l IH]; intros ys; cbn [for_append].
  - intros [= <-]. constructor.
  - destruct (f x) as [y|e] eqn:Hx; cbn [mbind Exc_bind]; [|discriminate].
    destruct (for_append f l) as [ys'|e]; cbn [mbind Exc_bind]; [|discriminate].
    intros [= <-]. constructor; [exact Hx|]. apply IH. reflexivity.
Qed.

Lemma for_append_raised {A B} (f : A -> Exc B) l x :
  In x l -> raised (f x) -> raised (for_append f l).
Proof.
  induction l as [|y l IH]; intros Hin Hx; [destruct Hin|].
  cbn [for_append]. destruct (f y) as [b|e] eqn:Hy; cbn [mbind Exc_bind].
  - destruct Hin as [->|Hin].
    + destruct Hx as [e He]. congruence.
    + destruct (IH Hin Hx) as [e ->]. cbn [mbind Exc_bind]. eexists; reflexivity.
  - eexists; reflexivity.
Qed.

Lemma find_element_in parent t nss e :
  find_element parent t nss = Some e ->
  In e (children parent) /\
  exists ns, In ns nss /\ tag_matches (probe ns t) (tag e) = true.
Proof.
  induction nss as [|n nss IH]; cbn [find_element]; [discriminate|].
  destruct (ET_find parent (probe n t)) as [e'|] eqn:Hn.
  - intros [= ->]. unfold ET_find in Hn. apply find_some in Hn as [Hin Htag].
    split; [exact Hin|].
    exists n. split; [left; reflexivity|exact Htag].
  - intros Hrest. destruct (IH Hrest) as (Hin & ns & Hns & Htag).
    split; [exact Hin|]. exists ns. split; [right; exact Hns|exact Htag].
Qed.

Lemma find_all_elements_in parent t nss e :
  In e (find_all_elements parent t nss) -> In e (children parent).
Proof.
  induction nss as [|n nss IH]; cbn [find_all_elements]; [intros []|].
  destruct (ET_findall parent (probe n t)) as [|x xs] eqn:Hn; [exact IH|].
  rewrite <- Hn. unfold ET_findall. intros Hin.
  apply filter_In in Hin as [Hin _]. exact Hin.
Qed.

Section LoaderStages.
Context {F : Type} `{PyFloat F} (w : World F).

(** X2. An archive none of whose entries ends in [.model] is refused
    with [No .model file found in 3MF archive]. *)
Theorem archive_without_model_entry fp zip_file :
  zipfile_ZipFile w fp = Return zip_file ->
  Forall (fun name => endswith name ".model" = false) (namelist zip_file) ->
  load_3mf_mesh w fp
    = Raise (Exception_
        "Failed to parse 3MF file: No .model file found in 3MF archive").
Proof.
  intros Hz Hnone. unfold load_3mf_mesh. rewrite Hz. cbn [mbind Exc_bind].
  rewrite filter_never; [reflexivity|].
  rewrite List.Forall_forall in Hnone. exact Hnone.
Qed.

(** X3. Only the first entry ending in [.model] is read: two archives
    whose first such entry has the same name and the same content load
    alike, whatever else they hold. *)
Theorem only_first_model_entry_is_read fp1 fp2 z1 z2 model_file rest1 rest2 :
  zipfile_ZipFile w fp1 = Return z1 ->
  zipfile_ZipFile w fp2 = Return z2 ->
  List.filter (fun f => endswith f ".model") (namelist z1) = model_file :: rest1 ->
  List.filter (fun f => endswith f ".model") (namelist z2) = model_file :: rest2 ->
  zip_read z1 model_file = zip_read z2 model_file ->
  load_3mf_mesh w fp1 = load_3mf_mesh w fp2.
Proof.
  intros Hz1 Hz2 Hf1 Hf2 Hread. unfold load_3mf_mesh.
  rewrite Hz1, Hz2. cbn [mbind Exc_bind]. rewrite Hf1, Hf2, Hread. reflexivity.
Qed.

(** X4. [locate_mesh] answers with an element that is a child of an
    object that is a child of the [resources] child of the root, and that
    the path [mesh] under one of the namespace candidates selects; it never
    looks deeper.  It fails
    with one of three messages only: [No mesh found in 3MF object] is never
    raised, since a selected object has a mesh. *)
Theorem locate_mesh_outcomes root :
  match locate_mesh root with
  | Return mesh_node =>
      exists resources obj ns,
        In resources (children root) /\
        In obj (children resources) /\
        In mesh_node (children obj) /\
        In ns (possible_namespaces root) /\
        tag_matches (probe ns "mesh") (tag mesh_node) = true
  | Raise e =>
      In e [Exception_ "No resources found in 3MF file";
            Exception_ "No object found in 3MF file";
            Exception_ "No object with mesh found in 3MF file"]
  end.
Proof.
  unfold locate_mesh. set (nss := possible_namespaces root).
  destruct (find_element root "resources" nss) as [res|] eqn:Hres;
    [|left; reflexivity].
  destruct (find_element_in _ _ _ _ Hres) as [Hin_res _].
  destruct (find_all_elements res "object" nss) as [|o objs] eqn:Hobjs;
    [right; left; reflexivity|].
  pose proof (select_object_policy nss (o :: objs)) as Hpol.
  destruct (select_object nss (o :: objs)) as [obj|] eqn:Hsel;
    [|right; right; left; reflexivity].
  destruct Hpol as (before & _ & Hmesh & _).
  destruct (has_mesh_true _ _ Hmesh) as [m Hm]. rewrite Hm.
  destruct (find_element_in _ _ _ _ Hm) as (Hin_m & ns & Hns & Htag).
  exists res, obj, ns. repeat split; try assumption.
  apply (find_all_elements_in res "object" nss). rewrite Hobjs.
  exact (select_object_in _ _ _ Hsel).
Qed.

(** X5. A vertex element without coordinates is the origin, whatever
    [float] would do, while a triangle element lacking one of [v1], [v2],
    [v3] makes the mesh fail: missing coordinates have a default, missing
    indices have none. *)
Theorem missing_attributes :
  (forall v,
     get v "x" = None -> get v "y" = None -> get v "z" = None ->
     parse_vertex w v = Return (V3 f_zero f_zero f_zero)) /\
  (forall nss mesh_node t k,
     In t (triangle_elements nss mesh_node) ->
     In k ["v1"; "v2"; "v3"] ->
     get t k = None ->
     raised (parse_mesh w nss mesh_node)).
Proof.
  split.
  - intros v Hx Hy Hz. unfold parse_vertex, float_attr.
    rewrite Hx, Hy, Hz. reflexivity.
  - intros nss mesh_node t k Ht Hk Hget.
    assert (Hraise : raised (parse_triangle w t)).
    { unfold parse_triangle, int_attr.
      destruct Hk as [<-|[<-|[<-|[]]]].
      - rewrite Hget. eexists; reflexivity.
      - destruct (get t "v1") as [s|]; [|eexists; reflexivity].
        destruct (py_int w s); cbn [mbind Exc_bind]; [|eexists; reflexivity].
        rewrite Hget. eexists; reflexivity.
      - destruct (get t "v1") as [s|]; [|eexists; reflexivity].
        destruct (py_int w s); cbn [mbind Exc_bind]; [|eexists; reflexivity].
        destruct (get t "v2") as [s2|]; [|eexists; reflexivity].
        destruct (py_int w s2); cbn [mbind Exc_bind]; [|eexists; reflexivity].
        rewrite Hget. eexists; reflexivity. }
    pose proof (for_append_raised (parse_triangle w) _ t Ht Hraise) as [e He].
    unfold parse_mesh, parse_faces. rewrite He.
    destruct (parse_vertices w nss mesh_node) as [[|v vs]|e'];
      cbn [mbind Exc_bind]; eexists; reflexivity.
Qed.

(** X6. A mesh without a [vertices] element, or with one that holds no
    [vertex], fails with [No vertices found in 3MF mesh]; the triangles
    are not looked at. *)
Theorem missing_vertices root mesh_node :
  let nss := possible_namespaces root in
  locate_mesh root = Return mesh_node ->
  match find_element mesh_node "vertices" nss with
  | None => True
  | Some vertices_node => find_all_elements vertices_node "vertex" nss = []
  end ->
  load_model w root = Raise (Exception_ "No vertices found in 3MF mesh").
Proof.
  intros nss Hloc Hvs. unfold load_model. rewrite Hloc. cbn [mbind Exc_bind].
  unfold parse_mesh, parse_vertices. fold nss.
  destruct (find_element mesh_node "vertices" nss) as [vn|].
  - rewrite Hvs. reflexivity.
  - reflexivity.
Qed.

Lemma np_index_addressed (vs : list (vec3 F)) i v :
  np_index vs i = Return v -> addressed vs i = Some v.
Proof.
  unfold np_index, addressed.
  set (k := if (i <? 0)%Z then (i + Z.of_nat (length vs))%Z else i).
  destruct (0 <=? k)%Z; [|discriminate].
  destruct (vs !! Z.to_nat k) as [v'|]; [|discriminate].
  intros [= ->]. reflexivity.
Qed.

(** X7. The loaded mesh has one triangle per face, in declaration order,
    and the corners of each are the rows of the vertex list its three
    indices address. *)
Theorem triangles_dereference_vertices root mesh_node vertices faces m :
  let nss := possible_namespaces root in
  locate_mesh root = Return mesh_node ->
  parse_vertices w nss mesh_node = Return vertices ->
  parse_faces w nss mesh_node = Return faces ->
  load_model w root = Return m ->
  Forall2 (corners_of vertices) faces m.
Proof.
  intros nss Hloc Hvs Hfs. unfold load_model. rewrite Hloc. cbn [mbind Exc_bind].
  unfold parse_mesh. fold nss. rewrite Hvs. cbn [mbind Exc_bind].
  destruct vertices as [|v vs]; [discriminate|].
  rewrite Hfs. cbn [mbind Exc_bind].
  destruct faces as [|f fs]; [discriminate|].
  unfold build_mesh. destruct (forallb face_fits (f :: fs)); [|discriminate].
  intros Hm. apply for_append_Forall2 in Hm.
  eapply Forall2_impl; [exact Hm|].
  intros [[v1 v2] v3] t. unfold materialize, corners_of.
  destruct (np_index (v :: vs) v1) as [a|e] eqn:Ha; cbn [mbind Exc_bind];
    [|discriminate].
  destruct (np_index (v :: vs) v2) as [b|e] eqn:Hb; cbn [mbind Exc_bind];
    [|discriminate].
  destruct (np_index (v :: vs) v3) as [c|e] eqn:Hc; cbn [mbind Exc_bind];
    [|discriminate].
  intros [= <-]. cbn [p0 p1 p2].
  repeat split; apply np_index_addressed; assumption.
Qed.

End LoaderStages.

(** X2 at an archive holding no model part. *)
Lemma archive_without_model_entry_witness :
  load_3mf_mesh
      (archive_world (one_triangle_doc "0" "1" "2")
         (fun _ => ["[Content_Types].xml"; "3D/model.xml"]))
      "part.3mf"
    = Raise (Exception_
        "Failed to parse 3MF file: No .model file found in 3MF archive").
Proof.
  apply (archive_without_model_entry
           (archive_world (one_triangle_doc "0" "1" "2")
              (fun _ => ["[Content_Types].xml"; "3D/model.xml"]))
           "part.3mf"
           {| namelist := ["[Content_Types].xml"; "3D/model.xml"];
              zip_read := fun name => Return name |}).
  - reflexivity.
  - repeat constructor.
Defined.

(** X3 at two archives: the second model part of the first one and the
    leading entry of the second one do not matter. *)
Lemma only_first_model_entry_witness :
  load_3mf_mesh
      (archive_world (one_triangle_doc "0" "1" "2")
         (fun p => if String.eqb p "two.3mf"
                   then ["3D/3dmodel.model"; "3D/spare.model"]
                   else ["[Content_Types].xml"; "3D/3dmodel.model"]))
      "two.3mf"
  = load_3mf_mesh
      (archive_world (one_triangle_doc "0" "1" "2")
         (fun p => if String.eqb p "two.3mf"
                   then ["3D/3dmodel.model"; "3D/spare.model"]
                   else ["[Content_Types].xml"; "3D/3dmodel.model"]))
      "one.3mf".
Proof.
  apply (only_first_model_entry_is_read _ "two.3mf" "one.3mf"
           {| namelist := ["3D/3dmodel.model"; "3D/spare.model"];
              zip_read := fun name => Return name |}
           {| namelist := ["[Content_Types].xml"; "3D/3dmodel.model"];
              zip_read := fun name => Return name |}
           "3D/3dmodel.model" ["3D/spare.model"] []); reflexivity.
Defined.

(** X5 at a bare vertex element and at a triangle without [v2]. *)
Lemma missing_attributes_witness :
  parse_vertex (demo_world no_vertices_doc) (Elem "vertex" ∅ [])
    = Return (V3 0%Q 0%Q 0%Q) /\
  raised (parse_mesh (demo_world no_vertices_doc) candidates_plain
            (mesh_elem id (three_vertices id)
               [Elem "triangle" (attrs [("v1", "0"); ("v3", "2")]) []])).
Proof.
  destruct (missing_attributes (demo_world no_vertices_doc)) as [Hv Ht].
  split.
  - apply Hv; reflexivity.
  - apply (Ht candidates_plain _
             (Elem "triangle" (attrs [("v1", "0"); ("v3", "2")]) []) "v2").
    + left. reflexivity.
    + right. left. reflexivity.
    + reflexivity.
Defined.

(** X6 at a mesh without vertices whose only triangle is malformed. *)
Lemma missing_vertices_witness :
  load_model (demo_world no_vertices_doc) no_vertices_doc
    = Raise (Exception_ "No vertices found in 3MF mesh").
Proof.
  apply (missing_vertices (demo_world no_vertices_doc) no_vertices_doc
           (Elem "mesh" ∅ [Elem "triangles" ∅ [triangle_elem id "0" "1" "x"]])).
  - reflexivity.
  - exact I.
Defined.

(** X7 at a triangle whose last index counts from the end. *)
Lemma triangles_dereference_witness :
  Forall2 (corners_of [V3 0%Q 0%Q 0%Q; V3 4%Q 0%Q 0%Q; V3 0%Q 2%Q 0%Q])
    [(0, 1, -1)%Z]
    [Tri (V3 0%Q 0%Q 0%Q) (V3 4%Q 0%Q 0%Q) (V3 0%Q 2%Q 0%Q)].
Proof.
  apply (triangles_dereference_vertices
           (demo_world (one_triangle_doc "0" "1" "-1"))
           (one_triangle_doc "0" "1" "-1")
           (mesh_elem id (three_vertices id) [triangle_elem id "0" "1" "-1"]));
    vm_compute; reflexivity.
Defined.

(* ===================================================================== *)
(** * More on the job runners                                             *)
(* ===================================================================== *)

Section RunnerRelations.
Context {F : Type} `{PyFloat F} (w : World F).

(** X8. The records of the two runners differ in the [metadata] entry
    only.  When loading or measuring fails, both records are failures with
    the same error, and each keeps what it started with: an empty
    dictionary in [generate_thumbnail], no entry in
    [generate_single_thumbnail].  When the volume can be computed the
    records agree on everything but the [volume] entry.  When computing the
    volume raises, [generate_thumbnail] fails with that error before any
    metadata is stored, a failure [generate_single_thumbnail] cannot
    have. *)
Theorem runners_differ_in_metadata_only fp op sz :
  let r1 := generate_thumbnail w fp op sz in
  let r2 := generate_single_thumbnail w fp op sz in
  let both_fail e :=
    r1 = failed_result EmptyMetadata fp op (str e) /\
    r2 = failed_result NoMetadataKey fp op (str e) in
  match select_loader w fp with
  | Raise e => both_fail e
  | Return stl_mesh =>
      match min_ stl_mesh, max_ stl_mesh with
      | Return _, Return _ =>
          match get_mass_properties w stl_mesh with
          | Return v => same_but_volume v r1 r2
          | Raise e => r1 = failed_result EmptyMetadata fp op (str e)
          end
      | Raise e, _ => both_fail e
      | Return _, Raise e => both_fail e
      end
  end.
Proof.
  cbv zeta.
  unfold generate_thumbnail, generate_single_thumbnail, job_body,
    load_and_measure.
  destruct (select_loader w fp) as [m|e]; cbn [mbind Exc_bind];
    [|split; reflexivity].
  destruct (min_ m) as [mn|e]; cbn [mbind Exc_bind]; [|split; reflexivity].
  destruct (max_ m) as [mx|e]; cbn [mbind Exc_bind]; [|split; reflexivity].
  destruct (get_mass_properties w m) as [v|e]; cbn [mbind Exc_bind];
    [|reflexivity].
  unfold same_but_volume.
  destruct (render w m mn mx op sz) as [u|e]; cbn; repeat split.
Qed.

(** X9. An STL file without triangles cannot be measured: both runners
    fail with numpy's complaint about the empty reduction and store no
    metadata. *)
Theorem empty_stl_mesh_fails fp op sz :
  lower (path_suffix w fp) = ".stl" ->
  Mesh_from_file w fp = Return [] ->
  generate_thumbnail w fp op sz
    = failed_result EmptyMetadata fp op
        "zero-size array to reduction operation minimum which has no identity" /\
  generate_single_thumbnail w fp op sz
    = failed_result NoMetadataKey fp op
        "zero-size array to reduction operation minimum which has no identity".
Proof.
  intros Hext Hload.
  unfold generate_thumbnail, generate_single_thumbnail, job_body,
    load_and_measure, select_loader.
  rewrite Hext. cbn [String.eqb Ascii.eqb Bool.eqb]. rewrite Hload.
  split; reflexivity.
Qed.

End RunnerRelations.

(** X9 at an STL file with a header and no facets. *)
Lemma empty_stl_mesh_witness :
  generate_thumbnail (stl_world (one_triangle_doc "0" "1" "2") [])
      "empty.stl" "out/empty.png" 256
    = failed_result EmptyMetadata "empty.stl" "out/empty.png"
        "zero-size array to reduction operation minimum which has no identity".
Proof.
  exact (proj1 (empty_stl_mesh_fails
                  (stl_world (one_triangle_doc "0" "1" "2") [])
                  "empty.stl" "out/empty.png" 256 eq_refl eq_refl)).
Defined.
(* ===================================================================== *)
(** * The command lines                                                   *)
(* ===================================================================== *)

Section MainFacts.
Context {F : Type} `{PyFloat F} (w : World F) (pool : Pool F)
  (console : Console) (sh : Shell).



Lemma keep_not_stream a :
  a <> "--stream" -> negb (String.eqb a "--stream") = true.
Proof. intros Ha. apply negb_true_iff, String.eqb_neq, Ha. Qed.


Lemma filter_stream_app a b :
  List.filter (fun x => negb (String.eqb x "--stream")) (a ++ b) =
  List.filter (fun x => negb (String.eqb x "--stream")) a ++
  List.filter (fun x => negb (String.eqb x "--stream")) b.
Proof. apply List.filter_app. Qed.

Lemma filter_stream_idem l :
  List.filter (fun x => negb (String.eqb x "--stream"))
    (List.filter (fun x => negb (String.eqb x "--stream")) l) =
  List.filter (fun x => negb (String.eqb x "--stream")) l.
Proof.
  induction l as [|a l IH]; cbn [List.filter]; [reflexivity|].
  destruct (negb (String.eqb a "--stream")) eqn:Ha; [|exact IH].
  cbn [List.filter]. rewrite Ha, IH. reflexivity.
Qed.

Lemma existsb_stream_filter l :
  existsb (String.eqb "--stream")
    (List.filter (fun x => negb (String.eqb x "--stream")) l) = false.
Proof.
  induction l as [|a l IH]; cbn [List.filter]; [reflexivity|].
  destruct (String.eqb a "--stream") eqn:Ha; cbn [negb]; [exact IH|].
  cbn [existsb]. rewrite String.eqb_sym, Ha, IH. reflexivity.
Qed.

Lemma existsb_stream_In l :
  In "--stream" l -> existsb (String.eqb "--stream") l = true.
Proof.
  intros Hin. apply existsb_exists. exists "--stream".
  split; [exact Hin|apply String.eqb_refl].
Qed.

(** X15. Where [--stream] stands on the command line of
    stl_thumbnail_batch.py, and how often, makes no difference: a command
    line that holds it behaves as the one with every occurrence taken out
    and a single [--stream] put at the end. *)
Theorem stream_flag_anywhere argv :
  In "--stream" argv ->
  main_stl_thumbnail_batch w pool console sh argv =
  main_stl_thumbnail_batch w pool console sh
    (List.filter (fun a => negb (String.eqb a "--stream")) argv ++ ["--stream"]).
Proof.
  intros Hin. unfold main_stl_thumbnail_batch.
  rewrite (existsb_stream_In argv Hin).
  rewrite existsb_app. cbn [existsb]. rewrite String.eqb_refl.
  rewrite orb_true_r.
  rewrite filter_stream_app, filter_stream_idem. cbn [List.filter].
  rewrite String.eqb_refl. cbn [negb]. rewrite app_nil_r. reflexivity.
Qed.

Lemma main_dispatch_single stream_mode argv :
  is_batch_invocation argv = false ->
  main_dispatch w pool console sh stream_mode argv = main_dispatch w pool console sh false argv.
Proof.
  unfold is_batch_invocation, main_dispatch.
  destruct argv as [|script [|arg1 rest]]; [reflexivity..|].
  intros Hnb. apply orb_false_iff in Hnb as [Hb Hbs]. rewrite Hbs.
  destruct (String.eqb arg1 "--batch"); [|reflexivity].
  destruct rest; [reflexivity|]. discriminate Hb.
Qed.

(** X16. In single file mode [--stream] is without effect: when the
    command line without the flag asks for no batch, stl_thumbnail_batch.py
    prints and exits as it does without the flag. *)
Theorem stream_flag_ignored_for_single_file argv :
  is_batch_invocation
    (List.filter (fun a => negb (String.eqb a "--stream")) argv) = false ->
  main_stl_thumbnail_batch w pool console sh argv =
  main_stl_thumbnail_batch w pool console sh
    (List.filter (fun a => negb (String.eqb a "--stream")) argv).
Proof.
  intros Hnb. unfold main_stl_thumbnail_batch.
  rewrite filter_stream_idem, existsb_stream_filter.
  apply main_dispatch_single, Hnb.
Qed.

Lemma run_batch_output stream_mode mw jobs :
  pool_ok pool ->
  writes_succeed console (S (length jobs)) ->
  match snd (process_batch w pool console jobs mw false) with
  | Return summary =>
      run_batch w pool console stream_mode (Return mw) (Return jobs) =
        (if stream_mode
         then map (fun r => PrintLine (ResultLine r)) (results summary)
              ++ [PrintLine (SummaryLine summary)]
         else [PrintSummary summary],
         Exit 0%Z)
  | Raise e =>
      run_batch w pool console stream_mode (Return mw) (Return jobs)
        = ([], Uncaught e)
  end.
Proof.
  intros Hpool Hquiet. unfold run_batch.
  destruct (process_batch_outcomes w pool console jobs mw Hpool Hquiet)
    as [(e & _ & Hfail)|Hruns].
  - rewrite !Hfail. reflexivity.
  - rewrite !Hruns. cbn [snd summary_success summary_of].
    destruct stream_mode.
    + rewrite map_app, map_map. reflexivity.
    + rewrite (Hquiet 0%nat) by lia. reflexivity.
Qed.

(** X17. A batch request whose worker count and job list were read, on a
    standard output that takes every line and a pool in which every future
    completes once, ends in one of two ways.  If the executor accepts the
    worker count and every [submit] is taken, the script exits with 0
    whatever became of the jobs and prints the summary once: alone without
    [--stream], after one result line per entry of its [results] with it,
    the same summary both times.  If the executor refuses the worker count
    or a [submit] raises, the exception is not caught and no document is
    printed, with [--stream] or without. *)
Theorem batch_request_output script request rest mw jobs :
  ~ In "--stream" (script :: request ++ rest) ->
  (request = ["--batch-stdin"] /\ jobs_of_stdin sh = Return jobs) \/
  (exists jobs_file,
     request = ["--batch"; jobs_file] /\ jobs_of_file sh jobs_file = Return jobs) ->
  int_argument w rest 4%Z = Return mw ->
  pool_ok pool ->
  writes_succeed console (S (length jobs)) ->
  let argv := script :: request ++ rest in
  match snd (process_batch w pool console jobs mw false) with
  | Return summary =>
      main_stl_thumbnail_batch w pool console sh argv =
        ([PrintSummary summary], Exit 0%Z) /\
      main_stl_thumbnail_batch w pool console sh (argv ++ ["--stream"]) =
        (map (fun r => PrintLine (ResultLine r)) (results summary)
         ++ [PrintLine (SummaryLine summary)], Exit 0%Z)
  | Raise e =>
      (ProcessPoolExecutor pool mw = Raise e \/
       exists i job, jobs !! i = Some job /\ submit_fault pool i job = Some e) /\
      main_stl_thumbnail_batch w pool console sh argv = ([], Uncaught e) /\
      main_stl_thumbnail_batch w pool console sh (argv ++ ["--stream"]) =
        ([], Uncaught e)
  end.
Proof.
  intros Hclean Hreq Hmw Hpool Hquiet argv.
  assert (Hfilter : List.filter (fun a => negb (String.eqb a "--stream")) argv = argv).
  { apply forallb_filter_id, forallb_forall. intros a Ha.
    apply keep_not_stream. intros ->. exact (Hclean Ha). }
  assert (Hno : existsb (String.eqb "--stream") argv = false).
  { rewrite <- Hfilter. apply existsb_stream_filter. }
  assert (Hdispatch : forall stream_mode,
            main_dispatch w pool console sh stream_mode argv =
            run_batch w pool console stream_mode (Return mw) (Return jobs)).
  { intros stream_mode. unfold argv, main_dispatch.
    destruct Hreq as [[-> Hjobs]|(jobs_file & -> & Hjobs)]; cbn [app].
    - change (String.eqb "--batch-stdin" "--batch") with false.
      rewrite String.eqb_refl, Hmw, Hjobs. reflexivity.
    - rewrite String.eqb_refl, Hmw, Hjobs. reflexivity. }
  assert (Hplain : main_stl_thumbnail_batch w pool console sh argv =
                   run_batch w pool console false (Return mw) (Return jobs)).
  { unfold main_stl_thumbnail_batch. rewrite Hno, Hfilter. apply Hdispatch. }
  assert (Hstream : main_stl_thumbnail_batch w pool console sh (argv ++ ["--stream"]) =
                    run_batch w pool console true (Return mw) (Return jobs)).
  { unfold main_stl_thumbnail_batch.
    rewrite existsb_app. cbn [existsb]. rewrite String.eqb_refl, orb_true_r.
    rewrite filter_stream_app, Hfilter. cbn [List.filter].
    rewrite String.eqb_refl. cbn [negb]. rewrite app_nil_r. apply Hdispatch. }
  rewrite Hplain, Hstream.
  pose proof (run_batch_output false mw jobs Hpool Hquiet) as Hf.
  pose proof (run_batch_output true mw jobs Hpool Hquiet) as Ht.
  destruct (process_batch_outcomes w pool console jobs mw Hpool Hquiet)
    as [(e & Hwhy & Hfail)|Hruns].
  - rewrite (Hfail false) in Hf, Ht |- *. cbn [snd] in Hf, Ht |- *.
    split; [|split; assumption].
    destruct Hwhy as [Hex|Hsub]; [left; exact Hex|right].
    destruct (submit_all_raises w pool 0 jobs e Hsub) as (k & job & Hk & Hfault).
    exists k, job. split; assumption.
  - rewrite (Hruns false) in Hf, Ht |- *. cbn [snd] in Hf, Ht |- *.
    split; assumption.
Qed.

End MainFacts.


(** X15 with the flag between [--batch] and the jobs file, and again
    after the worker count. *)
Lemma stream_flag_anywhere_witness :
  main_stl_thumbnail_batch (demo_world (one_triangle_doc "0" "1" "2"))
    demo_pool quiet_console demo_shell
    ["stl_thumbnail_batch.py"; "--batch"; "--stream"; "jobs.json"; "2"; "--stream"] =
  main_stl_thumbnail_batch (demo_world (one_triangle_doc "0" "1" "2"))
    demo_pool quiet_console demo_shell
    ["stl_thumbnail_batch.py"; "--batch"; "jobs.json"; "2"; "--stream"].
Proof.
  apply (stream_flag_anywhere
           (demo_world (one_triangle_doc "0" "1" "2")) demo_pool quiet_console demo_shell
           ["stl_thumbnail_batch.py"; "--batch"; "--stream"; "jobs.json"; "2"; "--stream"]).
  right. right. left. reflexivity.
Defined.

(** X16 for one file, with the flag before the input path. *)
Lemma stream_flag_ignored_witness :
  main_stl_thumbnail_batch (demo_world (one_triangle_doc "0" "1" "2"))
    demo_pool quiet_console demo_shell
    ["stl_thumbnail_batch.py"; "--stream"; "cube.stl"; "out/cube.png"; "128"] =
  main_stl_thumbnail_batch (demo_world (one_triangle_doc "0" "1" "2"))
    demo_pool quiet_console demo_shell
    ["stl_thumbnail_batch.py"; "cube.stl"; "out/cube.png"; "128"].
Proof.
  apply (stream_flag_ignored_for_single_file
           (demo_world (one_triangle_doc "0" "1" "2")) demo_pool quiet_console demo_shell
           ["stl_thumbnail_batch.py"; "--stream"; "cube.stl"; "out/cube.png"; "128"]).
  reflexivity.
Defined.

(** X17 for the jobs file of three jobs and two workers. *)
Lemma batch_request_witness :
  exists summary,
    snd (process_batch (demo_world (one_triangle_doc "0" "1" "2")) demo_pool
           quiet_console demo_jobs 2 false) = Return summary /\
    main_stl_thumbnail_batch (demo_world (one_triangle_doc "0" "1" "2"))
      demo_pool quiet_console demo_shell
      ["stl_thumbnail_batch.py"; "--batch"; "jobs.json"; "2"] =
      ([PrintSummary summary], Exit 0%Z) /\
    main_stl_thumbnail_batch (demo_world (one_triangle_doc "0" "1" "2"))
      demo_pool quiet_console demo_shell
      ["stl_thumbnail_batch.py"; "--batch"; "jobs.json"; "2"; "--stream"] =
      (map (fun r => PrintLine (ResultLine r)) (results summary)
       ++ [PrintLine (SummaryLine summary)], Exit 0%Z).
Proof.
  pose proof (batch_request_output
           (demo_world (one_triangle_doc "0" "1" "2")) demo_pool quiet_console
           demo_shell
           "stl_thumbnail_batch.py" ["--batch"; "jobs.json"] ["2"] 2%Z demo_jobs)
    as Hout.
  cbv zeta in Hout.
  destruct (snd (process_batch (demo_world (one_triangle_doc "0" "1" "2"))
                   demo_pool quiet_console demo_jobs 2 false))
    as [summary|e] eqn:Hrun; [|vm_compute in Hrun; discriminate Hrun].
  exists summary. split; [reflexivity|].
  apply Hout.
  - intros Hin. repeat (destruct Hin as [Hin|Hin]; [discriminate Hin|]).
    exact Hin.
  - right. exists "jobs.json". split; reflexivity.
  - reflexivity.
  - intros fs. symmetry. apply Permutation_rev.
  - intros k _. reflexivity.
Defined.

(** The three demo jobs on the command line: one summary, exit code 0,
    although only the first job succeeded. *)
Example demo_batch_exit :
  exists summary,
    main_stl_thumbnail_batch (demo_world (one_triangle_doc "0" "1" "2"))
      demo_pool quiet_console demo_shell
      ["stl_thumbnail_batch.py"; "--batch"; "jobs.json"; "2"] =
      ([PrintSummary summary], Exit 0%Z) /\
    succeeded summary = 1%Z /\ failed summary = 2%Z.
Proof. eexists. split; [vm_compute; reflexivity|split; reflexivity]. Qed.
(* ===================================================================== *)
(** * The namespace of the root tag                                       *)
(* ===================================================================== *)

Section RootNamespaceLoader.
Context {F : Type} `{PyFloat F} (w : World F).
Variable ns : string.
Hypothesis Hns : clean_uri ns = true.

(** X18. The namespace of the root tag is honoured whatever it is: a
    document without namespaces and its copy in any namespace whose name
    is not empty and holds no brace load to the same result, mesh or
    error; the namespace read off the root of the copy is that name. *)
Theorem root_namespace_is_honoured root :
  plain root = true ->
  ns_uri (qualify ns root) = Some ns /\
  load_model w (qualify ns root) = load_model w root.
Proof.
  intros Hp. split; [exact (ns_uri_qualify ns root Hns)|].
  exact (load_model_qualified w ns Hns root Hp).
Qed.

(** No candidate other than [ns] itself and the wildcard [*] reaches a tag
    qualified with [ns]. *)
Lemma probe_misses c t x :
  c <> Some ns -> c <> Some "*" ->
  (forall n, c = Some n -> lacks "}" n = true) ->
  startswith t "{" = false ->
  tag_matches (probe c t) (qname ns x) = false.
Proof.
  intros Hc Hstar Hl Ht. unfold probe.
  destruct (truthy c) as [n|] eqn:Htruthy.
  - assert (Hcn : c = Some n /\ n <> EmptyString).
    { destruct c as [[|a s]|]; cbn [truthy] in Htruthy;
        [discriminate| |discriminate].
      injection Htruthy as <-. split; [reflexivity|discriminate]. }
    destruct Hcn as [Hcn Hne].
    rewrite tag_matches_exact;
      [|exact Hne|intros Heq; apply Hstar; rewrite Hcn, Heq; reflexivity
       |exact (Hl n Hcn)].
    apply qname_eqb_other.
    + apply (clean_uri_parts ns Hns).
    + exact (Hl n Hcn).
    + intros Heq. apply Hc. rewrite Hcn, Heq. reflexivity.
  - rewrite (tag_matches_bare t _ Ht). apply qname_eqb_bare. exact Ht.
Qed.

(** X19. A namespace that the root tag does not carry and that is not one
    of the two the loader names is not looked for, unless the namespace of
    the root is the wildcard [*] of ElementTree paths: when the children of
    the root are in such a namespace, the loader finds no [resources]
    element, whatever the document holds, and fails with 'No resources
    found in 3MF file'. *)
Theorem undeclared_namespace_is_not_seen root_tag root_attrib elements :
  ns <> NS_MICROSOFT -> ns <> NS_OPENXML ->
  ns_uri (Elem root_tag root_attrib (map (qualify ns) elements)) <> Some ns ->
  ns_uri (Elem root_tag root_attrib (map (qualify ns) elements)) <> Some "*" ->
  load_model w (Elem root_tag root_attrib (map (qualify ns) elements))
    = Raise (Exception_ "No resources found in 3MF file").
Proof.
  intros Hms Hox Hroot Hstar.
  set (root := Elem root_tag root_attrib (map (qualify ns) elements)) in *.
  assert (Hmiss : forall c,
            c <> Some ns -> c <> Some "*" ->
            (forall n, c = Some n -> lacks "}" n = true) ->
            ET_find root (probe c "resources") = None).
  { intros c Hc Hcs Hl. unfold ET_find, root. cbn [children].
    apply find_never. intros e He. apply in_map_iff in He as (e0 & <- & _).
    rewrite tag_qualify.
    apply probe_misses; [exact Hc|exact Hcs|exact Hl|reflexivity]. }
  unfold load_model, locate_mesh, possible_namespaces. cbn [find_element].
  rewrite (Hmiss (ns_uri root) Hroot Hstar (ns_uri_lacks root)).
  rewrite (Hmiss (Some NS_MICROSOFT)), (Hmiss (Some NS_OPENXML)), (Hmiss None).
  - reflexivity.
  - discriminate.
  - discriminate.
  - discriminate.
  - congruence.
  - discriminate.
  - intros n [= <-]. reflexivity.
  - congruence.
  - discriminate.
  - intros n [= <-]. reflexivity.
Qed.

End RootNamespaceLoader.

(** X18 at a document with one triangle in a namespace of its own. *)
Lemma root_namespace_witness :
  ns_uri (qualify NS_FOREIGN (one_triangle_doc "0" "1" "2")) = Some NS_FOREIGN /\
  load_model (demo_world (one_triangle_doc "0" "1" "2"))
    (qualify NS_FOREIGN (one_triangle_doc "0" "1" "2"))
  = load_model (demo_world (one_triangle_doc "0" "1" "2"))
      (one_triangle_doc "0" "1" "2").
Proof.
  apply (root_namespace_is_honoured
           (demo_world (one_triangle_doc "0" "1" "2")) NS_FOREIGN);
    reflexivity.
Defined.

(** X19 at the same document with a root tag outside the namespace of
    its children. *)
Lemma undeclared_namespace_witness :
  load_model (demo_world (one_triangle_doc "0" "1" "2"))
    (Elem "model" ∅
       (map (qualify NS_FOREIGN) (children (one_triangle_doc "0" "1" "2"))))
  = Raise (Exception_ "No resources found in 3MF file").
Proof.
  apply (undeclared_namespace_is_not_seen
           (demo_world (one_triangle_doc "0" "1" "2")) NS_FOREIGN);
    [reflexivity|discriminate|discriminate|discriminate|discriminate].
Defined.

(** The mesh the document yields in a namespace of its own, and in the
    namespace [*], whose paths are wildcards. *)
Example foreign_namespace_mesh :
  map (load_model (demo_world (one_triangle_doc "0" "1" "2")))
    [qualify NS_FOREIGN (one_triangle_doc "0" "1" "2");
     qualify "*" (one_triangle_doc "0" "1" "2")]
  = repeat (Return [Tri (V3 0%Q 0%Q 0%Q) (V3 4%Q 0%Q 0%Q) (V3 0%Q 2%Q 0%Q)]) 2.
Proof. vm_compute. reflexivity. Qed.

(** Under a root in the namespace [*] the children are found in whatever
    namespace they are. *)
Example wildcard_root_finds_foreign_children :
  load_model (demo_world (one_triangle_doc "0" "1" "2"))
    (Elem "{*}model" ∅
       (map (qualify NS_FOREIGN) (children (one_triangle_doc "0" "1" "2"))))
  = Return [Tri (V3 0%Q 0%Q 0%Q) (V3 4%Q 0%Q 0%Q) (V3 0%Q 2%Q 0%Q)].
Proof. vm_compute. reflexivity. Qed.
